(** * ytdownloader: the format classifier and its request handlers

    A shallow embedding of the two snapshots of the server that the
    repository holds:

    - [Part000] is the snapshot that announces version 2.0.0 of the API
      (sorted video formats, [/bulk-extract], the [limit] of [/search]);
    - [Index] is [index.js] (no sorting, no [limit], no [/bulk-extract]).

    JavaScript values are modelled by their types: a property that may be
    [undefined] is an [option]; a string is a [string] of bytes (UTF-8; the
    characters the code looks at, digits, [p], [,] and the tokens [mp4] and
    [webm], are ASCII, so that searching bytes and searching UTF-16 code
    units agree); an exception is a [Throw] carrying the error's message.
    A number is a double: the only numbers the code computes are results
    of [parseInt] and their differences, which are integers (exact below
    2^53, the nearest double above, an infinity from 2^1024 on) or [NaN].
    [console.log] and [console.error] are not modelled. *)

From Stdlib Require Import String Ascii List ZArith Bool Lia.
From Stdlib Require Import Sorted Permutation.
Import ListNotations.

Open Scope string_scope.
Open Scope list_scope.

(* ================================================================== *)
(** ** The JavaScript built-ins the server uses *)
(* ================================================================== *)

Module Js.

(** Numbers: the doubles whose value is an integer, the two infinities
    and [NaN]. [Num z] stands for the double of value [z]; there is one
    zero (the sign of zero is not seen in a JSON body, nor by the sort). *)
Inductive Number : Type :=
| NaN
| Num (z : Z)
| Infinity
| NegInfinity.

(** 2^53. *)
Definition two53 : Z := 9007199254740992.

Definition two1024 : Z := 2 ^ 1024.

(** The double nearest to the natural number [z], as an integer: below
    2^53 every integer is a double; above, the value keeps 53 bits, and a
    tie goes to the even one. *)
Definition nearest (z : Z) : Z :=
  if (z <? two53)%Z then z
  else
    let e := (Z.log2 z - 52)%Z in
    let q := (z / 2 ^ e)%Z in
    let r := (z mod 2 ^ e)%Z in
    let half := (2 ^ (e - 1))%Z in
    let q' := if (half <? r)%Z || ((r =? half)%Z && Z.odd q) then (q + 1)%Z else q in
    (q' * 2 ^ e)%Z.

(** The number value of the integer [z]: its nearest double, an infinity
    when that is 2^1024 or more. *)
Definition toNumber (z : Z) : Number :=
  if (Z.abs z <? two53)%Z then Num z
  else
    let v := nearest (Z.abs z) in
    if (two1024 <=? v)%Z then (if (z <? 0)%Z then NegInfinity else Infinity)
    else Num (Z.sgn z * v).

(** [a - b]: the difference of two doubles is the double nearest to the
    difference of their values. *)
Definition sub (a b : Number) : Number :=
  match a, b with
  | NaN, _ | _, NaN => NaN
  | Num x, Num y => toNumber (x - y)
  | Infinity, Infinity | NegInfinity, NegInfinity => NaN
  | Infinity, _ | _, NegInfinity => Infinity
  | NegInfinity, _ | _, Infinity => NegInfinity
  end.

(** [v > 0]. *)
Definition positive (v : Number) : bool :=
  match v with
  | Num z => (0 <? z)%Z
  | Infinity => true
  | _ => false
  end.

(** The outcome of evaluating an expression: a value, or an exception
    with its message. *)
Inductive completion (A : Type) : Type :=
| Normal (a : A)
| Throw (message : string).
Arguments Normal {A} a.
Arguments Throw {A} message.

Definition bind {A B} (c : completion A) (k : A -> completion B) : completion B :=
  match c with
  | Normal a => k a
  | Throw m => Throw m
  end.

(** Truthiness of a string-valued property: [undefined] and the empty
    string are falsy. *)
Definition truthy (v : option string) : bool :=
  match v with
  | Some (String _ _) => true
  | _ => false
  end.

(** [a || b] on string-valued properties. *)
Definition or_else (a b : option string) : option string :=
  if truthy a then a else b.

(** [a || 'literal']: the result is always a string. *)
Definition or_default (a : option string) (d : string) : string :=
  match a with
  | Some (String c s) => String c s
  | _ => d
  end.

(** [x === 'literal'] for a property [x]. *)
Definition strict_eq (x : option string) (lit : string) : bool :=
  match x with
  | Some s => String.eqb s lit
  | None => false
  end.

(** [s.includes(sub)]. *)
Fixpoint includes (s sub : string) : bool :=
  prefix sub s ||
  match s with
  | EmptyString => false
  | String _ s' => includes s' sub
  end.

(** [x?.includes(sub)] used as a condition: [undefined] is falsy. *)
Definition opt_includes (x : option string) (sub : string) : bool :=
  match x with
  | Some s => includes s sub
  | None => false
  end.

(** *** White space, [trim] and [parseInt] *)

Definition bytes (l : list nat) : string :=
  string_of_list_ascii (map ascii_of_nat l).

(** WhiteSpace and LineTerminator of ECMAScript, in UTF-8. *)
Definition white_space : list string :=
  map bytes
    [ [9]; [10]; [11]; [12]; [13]; [32];
      [194; 160];
      [225; 154; 128];
      [226; 128; 128]; [226; 128; 129]; [226; 128; 130]; [226; 128; 131];
      [226; 128; 132]; [226; 128; 133]; [226; 128; 134]; [226; 128; 135];
      [226; 128; 136]; [226; 128; 137]; [226; 128; 138];
      [226; 128; 168]; [226; 128; 169]; [226; 128; 175];
      [226; 129; 159];
      [227; 128; 128];
      [239; 187; 191] ].

Definition drop (n : nat) (s : string) : string :=
  substring n (String.length s - n) s.

(** The rest of [s] after one leading white space character, if any. *)
Fixpoint strip_one (ws : list string) (s : string) : option string :=
  match ws with
  | [] => None
  | w :: ws' => if prefix w s then Some (drop (String.length w) s)
                else strip_one ws' s
  end.

Fixpoint strip_fuel (ws : list string) (n : nat) (s : string) : string :=
  match n with
  | O => s
  | S n' => match strip_one ws s with
            | Some s' => strip_fuel ws n' s'
            | None => s
            end
  end.

Definition string_rev (s : string) : string :=
  string_of_list_ascii (rev (list_ascii_of_string s)).

Definition trimStart (s : string) : string :=
  strip_fuel white_space (String.length s) s.

Definition trimEnd (s : string) : string :=
  string_rev (strip_fuel (map string_rev white_space) (String.length s) (string_rev s)).

(** [s.trim()]. *)
Definition trim (s : string) : string := trimEnd (trimStart s).

Definition is_digit (c : ascii) : bool :=
  let n := N_of_ascii c in ((48 <=? n) && (n <=? 57))%N.

(** The value of [c] as a digit in a radix up to 36. *)
Definition digit_value (c : ascii) : option Z :=
  let n := Z.of_N (N_of_ascii c) in
  if ((48 <=? n) && (n <=? 57))%Z then Some (n - 48)%Z
  else if ((97 <=? n) && (n <=? 122))%Z then Some (n - 87)%Z
  else if ((65 <=? n) && (n <=? 90))%Z then Some (n - 55)%Z
  else None.

(** The longest prefix of [s] made of digits of radix [R], as a number;
    [acc] is [None] until a digit has been read. *)
Fixpoint parse_digits (R : Z) (s : string) (acc : option Z) : option Z :=
  match s with
  | EmptyString => acc
  | String c s' =>
      match digit_value c with
      | Some d =>
          if (d <? R)%Z
          then parse_digits R s'
                 (Some (match acc with Some a => a * R + d | None => d end)%Z)
          else acc
      | None => acc
      end
  end.

(** [parseInt(s)], with no radix argument. For more than 20 significant
    decimal digits the language lets an engine approximate; the model
    takes the nearest double, as Node does. *)
Definition parseInt (s : string) : Number :=
  let s1 := trimStart s in
  let sign := if prefix "-" s1 then (-1)%Z else 1%Z in
  let s2 := if prefix "-" s1 || prefix "+" s1 then drop 1 s1 else s1 in
  let hex := prefix "0x" s2 || prefix "0X" s2 in
  let R := if hex then 16%Z else 10%Z in
  let s3 := if hex then drop 2 s2 else s2 in
  match parse_digits R s3 None with
  | Some v => toNumber (sign * v)
  | None => NaN
  end.

(** *** The regular expression [/(\d+)p/] *)

(** Length of the run of digits at the front of [s]. *)
Fixpoint digit_run (s : string) : nat :=
  match s with
  | String c s' => if is_digit c then S (digit_run s') else O
  | EmptyString => O
  end.

(** A match starting at the front of [s]: [\d+] is greedy, so it first
    takes the [k] digits of the whole run and gives them back one by one
    until a [p] follows. The result is the capture group. *)
Fixpoint match_here (k : nat) (s : string) : option string :=
  match k with
  | O => None
  | S k' => match get k s with
            | Some c => if Ascii.eqb c "p"%char then Some (substring 0 k s)
                        else match_here k' s
            | None => match_here k' s
            end
  end.

(** [s.match(/(\d+)p/)]: the leftmost match; [Some d] is [match[1]],
    [None] is [null]. *)
Fixpoint match_digits_p (s : string) : option string :=
  match match_here (digit_run s) s with
  | Some d => Some d
  | None => match s with
            | EmptyString => None
            | String _ s' => match_digits_p s'
            end
  end.

(** *** Arrays *)

(** [l.slice(0, e)]: a [NaN] end is 0, a negative end counts from the
    back, and the end is clamped to the length. *)
Definition slice0 {A} (l : list A) (e : Number) : list A :=
  let len := Z.of_nat (List.length l) in
  let final :=
    match e with
    | Infinity => len
    | NegInfinity => 0%Z
    | NaN => Z.min 0 len
    | Num rel => if (rel <? 0)%Z then Z.max (len + rel) 0 else Z.min rel len
    end in
  firstn (Z.to_nat final) l.

(** [s.split(',')]. *)
Fixpoint split_comma (s : string) : list string :=
  match s with
  | EmptyString => [EmptyString]
  | String c s' =>
      if Ascii.eqb c ","%char then EmptyString :: split_comma s'
      else match split_comma s' with
           | piece :: rest => String c piece :: rest
           | [] => [String c EmptyString]
           end
  end.

(** [l.sort(comparefn)]. The sort is stable, and [comparefn(x, y) > 0]
    means that [x] comes after [y]; a [NaN] from the comparator counts as
    0. With a comparator that orders by a key the result does not depend
    on the engine's algorithm; the model is the stable insertion sort. *)
Definition SortCompare {A} (comparefn : A -> A -> Number) (x y : A) : Number :=
  match comparefn x y with
  | NaN => Num 0
  | v => v
  end.

Fixpoint insert {A} (comparefn : A -> A -> Number) (x : A) (l : list A) : list A :=
  match l with
  | [] => [x]
  | y :: l' => if positive (SortCompare comparefn x y)
               then y :: insert comparefn x l'
               else x :: l
  end.

Fixpoint sort {A} (comparefn : A -> A -> Number) (l : list A) : list A :=
  match l with
  | [] => []
  | x :: l' => insert comparefn x (sort comparefn l')
  end.

End Js.

Notation "x <- c ;; k" := (Js.bind c (fun x => k))
  (at level 61, c at next level, right associativity).

Module JsArray.

(** [l[i]]: [undefined] outside the array. *)
Definition index {A} (l : list A) (i : Z) : option A :=
  if (i <? 0)%Z then None else nth_error l (Z.to_nat i).

(** [l.length]. *)
Definition length {A} (l : list A) : Z := Z.of_nat (List.length l).

End JsArray.

(* ================================================================== *)
(** ** What the resolver and the search client return *)
(* ================================================================== *)

(** A stream format of the resolver. *)
Module Format.
Record t : Type := mk {
  qualityLabel : option string;
  quality : option string;
  audioQuality : option string;
  url : option string;
  mimeType : option string;
  hasVideo : bool;
  hasAudio : bool;
  contentLength : option string;
  container : option string;
  codecs : option string
}.
End Format.

Module Thumbnail.
Record t : Type := mk { url : option string }.
End Thumbnail.

Module Author.
Record t : Type := mk { name : option string }.
End Author.

Module VideoDetails.
Record t : Type := mk {
  title : option string;
  description : option string;
  lengthSeconds : option string;
  viewCount : option string;
  author : option Author.t;
  thumbnails : option (list Thumbnail.t)
}.
End VideoDetails.

Module VideoInfo.
Record t : Type := mk {
  videoDetails : VideoDetails.t;
  formats : list Format.t
}.
End VideoInfo.

(** A video of the search client. *)
Module Video.
Record t : Type := mk {
  videoId : string;
  title : string;
  description : string;
  duration_timestamp : string;      (* [video.duration.timestamp] *)
  views : Z;
  uploaded : option string;
  thumbnail : option string;
  author_name : string;             (* [video.author.name] *)
  url : string
}.
End Video.

(* ================================================================== *)
(** ** What the server answers *)
(* ================================================================== *)

(** A property that the object literal does not have, or whose value is
    [undefined], is [None]: [res.json] leaves both out of the body. The
    tree [format_options.video.mp4] is flattened to [video_mp4], and so
    on. [E] is the type of the entries of the format lists. *)
Module Classified.
Record t (E : Type) : Type := mk {
  title : option string;
  image : option string;
  description : option string;
  lengthSeconds : option string;
  author : option string;
  viewCount : option string;
  expiresInSeconds : option string;
  video_mp4 : list E;
  video_webm : list E;
  audio_mp3 : list E;
  audio_webm : list E
}.
Arguments mk {E}.
Arguments title {E}.
Arguments image {E}.
Arguments description {E}.
Arguments lengthSeconds {E}.
Arguments author {E}.
Arguments viewCount {E}.
Arguments expiresInSeconds {E}.
Arguments video_mp4 {E}.
Arguments video_webm {E}.
Arguments audio_mp3 {E}.
Arguments audio_webm {E}.
End Classified.

(** An entry of the [results] of [/search]. *)
Module SearchResult.
Record t : Type := mk {
  videoId : string;
  title : string;
  description : string;
  duration : string;
  views : Z;
  uploaded : option string;
  thumbnail : option string;
  author : string;
  url : string
}.
End SearchResult.

(** An entry of the [results] of [/bulk-extract]. *)
Module BulkEntry.
Record t (E : Type) : Type := mk {
  url : string;
  status : string;
  data : option (Classified.t E);
  error : option string
}.
Arguments mk {E}.
Arguments url {E}.
Arguments status {E}.
Arguments data {E}.
Arguments error {E}.
End BulkEntry.

(** The value of a property of an error body. *)
Inductive Json : Type :=
| JStr (s : string)
| JArr (l : list string).

(** The bodies [res.json] is called with. In [Found], [total] is [None]
    when the body has no such property. *)
Inductive Body (E : Type) : Type :=
| Extracted (d : Classified.t E)
| Found (query : string) (results : list SearchResult.t) (total : option Z)
| Bulk (total successful failed : Z) (results : list (BulkEntry.t E))
| Failure (properties : list (string * Json)).
Arguments Extracted {E}.
Arguments Found {E}.
Arguments Bulk {E}.
Arguments Failure {E}.

Module Response.
Record t (E : Type) : Type := mk {
  status : Z;
  body : Body E
}.
Arguments mk {E}.
Arguments status {E}.
Arguments body {E}.
End Response.

(** [res.status(code).json(body)], and [res.json(body)] with the default
    status 200. *)
Definition status_json {E} (code : Z) (b : Body E) : Response.t E :=
  Response.mk code b.

Definition json {E} (b : Body E) : Response.t E :=
  Response.mk 200 b.

(** The result of the [map] of [/search]. *)
Definition searchResult (video : Video.t) : SearchResult.t :=
  SearchResult.mk
    (Video.videoId video)
    (Video.title video)
    (Video.description video)
    (Video.duration_timestamp video)
    (Video.views video)
    (Video.uploaded video)
    (Video.thumbnail video)
    (Video.author_name video)
    (Video.url video).

(** [format.contentLength ? parseInt(format.contentLength) : null];
    [None] is [null]. *)
Definition fileSizeOf (format : Format.t) : option Js.Number :=
  match Format.contentLength format with
  | Some (String c s) => Some (Js.parseInt (String c s))
  | _ => None
  end.

(** [s] between double quotes. *)
Definition quoted (s : string) : string :=
  String (ascii_of_nat 34) (s ++ String (ascii_of_nat 34) EmptyString).

Definition TypeError_undefined (property : string) : string :=
  "Cannot read properties of undefined (reading '" ++ property ++ "')".

(** [videoInfo.videoDetails.thumbnails[videoInfo.videoDetails.thumbnails.length - 1]]:
    reading [length] of a missing list throws; an index outside the list
    gives [undefined]. *)
Definition last_thumbnail (d : VideoDetails.t) : Js.completion (option Thumbnail.t) :=
  match VideoDetails.thumbnails d with
  | None => Js.Throw (TypeError_undefined "length")
  | Some l => Js.Normal (JsArray.index l (JsArray.length l - 1))
  end.

(* ================================================================== *)
(** ** The external collaborators *)
(* ================================================================== *)

(** The resolver ([ytdl-core]) and the search client ([yt-search]) talk to
    the platform: an awaited call takes the state [W] of the outside world
    and gives the settled promise (the value, or the rejection's message)
    and the next state. [validateURL] looks at its argument only. *)
Module Ytdl.
Record t (W : Type) : Type := mk {
  validateURL : string -> bool;
  getInfo : string -> list (string * string) -> W -> Js.completion VideoInfo.t * W
}.
Arguments validateURL {W}.
Arguments getInfo {W}.
End Ytdl.

Module SearchResults.
Record t : Type := mk { videos : list Video.t }.
End SearchResults.

Definition YtSearch (W : Type) : Type :=
  string -> W -> Js.completion SearchResults.t * W.

(* ================================================================== *)
(** ** The 2.0.0 snapshot *)
(* ================================================================== *)

Module Part000.

(** An entry of the format lists; the audio entries have no [codecs]. *)
Module Entry.
Record t : Type := mk {
  quality : string;
  url : option string;
  mimeType : option string;
  hasAudio : bool;
  fileSize : option Js.Number;
  container : option string;
  codecs : option string
}.
End Entry.

(** The [map] of the video formats. *)
Definition videoEntry (format : Format.t) : Entry.t :=
  Entry.mk
    (Js.or_default (Js.or_else (Format.qualityLabel format) (Format.quality format)) "unknown")
    (Format.url format)
    (Format.mimeType format)
    (Format.hasAudio format)
    (fileSizeOf format)
    (Format.container format)
    (Format.codecs format).

(** The [map] of the audio formats. *)
Definition audioEntry (format : Format.t) : Entry.t :=
  Entry.mk
    (Js.or_default (Format.audioQuality format) "audio")
    (Format.url format)
    (Format.mimeType format)
    true
    (fileSizeOf format)
    (Format.container format)
    None.

Definition getQualityNum (quality : string) : Js.Number :=
  match Js.match_digits_p quality with
  | Some match1 => Js.parseInt match1
  | None => Js.Num 0
  end.

(** The comparator of the [sort]. *)
Definition comparefn (a b : Entry.t) : Js.Number :=
  Js.sub (getQualityNum (Entry.quality b)) (getQualityNum (Entry.quality a)).

(** The formats the video list is made of, and those of the audio list. *)
Definition isVideo (format : Format.t) : bool := Format.hasVideo format.

Definition isAudio (format : Format.t) : bool :=
  Format.hasAudio format && negb (Format.hasVideo format).

Definition videoFormats (formats : list Format.t) : list Entry.t :=
  Js.sort comparefn (map videoEntry (filter isVideo formats)).

Definition audioFormats (formats : list Format.t) : list Entry.t :=
  map audioEntry (filter isAudio formats).

(** The test of a container group: [f.container === token ||
    f.mimeType?.includes(token)]. *)
Definition inGroup (token : string) (f : Entry.t) : bool :=
  Js.strict_eq (Entry.container f) token
  || Js.opt_includes (Entry.mimeType f) token.

Definition formatVideoData (videoInfo : VideoInfo.t) (formats : list Format.t)
  : Js.completion (Classified.t Entry.t) :=
  let videoFormats := videoFormats formats in
  let audioFormats := audioFormats formats in
  let details := VideoInfo.videoDetails videoInfo in
  last <- last_thumbnail details ;;
  Js.Normal
    (Classified.mk
       (VideoDetails.title details)
       (match last with Some t => Thumbnail.url t | None => None end)
       (VideoDetails.description details)
       (VideoDetails.lengthSeconds details)
       (Some (Js.or_default
                (match VideoDetails.author details with
                 | Some a => Author.name a
                 | None => None
                 end)
                "Unknown"))
       (VideoDetails.viewCount details)
       (Some "21540")
       (filter (inGroup "mp4") videoFormats)
       (filter (inGroup "webm") videoFormats)
       (filter (inGroup "mp4") audioFormats)
       (filter (inGroup "webm") audioFormats)).

Definition Response : Type := Response.t Entry.t.

Section Handlers.

Variable W : Type.
Variable ytdl : Ytdl.t W.
Variable ytSearch : YtSearch W.

Definition userAgent : list (string * string) :=
  [("User-Agent",
    "Mozilla/5.0 (Windows NT 10.0; Win64; x64) AppleWebKit/537.36 (KHTML, like Gecko) Chrome/91.0.4472.124 Safari/537.36")].

(** [GET /extract]; [url] is [req.query.url]. *)
Definition extract (url : option string) (w : W) : Response * W :=
  match url with
  | Some (String c s) =>
      let url := String c s in
      if negb (Ytdl.validateURL ytdl url) then
        (status_json 400
           (Failure [("error", JStr "Invalid YouTube URL");
                     ("supported_formats",
                      JArr ["https://www.youtube.com/watch?v=VIDEO_ID";
                            "https://youtu.be/VIDEO_ID";
                            "https://www.youtube.com/embed/VIDEO_ID"])]), w)
      else
        match Ytdl.getInfo ytdl url userAgent w with
        | (Js.Throw message, w') =>
            if Js.includes message "Video unavailable" then
              (status_json 404
                 (Failure [("error", JStr "Video not found or unavailable");
                           ("details", JStr "The video may have been removed or made private")]), w')
            else if Js.includes message "Sign in to confirm" then
              (status_json 403
                 (Failure [("error", JStr "Age-restricted content");
                           ("details", JStr "This video is age-restricted and cannot be downloaded")]), w')
            else
              (status_json 500
                 (Failure [("error", JStr "Failed to fetch video information from YouTube");
                           ("details", JStr "YouTube may have changed their API. Please try again later.");
                           ("technical", JStr message)]), w')
        | (Js.Normal videoInfo, w') =>
            let formats := VideoInfo.formats videoInfo in
            if (JsArray.length formats =? 0)%Z then
              (status_json 500
                 (Failure [("error", JStr "No downloadable formats available");
                           ("details", JStr "The video might be live streaming or protected")]), w')
            else
              match formatVideoData videoInfo formats with
              | Js.Normal formattedData => (json (Extracted formattedData), w')
              | Js.Throw message =>
                  (status_json 500
                     (Failure [("error", JStr "Internal server error");
                               ("details", JStr "An unexpected error occurred");
                               ("message", JStr message)]), w')
              end
        end
  | _ =>
      (status_json 400
         (Failure [("error", JStr "URL parameter is required");
                   ("example", JStr "/extract?url=https://www.youtube.com/watch?v=VIDEO_ID")]), w)
  end.

(** [parseInt(limit)], where [limit] is [req.query.limit] or, when that is
    [undefined], the number 10. *)
Definition parsedLimit (limit : option string) : Js.Number :=
  match limit with
  | Some s => Js.parseInt s
  | None => Js.Num 10
  end.

(** [GET /search]. *)
Definition search (q limit : option string) (w : W) : Response * W :=
  match q with
  | Some (String c s) =>
      let q := String c s in
      match ytSearch q w with
      | (Js.Normal searchResults, w') =>
          let videos :=
            map searchResult
              (Js.slice0 (SearchResults.videos searchResults) (parsedLimit limit)) in
          (json (Found q videos (Some (JsArray.length videos))), w')
      | (Js.Throw message, w') =>
          (status_json 500
             (Failure [("error", JStr "Search failed"); ("details", JStr message)]), w')
      end
  | _ =>
      (status_json 400
         (Failure [("error", JStr ("Query parameter " ++ quoted "q" ++ " is required"));
                   ("example", JStr "/search?q=javascript+tutorial&limit=10")]), w)
  end.

(** The body of the loop of [/bulk-extract]: the entry pushed for [url]. *)
Definition bulk_entry (url : string) (w : W) : BulkEntry.t Entry.t * W :=
  if Ytdl.validateURL ytdl url then
    match Ytdl.getInfo ytdl url [] w with
    | (Js.Normal videoInfo, w') =>
        match formatVideoData videoInfo (VideoInfo.formats videoInfo) with
        | Js.Normal formattedData =>
            (BulkEntry.mk url "success" (Some formattedData) None, w')
        | Js.Throw message =>
            (BulkEntry.mk url "error" None (Some message), w')
        end
    | (Js.Throw message, w') =>
        (BulkEntry.mk url "error" None (Some message), w')
    end
  else
    (BulkEntry.mk url "error" None (Some "Invalid YouTube URL"), w).

(** [for (const url of urlArray)], pushing onto [results]. *)
Fixpoint bulk_loop (urlArray : list string) (results : list (BulkEntry.t Entry.t)) (w : W)
  : list (BulkEntry.t Entry.t) * W :=
  match urlArray with
  | [] => (results, w)
  | url :: rest =>
      let (entry, w') := bulk_entry url w in
      bulk_loop rest (results ++ [entry]) w'
  end.

Definition hasStatus (s : string) (r : BulkEntry.t Entry.t) : bool :=
  String.eqb (BulkEntry.status r) s.

(** [GET /bulk-extract]. *)
Definition bulk_extract (urls : option string) (w : W) : Response * W :=
  match urls with
  | Some (String c s) =>
      let urlArray := map Js.trim (Js.split_comma (String c s)) in
      let (results, w') := bulk_loop urlArray [] w in
      (json (Bulk (JsArray.length urlArray)
                  (JsArray.length (filter (hasStatus "success") results))
                  (JsArray.length (filter (hasStatus "error") results))
                  results), w')
  | _ =>
      (status_json 400
         (Failure [("error", JStr "URLs parameter is required");
                   ("example", JStr "/bulk-extract?urls=URL1,URL2,URL3")]), w)
  end.

End Handlers.

End Part000.

(* ================================================================== *)
(** ** [index.js] *)
(* ================================================================== *)

Module Index.

(** An entry of the format lists. *)
Module Entry.
Record t : Type := mk {
  quality : option string;
  url : option string;
  mimeType : option string;
  hasAudio : bool;
  fileSize : option Js.Number;
  container : option string
}.
End Entry.

(** The [map] of the video-only formats and of the combined formats. *)
Definition videoEntry (format : Format.t) : Entry.t :=
  Entry.mk
    (Js.or_else (Format.qualityLabel format) (Format.quality format))
    (Format.url format)
    (Format.mimeType format)
    (Format.hasAudio format)
    (fileSizeOf format)
    (Format.container format).

(** The [map] of the audio formats. *)
Definition audioEntry (format : Format.t) : Entry.t :=
  Entry.mk
    (Some (Js.or_default (Format.audioQuality format) "audio"))
    (Format.url format)
    (Format.mimeType format)
    true
    (fileSizeOf format)
    (Format.container format).

Definition isVideoOnly (format : Format.t) : bool :=
  Format.hasVideo format && negb (Format.hasAudio format).

Definition isAudio (format : Format.t) : bool :=
  negb (Format.hasVideo format) && Format.hasAudio format.

Definition isCombined (format : Format.t) : bool :=
  Format.hasVideo format && Format.hasAudio format.

Definition videoFormats (formats : list Format.t) : list Entry.t :=
  map videoEntry (filter isVideoOnly formats).

Definition audioFormats (formats : list Format.t) : list Entry.t :=
  map audioEntry (filter isAudio formats).

Definition combinedFormats (formats : list Format.t) : list Entry.t :=
  map videoEntry (filter isCombined formats).

(** [[...videoFormats, ...combinedFormats]]. *)
Definition videoList (formats : list Format.t) : list Entry.t :=
  videoFormats formats ++ combinedFormats formats.

(** [f.container === token]. *)
Definition hasContainer (token : string) (f : Entry.t) : bool :=
  Js.strict_eq (Entry.container f) token.

(** [f.container === 'mp4' || f.mimeType.includes('audio/mp4')]: the
    call on a missing [mimeType] throws. *)
Definition isMp3 (f : Entry.t) : Js.completion bool :=
  if Js.strict_eq (Entry.container f) "mp4" then Js.Normal true
  else match Entry.mimeType f with
       | Some m => Js.Normal (Js.includes m "audio/mp4")
       | None => Js.Throw (TypeError_undefined "includes")
       end.

(** [l.filter(p)] for a callback that may throw. *)
Fixpoint filterM {A} (p : A -> Js.completion bool) (l : list A) : Js.completion (list A) :=
  match l with
  | [] => Js.Normal []
  | x :: l' =>
      keep <- p x ;;
      rest <- filterM p l' ;;
      Js.Normal (if keep then x :: rest else rest)
  end.

Definition formatVideoData (videoInfo : VideoInfo.t) (formats : list Format.t)
  : Js.completion (Classified.t Entry.t) :=
  let videoFormats := videoFormats formats in
  let audioFormats := audioFormats formats in
  let combinedFormats := combinedFormats formats in
  let details := VideoInfo.videoDetails videoInfo in
  last <- last_thumbnail details ;;
  image <- match last with
           | Some t => Js.Normal (Thumbnail.url t)
           | None => Js.Throw (TypeError_undefined "url")
           end ;;
  author <- match VideoDetails.author details with
            | Some a => Js.Normal (Author.name a)
            | None => Js.Throw (TypeError_undefined "name")
            end ;;
  mp3 <- filterM isMp3 audioFormats ;;
  Js.Normal
    (Classified.mk
       (VideoDetails.title details)
       image
       (VideoDetails.description details)
       (VideoDetails.lengthSeconds details)
       author
       None
       None
       (filter (hasContainer "mp4") (videoFormats ++ combinedFormats))
       (filter (hasContainer "webm") (videoFormats ++ combinedFormats))
       mp3
       (filter (hasContainer "webm") audioFormats)).

Definition Response : Type := Response.t Entry.t.

Section Handlers.

Variable W : Type.
Variable ytdl : Ytdl.t W.
Variable ytSearch : YtSearch W.

(** The [catch] of [/extract]. *)
Definition extract_catch (message : string) : Response :=
  if Js.includes message "Video unavailable" then
    status_json 404 (Failure [("error", JStr "Video not found or unavailable")])
  else
    status_json 500
      (Failure [("error", JStr "Failed to extract video information");
                ("details", JStr message)]).

(** [GET /extract]. *)
Definition extract (url : option string) (w : W) : Response * W :=
  match url with
  | Some (String c s) =>
      let url := String c s in
      if negb (Ytdl.validateURL ytdl url) then
        (status_json 400 (Failure [("error", JStr "Invalid YouTube URL")]), w)
      else
        match Ytdl.getInfo ytdl url [] w with
        | (Js.Normal videoInfo, w') =>
            match formatVideoData videoInfo (VideoInfo.formats videoInfo) with
            | Js.Normal formattedData => (json (Extracted formattedData), w')
            | Js.Throw message => (extract_catch message, w')
            end
        | (Js.Throw message, w') => (extract_catch message, w')
        end
  | _ =>
      (status_json 400
         (Failure [("error", JStr "URL parameter is required");
                   ("example", JStr "/extract?url=https://www.youtube.com/watch?v=VIDEO_ID")]), w)
  end.

(** [GET /search]. *)
Definition search (q : option string) (w : W) : Response * W :=
  match q with
  | Some (String c s) =>
      let q := String c s in
      match ytSearch q w with
      | (Js.Normal searchResults, w') =>
          let videos := map searchResult (SearchResults.videos searchResults) in
          (json (Found q videos None), w')
      | (Js.Throw message, w') =>
          (status_json 500
             (Failure [("error", JStr "Search failed"); ("details", JStr message)]), w')
      end
  | _ =>
      (status_json 400
         (Failure [("error", JStr ("Query parameter " ++ quoted "q" ++ " is required"))]), w)
  end.

End Handlers.

End Index.

(* ================================================================== *)
(** ** The vocabulary of the statements *)
(* ================================================================== *)

(** [sub] occurs in [s]. *)
Definition contains (s sub : string) : Prop :=
  exists pre post, s = (pre ++ sub ++ post)%string.

(** A string of decimal digits, and its value. *)
Fixpoint all_digits (s : string) : bool :=
  match s with
  | EmptyString => true
  | String c s' => Js.is_digit c && all_digits s'
  end.

Fixpoint decimal_from (acc : Z) (s : string) : Z :=
  match s with
  | EmptyString => acc
  | String c s' => decimal_from (acc * 10 + (Z.of_N (N_of_ascii c) - 48)) s'
  end.

(** The number that the decimal digits [s] write. *)
Definition decimal (s : string) : Z := decimal_from 0 s.

(** [s] has a match of [<N>p]: a non-empty string of digits and then
    a [p]. *)
Definition has_pattern (s : string) : Prop :=
  exists pre N post,
    s = (pre ++ N ++ "p" ++ post)%string /\ all_digits N = true /\ N <> EmptyString.

(** The last character of [s] is a digit. *)
Definition ends_with_digit (s : string) : Prop :=
  exists a c, s = (a ++ String c EmptyString)%string /\ Js.is_digit c = true.

(** Not increasing in the key. *)
Definition descending {A} (key : A -> Z) (a b : A) : Prop := (key a >= key b)%Z.

(** The entries of one key, in their order. *)
Definition withKey {A} (key : A -> Z) (k : Z) (l : list A) : list A :=
  filter (fun a => (key a =? k)%Z) l.

(** The place of a number in the order of the numbers: its value, and
    2^1024, which is above every double, for the infinity. *)
Definition rank (v : Js.Number) : Z :=
  match v with
  | Js.Num z => z
  | Js.Infinity => Js.two1024
  | Js.NegInfinity => - Js.two1024
  | Js.NaN => 0%Z
  end.

(** The quality number of an entry of the video list, as the sort sees
    it. *)
Definition qualityNum (e : Part000.Entry.t) : Z :=
  rank (Part000.getQualityNum (Part000.Entry.quality e)).

(** The capabilities of a format. *)
Definition audioOnly (format : Format.t) : bool :=
  negb (Format.hasVideo format) && Format.hasAudio format.

Definition noCapability (format : Format.t) : bool :=
  negb (Format.hasVideo format) && negb (Format.hasAudio format).

(** The status and the body of what a handler answers. *)
Definition statusOf {E W} (r : Response.t E * W) : Z := Response.status (fst r).

Definition bodyOf {E W} (r : Response.t E * W) : Body E := Response.body (fst r).

(** The two kinds of entries of [/bulk-extract]. *)
Definition succeeded (r : BulkEntry.t Part000.Entry.t) : Prop :=
  BulkEntry.status r = "success"
  /\ BulkEntry.error r = None /\ exists d, BulkEntry.data r = Some d.

Definition failed (r : BulkEntry.t Part000.Entry.t) : Prop :=
  BulkEntry.status r = "error"
  /\ BulkEntry.data r = None /\ exists message, BulkEntry.error r = Some message.

(* ================================================================== *)
(** ** Sample inputs *)
(* ================================================================== *)

Module Sample.

Definition format (label quality mime container : option string) (video audio : bool)
  : Format.t :=
  Format.mk label quality (if audio then Some "AUDIO_QUALITY_MEDIUM" else None)
    (Some "https://rr1.googlevideo.com/videoplayback") mime video audio
    (Some "1048576") container None.

Definition v1080 : Format.t :=
  format (Some "1080p60") (Some "hd1080") (Some "video/mp4") (Some "mp4") true false.
Definition v720mp4 : Format.t :=
  format (Some "720p") (Some "hd720") (Some "video/mp4") (Some "mp4") true false.
Definition v720webm : Format.t :=
  format (Some "720p") (Some "hd720") (Some "video/webm") (Some "webm") true false.
Definition combined360 : Format.t :=
  format (Some "360p") (Some "medium") (Some "video/mp4") (Some "mp4") true true.
Definition audioMp4 : Format.t :=
  format None (Some "tiny") (Some "audio/mp4") (Some "mp4") false true.
Definition audioWebm : Format.t :=
  format None (Some "tiny") (Some "audio/webm") (Some "webm") false true.

(** A format with neither capability. *)
Definition noStream : Format.t :=
  format None (Some "tiny") (Some "text/vtt") (Some "vtt") false false.

(** A video format whose container is missing and whose mime type names
    mp4. *)
Definition videoMimeOnly : Format.t :=
  format (Some "480p") (Some "large") (Some "video/mp4") None true false.

(** An audio format whose mime type has [mp4] but not [audio/mp4]. *)
Definition audioMimeOnly : Format.t :=
  format None (Some "tiny") (Some "application/mp4") None false true.

(** A video format without a quality label, whose [quality] has the
    pattern. *)
Definition noLabel : Format.t :=
  format None (Some "720p") (Some "video/mp4") (Some "mp4") true false.

Definition formats : list Format.t :=
  [combined360; audioWebm; v720mp4; v1080; audioMp4; v720webm].

Definition details : VideoDetails.t :=
  VideoDetails.mk (Some "A title") (Some "A description") (Some "212") (Some "1000")
    (Some (Author.mk (Some "A channel")))
    (Some [Thumbnail.mk (Some "https://i.ytimg.com/vi/x/default.jpg");
           Thumbnail.mk (Some "https://i.ytimg.com/vi/x/maxresdefault.jpg")]).

Definition info : VideoInfo.t := VideoInfo.mk details formats.

(** Metadata without the list of thumbnails, without thumbnails, and
    without the author. *)
Definition noThumbnailList : VideoDetails.t :=
  VideoDetails.mk (Some "A title") (Some "A description") (Some "212") (Some "1000")
    (Some (Author.mk (Some "A channel"))) None.

Definition noThumbnails : VideoDetails.t :=
  VideoDetails.mk (Some "A title") (Some "A description") (Some "212") (Some "1000")
    (Some (Author.mk (Some "A channel"))) (Some []).

Definition noAuthor : VideoDetails.t :=
  VideoDetails.mk (Some "A title") None (Some "212") (Some "1000") None
    (Some [Thumbnail.mk (Some "https://i.ytimg.com/vi/x/default.jpg")]).

End Sample.

(** Collaborators to run the handlers with. The state of the world is the
    list of the URLs asked of the resolver. *)
Module Stub.

Definition rejecting (message : string) : Ytdl.t (list string) :=
  Ytdl.mk _ (fun _ => true) (fun url _ w => (Js.Throw message, w ++ [url])).

Definition resolving (info : VideoInfo.t) : Ytdl.t (list string) :=
  Ytdl.mk _ (fun _ => true) (fun url _ w => (Js.Normal info, w ++ [url])).

(** Valid URLs start with [https://]; a URL with [gone] in it is not
    available. *)
Definition platform : Ytdl.t (list string) :=
  Ytdl.mk _ (fun url => prefix "https://" url)
    (fun url _ w =>
       (if Js.includes url "gone" then Js.Throw "Video unavailable"
        else Js.Normal Sample.info, w ++ [url])).

Definition video (n : Z) : Video.t :=
  Video.mk "LPuWoqQNUuM" "A title" "A description" "3:32" n (Some "1 year ago")
    (Some "https://i.ytimg.com/vi/LPuWoqQNUuM/hq720.jpg") "A channel"
    "https://youtube.com/watch?v=LPuWoqQNUuM".

Definition finding (videos : list Video.t) : YtSearch (list string) :=
  fun q w => (Js.Normal (SearchResults.mk videos), w).

Definition five : list Video.t := [video 1; video 2; video 3; video 4; video 5].

End Stub.

(* ================================================================== *)
(** ** The handler of [/details] *)
(* ================================================================== *)

(** The properties of [videoInfo.videoDetails] that only [/details]
    reads. *)
Module MoreDetails.
Record t : Type := mk {
  publishDate : option string;
  category : option string;
  keywords : option (list string);
  isLiveContent : option bool;
  age_restricted : option bool;
  videoId : option string
}.
End MoreDetails.

(** All that the handlers read of what the resolver gives. *)
Module FullInfo.
Record t : Type := mk {
  info : VideoInfo.t;
  more : MoreDetails.t
}.
End FullInfo.

(** The resolver, with all the properties of its result; [ytdl] is the
    same resolver for the handlers that read the [VideoInfo.t] part
    only. *)
Module Resolver.
Record t (W : Type) : Type := mk {
  validateURL : string -> bool;
  getInfo : string -> list (string * string) -> W -> Js.completion FullInfo.t * W
}.
Arguments validateURL {W}.
Arguments getInfo {W}.

Definition ytdl {W} (r : t W) : Ytdl.t W :=
  Ytdl.mk W (validateURL r)
    (fun url options w =>
       match getInfo r url options w with
       | (Js.Normal full, w') => (Js.Normal (FullInfo.info full), w')
       | (Js.Throw message, w') => (Js.Throw message, w')
       end).
End Resolver.

(** The body of a successful answer of [/details]; the properties that
    a snapshot does not have are [None]. *)
Module DetailsResponse.
Record t : Type := mk {
  title : option string;
  description : option string;
  lengthSeconds : option string;
  author : option string;
  thumbnail : option string;
  viewCount : option string;
  publishDate : option string;
  category : option string;
  keywords : option (list string);
  isLive : option bool;
  isAgeRestricted : option bool;
  videoId : option string
}.
End DetailsResponse.

Inductive DetailsBody : Type :=
| Details (videoDetails : DetailsResponse.t)
| DetailsFailure (properties : list (string * Json)).

Module DetailsAnswer.
Record t : Type := mk {
  status : Z;
  body : DetailsBody
}.
End DetailsAnswer.

(** [videoInfo.videoDetails.author.name]. *)
Definition author_name (d : VideoDetails.t) : Js.completion (option string) :=
  match VideoDetails.author d with
  | Some a => Js.Normal (Author.name a)
  | None => Js.Throw (TypeError_undefined "name")
  end.

(** [videoInfo.videoDetails.thumbnails[...length - 1].url]. *)
Definition last_thumbnail_url (d : VideoDetails.t) : Js.completion (option string) :=
  last <- last_thumbnail d ;;
  match last with
  | Some t => Js.Normal (Thumbnail.url t)
  | None => Js.Throw (TypeError_undefined "url")
  end.

Module Part000Details.

(** The object literal [videoDetails] of the handler. *)
Definition videoDetails (videoInfo : FullInfo.t) : Js.completion DetailsResponse.t :=
  let d := VideoInfo.videoDetails (FullInfo.info videoInfo) in
  let more := FullInfo.more videoInfo in
  author <- author_name d ;;
  thumbnail <- last_thumbnail_url d ;;
  Js.Normal
    (DetailsResponse.mk
       (VideoDetails.title d)
       (VideoDetails.description d)
       (VideoDetails.lengthSeconds d)
       author
       thumbnail
       (VideoDetails.viewCount d)
       (MoreDetails.publishDate more)
       (MoreDetails.category more)
       (MoreDetails.keywords more)
       (MoreDetails.isLiveContent more)
       (MoreDetails.age_restricted more)
       (MoreDetails.videoId more)).

Section Handler.

Variable W : Type.
Variable ytdl : Resolver.t W.

Definition details_catch (message : string) : DetailsAnswer.t :=
  DetailsAnswer.mk 500
    (DetailsFailure [("error", JStr "Failed to get video details");
                     ("details", JStr message)]).

(** [GET /details]. *)
Definition details (url : option string) (w : W) : DetailsAnswer.t * W :=
  match url with
  | Some (String c s) =>
      let url := String c s in
      if negb (Resolver.validateURL ytdl url) then
        (DetailsAnswer.mk 400 (DetailsFailure [("error", JStr "Invalid YouTube URL")]), w)
      else
        match Resolver.getInfo ytdl url [] w with
        | (Js.Normal videoInfo, w') =>
            match videoDetails videoInfo with
            | Js.Normal d => (DetailsAnswer.mk 200 (Details d), w')
            | Js.Throw message => (details_catch message, w')
            end
        | (Js.Throw message, w') => (details_catch message, w')
        end
  | _ =>
      (DetailsAnswer.mk 400 (DetailsFailure [("error", JStr "URL parameter is required")]), w)
  end.

End Handler.

End Part000Details.

Module IndexDetails.

(** The object literal [videoDetails] of the handler: it has neither
    [isAgeRestricted] nor [videoId]. *)
Definition videoDetails (videoInfo : FullInfo.t) : Js.completion DetailsResponse.t :=
  let d := VideoInfo.videoDetails (FullInfo.info videoInfo) in
  let more := FullInfo.more videoInfo in
  author <- author_name d ;;
  thumbnail <- last_thumbnail_url d ;;
  Js.Normal
    (DetailsResponse.mk
       (VideoDetails.title d)
       (VideoDetails.description d)
       (VideoDetails.lengthSeconds d)
       author
       thumbnail
       (VideoDetails.viewCount d)
       (MoreDetails.publishDate more)
       (MoreDetails.category more)
       (MoreDetails.keywords more)
       (MoreDetails.isLiveContent more)
       None
       None).

Section Handler.

Variable W : Type.
Variable ytdl : Resolver.t W.

Definition details_catch (message : string) : DetailsAnswer.t :=
  DetailsAnswer.mk 500
    (DetailsFailure [("error", JStr "Failed to get video details");
                     ("details", JStr message)]).

(** [GET /details]. *)
Definition details (url : option string) (w : W) : DetailsAnswer.t * W :=
  match url with
  | Some (String c s) =>
      let url := String c s in
      if negb (Resolver.validateURL ytdl url) then
        (DetailsAnswer.mk 400 (DetailsFailure [("error", JStr "Invalid YouTube URL")]), w)
      else
        match Resolver.getInfo ytdl url [] w with
        | (Js.Normal videoInfo, w') =>
            match videoDetails videoInfo with
            | Js.Normal d => (DetailsAnswer.mk 200 (Details d), w')
            | Js.Throw message => (details_catch message, w')
            end
        | (Js.Throw message, w') => (details_catch message, w')
        end
  | _ =>
      (DetailsAnswer.mk 400 (DetailsFailure [("error", JStr "URL parameter is required")]), w)
  end.

End Handler.

End IndexDetails.

(* ================================================================== *)
(** ** More vocabulary *)
(* ================================================================== *)

(** A resolver that also writes down the URLs it is asked to resolve. *)
Definition logged {W} (y : Ytdl.t W) : Ytdl.t (W * list string) :=
  Ytdl.mk _ (Ytdl.validateURL y)
    (fun url options wl =>
       match Ytdl.getInfo y url options (fst wl) with
       | (c, w') => (c, (w', snd wl ++ [url]))
       end).

(** The number of commas of a string. *)
Fixpoint commas (s : string) : nat :=
  match s with
  | EmptyString => 0
  | String c s' => (if Ascii.eqb c ","%char then 1 else 0) + commas s'
  end.

(** The last element of a list. *)
Definition last_of {A} (l : list A) : option A :=
  match rev l with
  | x :: _ => Some x
  | [] => None
  end.

(** [made_of f p l]: each element is [f x] for an [x] of [l] with
    [p x]. *)
Definition made_of {A B} (f : A -> B) (p : A -> bool) (l : list A) (e : B) : Prop :=
  exists x, In x l /\ p x = true /\ e = f x.

(** What [index.js] answers to [/details], from what the 2.0.0
    snapshot answers. *)
Definition without_added (d : DetailsResponse.t) : DetailsResponse.t :=
  DetailsResponse.mk
    (DetailsResponse.title d) (DetailsResponse.description d)
    (DetailsResponse.lengthSeconds d) (DetailsResponse.author d)
    (DetailsResponse.thumbnail d) (DetailsResponse.viewCount d)
    (DetailsResponse.publishDate d) (DetailsResponse.category d)
    (DetailsResponse.keywords d) (DetailsResponse.isLive d) None None.

(** What the entry of a URL of [/bulk-extract] is: it has the URL; for
    a URL that is not valid it is the error [Invalid YouTube URL]; only
    a valid URL has a success. *)
Definition entry_of {W} (ytdl : Ytdl.t W) (url : string)
           (r : BulkEntry.t Part000.Entry.t) : Prop :=
  BulkEntry.url r = url
  /\ (Ytdl.validateURL ytdl url = false ->
      BulkEntry.status r = "error" /\ BulkEntry.data r = None
      /\ BulkEntry.error r = Some "Invalid YouTube URL")
  /\ (BulkEntry.status r = "success" -> Ytdl.validateURL ytdl url = true).

(** [s] has a white space character at its front, at its end. *)
Definition starts_with_space (s : string) : Prop :=
  exists w rest, In w Js.white_space /\ s = (w ++ rest)%string.

Definition ends_with_space (s : string) : Prop :=
  exists w rest, In w Js.white_space /\ s = (rest ++ w)%string.

(** [run_of ws s]: [s] is made of strings of [ws], one after the other. *)
Inductive run_of (ws : list string) : string -> Prop :=
| run_nil : run_of ws EmptyString
| run_cons (w rest : string) :
    In w ws -> run_of ws rest -> run_of ws (w ++ rest)%string.

(** [s] is made of white space characters only. *)
Definition spaces (s : string) : Prop := run_of Js.white_space s.


(** [trimmed_of piece url]: [url] is [piece] without the white space
    around it: what is left out at each end is white space only, and
    [url] has no white space character at its front or at its end. *)
Definition trimmed_of (piece url : string) : Prop :=
  ~ starts_with_space url
  /\ ~ ends_with_space url
  /\ exists pre post,
      piece = (pre ++ url ++ post)%string /\ spaces pre /\ spaces post.



Definition answer_without_added (a : DetailsAnswer.t) : DetailsAnswer.t :=
  DetailsAnswer.mk (DetailsAnswer.status a)
    (match DetailsAnswer.body a with
     | Details d => Details (without_added d)
     | DetailsFailure properties => DetailsFailure properties
     end).

(** For the examples of quality numbers that are not doubles: [n] digits
    9 before [rest], and a video format with a given quality label. *)
Fixpoint nines (n : nat) (rest : string) : string :=
  match n with
  | O => rest
  | S n' => String "9"%char (nines n' rest)
  end.

Definition labelled (label : string) : Format.t :=
  Sample.format (Some label) (Some "hd1080") (Some "video/mp4") (Some "mp4") true false.

(** The statuses of the answers of [/extract]. *)
Definition Part000_statuses : list Z := [200; 400; 403; 404; 500]%Z.

Definition Index_statuses : list Z := [200; 400; 404; 500]%Z.

(** A resolver with all the properties, for the examples. *)
Definition fullResolving (full : FullInfo.t) : Resolver.t (list string) :=
  Resolver.mk _ (fun _ => true) (fun url _ w => (Js.Normal full, w ++ [url])).

Definition fullRejecting (message : string) : Resolver.t (list string) :=
  Resolver.mk _ (fun _ => true) (fun url _ w => (Js.Throw message, w ++ [url])).

Definition sampleMore : MoreDetails.t :=
  MoreDetails.mk (Some "2020-01-01") (Some "Music") (Some ["a"; "b"]) (Some false)
    (Some false) (Some "LPuWoqQNUuM").

(* ================================================================== *)
(** ** Strings: what [includes] decides *)
(* ================================================================== *)

Lemma prefix_append (a s : string) :
  prefix a s = true <-> exists post, s = (a ++ post)%string.
Proof.
  revert s; induction a as [|c a IH]; intros s; simpl.
  - destruct s; split; eauto.
  - destruct s as [|c' s]; simpl.
    + split; [discriminate | intros [post H]; discriminate].
    + destruct (ascii_dec c c') as [->|Hne].
      * rewrite IH. split; intros [post H]; exists post; congruence.
      * split; [discriminate | intros [post H]; congruence].
Qed.

Lemma includes_contains (s sub : string) :
  Js.includes s sub = true <-> contains s sub.
Proof.
  induction s as [|c s IH]; cbn [Js.includes].
  - rewrite orb_false_r, prefix_append. split.
    + intros [post H]. exists EmptyString, post. exact H.
    + intros [pre [post H]]. destruct pre; simpl in H.
      * eauto.
      * discriminate.
  - rewrite orb_true_iff, prefix_append, IH. split.
    + intros [[post H] | [pre [post H]]].
      * exists EmptyString, post. exact H.
      * exists (String c pre), post. simpl. now rewrite H.
    + intros [pre [post H]]. destruct pre as [|c' pre]; simpl in H.
      * left. eauto.
      * right. exists pre, post. congruence.
Qed.

Lemma strict_eq_spec (x : option string) (lit : string) :
  Js.strict_eq x lit = true <-> x = Some lit.
Proof.
  destruct x as [s|]; simpl.
  - rewrite String.eqb_eq. split; congruence.
  - split; discriminate.
Qed.

Lemma opt_includes_spec (x : option string) (sub : string) :
  Js.opt_includes x sub = true <-> exists m, x = Some m /\ contains m sub.
Proof.
  destruct x as [m|]; simpl.
  - rewrite includes_contains. split.
    + eauto.
    + intros [m' [E H]]. now inversion E.
  - split; [discriminate | intros [m [E _]]; discriminate].
Qed.

(* ================================================================== *)
(** ** The sort of the video formats *)
(* ================================================================== *)

Section SortByKey.

Variable A : Type.
Variable key : A -> Z.
Variable comparefn : A -> A -> Js.Number.
Hypothesis comparefn_key :
  forall x y, Js.positive (Js.SortCompare comparefn x y) = (key x <? key y)%Z.

Lemma insert_perm (x : A) (l : list A) :
  Permutation (Js.insert comparefn x l) (x :: l).
Proof.
  induction l as [|y l IH]; simpl.
  - reflexivity.
  - destruct (Js.positive _).
    + rewrite IH. apply perm_swap.
    + reflexivity.
Qed.

Lemma sort_perm (l : list A) : Permutation (Js.sort comparefn l) l.
Proof.
  induction l as [|x l IH]; simpl.
  - reflexivity.
  - rewrite insert_perm. now constructor.
Qed.

Lemma insert_sorted (x : A) (l : list A) :
  StronglySorted (descending key) l ->
  StronglySorted (descending key) (Js.insert comparefn x l).
Proof.
  induction 1 as [|y l Hl IH Hy]; simpl.
  - repeat constructor.
  - rewrite comparefn_key.
    destruct (Z.ltb_spec (key x) (key y)) as [Hgt|Hle].
    + constructor; [exact IH|].
      eapply Permutation_Forall; [symmetry; apply insert_perm|].
      constructor; [unfold descending; lia | exact Hy].
    + constructor; [now constructor|].
      constructor; [unfold descending; lia|].
      eapply Forall_impl; [|exact Hy]. unfold descending. intros; lia.
Qed.

Lemma sort_sorted (l : list A) : StronglySorted (descending key) (Js.sort comparefn l).
Proof.
  induction l as [|x l IH]; simpl.
  - constructor.
  - now apply insert_sorted.
Qed.

Lemma insert_withKey (k : Z) (x : A) (l : list A) :
  StronglySorted (descending key) l ->
  withKey key k (Js.insert comparefn x l) = withKey key k (x :: l).
Proof.
  induction 1 as [|y l Hl IH Hy]; simpl.
  - reflexivity.
  - rewrite comparefn_key.
    destruct (Z.ltb_spec (key x) (key y)) as [Hgt|Hle].
    + simpl. fold (withKey key k (Js.insert comparefn x l)). rewrite IH. simpl.
      destruct (Z.eqb_spec (key y) k), (Z.eqb_spec (key x) k); try reflexivity.
      lia.
    + reflexivity.
Qed.

Lemma sort_withKey (k : Z) (l : list A) :
  withKey key k (Js.sort comparefn l) = withKey key k l.
Proof.
  induction l as [|x l IH]; simpl.
  - reflexivity.
  - rewrite insert_withKey by apply sort_sorted.
    simpl. fold (withKey key k (Js.sort comparefn l)). now rewrite IH.
Qed.

End SortByKey.

(* ================================================================== *)
(** ** The regular expression and [parseInt] on its capture group *)
(* ================================================================== *)

Lemma sapp_assoc (a b c : string) : ((a ++ b) ++ c)%string = (a ++ (b ++ c))%string.
Proof. induction a as [|h a IH]; simpl; congruence. Qed.

Lemma sapp_nil_r (a : string) : (a ++ EmptyString)%string = a.
Proof. induction a as [|h a IH]; simpl; congruence. Qed.

Lemma sapp_eq_app (a b c d : string) :
  (a ++ b)%string = (c ++ d)%string ->
  exists x, (a = (c ++ x)%string /\ d = (x ++ b)%string)
         \/ (c = (a ++ x)%string /\ b = (x ++ d)%string).
Proof.
  revert c; induction a as [|h a IH]; intros c H; simpl in H.
  - exists c. right. split; [reflexivity | exact H].
  - destruct c as [|h' c]; simpl in H.
    + exists (String h a). left. split; [reflexivity | now rewrite <- H].
    + injection H as -> H. destruct (IH _ H) as [x [[E1 E2] | [E1 E2]]];
        exists x; [left | right]; simpl; split; congruence.
Qed.

Lemma digit_facts (c : ascii) :
  Js.is_digit c = true ->
  Ascii.eqb c "p"%char = false
  /\ Js.digit_value c = Some (Z.of_N (N_of_ascii c) - 48)%Z
  /\ (Z.of_N (N_of_ascii c) - 48 <? 10)%Z = true
  /\ (0 <= Z.of_N (N_of_ascii c) - 48)%Z
  /\ forall s, Js.strip_one Js.white_space (String c s) = None
            /\ prefix "-" (String c s) = false
            /\ prefix "+" (String c s) = false
            /\ (all_digits s = true ->
                prefix "0x" (String c s) = false /\ prefix "0X" (String c s) = false).
Proof.
  destruct c as [[] [] [] [] [] [] [] []]; intros H; try discriminate H;
    (repeat split; try reflexivity; try (simpl; lia);
     destruct s as [|c' s]; try reflexivity;
     simpl in *; apply andb_true_iff in H0; destruct H0 as [Hc' _];
     destruct c' as [[] [] [] [] [] [] [] []]; try discriminate Hc'; reflexivity).
Qed.

Lemma get_lt_run (s : string) (j : nat) :
  j < Js.digit_run s -> exists c, get j s = Some c /\ Js.is_digit c = true.
Proof.
  revert j; induction s as [|h s IH]; intros j Hj; simpl in Hj.
  - lia.
  - destruct (Js.is_digit h) eqn:Hh; [|lia].
    destruct j as [|j]; simpl.
    + eauto.
    + apply IH. lia.
Qed.

Lemma match_here_lt (j : nat) (s : string) :
  j < Js.digit_run s -> Js.match_here j s = None.
Proof.
  induction j as [|j IH]; intros Hj; simpl.
  - reflexivity.
  - destruct (get_lt_run s (S j) Hj) as [c [-> Hc]].
    destruct (digit_facts c Hc) as [-> _]. apply IH. lia.
Qed.

Lemma run_app (r t : string) :
  all_digits r = true ->
  Js.digit_run (r ++ t) = String.length r + Js.digit_run t.
Proof.
  induction r as [|h r IH]; simpl; intros H.
  - reflexivity.
  - apply andb_true_iff in H as [-> H]. now rewrite IH.
Qed.

Lemma get_app_length (r t : string) :
  get (String.length r) (r ++ t) = get 0 t.
Proof. induction r as [|h r IH]; simpl; auto. Qed.

Lemma substring_app_length (r t : string) :
  substring 0 (String.length r) (r ++ t) = r.
Proof.
  induction r as [|h r IH]; simpl.
  - now destruct t.
  - now rewrite IH.
Qed.

Lemma run_decompose (s : string) :
  exists r t, s = (r ++ t)%string /\ all_digits r = true /\ Js.digit_run t = 0.
Proof.
  induction s as [|h s [r [t [E [Hr Ht]]]]].
  - exists EmptyString, EmptyString. auto.
  - destruct (Js.is_digit h) eqn:Hh.
    + exists (String h r), t. simpl. rewrite Hh, Hr, E. auto.
    + exists EmptyString, (String h s). simpl. rewrite Hh. auto.
Qed.

(** A match at the front: the whole run of digits, when a [p] follows
    it. *)
Lemma match_front (r t : string) :
  all_digits r = true -> Js.digit_run t = 0 ->
  Js.match_here (Js.digit_run (r ++ t)) (r ++ t) =
  match r, t with
  | String _ _, String c _ => if Ascii.eqb c "p"%char then Some r else None
  | _, _ => None
  end.
Proof.
  intros Hr Ht. rewrite (run_app r t Hr), Ht, Nat.add_0_r.
  destruct r as [|h r].
  - reflexivity.
  - remember (String h r) as r0 eqn:Er0.
    assert (El : String.length r0 = S (String.length r)) by now subst.
    rewrite El. cbn [Js.match_here]. rewrite <- El.
    rewrite get_app_length, substring_app_length.
    assert (Hlt : Js.match_here (String.length r) (r0 ++ t) = None).
    { apply match_here_lt. rewrite (run_app r0 t Hr). lia. }
    rewrite Hlt. subst r0. destruct t as [|c t]; simpl; [reflexivity|].
    now destruct (Ascii.eqb c "p"%char).
Qed.

Lemma match_digits_p_eq (s : string) :
  Js.match_digits_p s =
  match Js.match_here (Js.digit_run s) s with
  | Some d => Some d
  | None => match s with
            | EmptyString => None
            | String _ s' => Js.match_digits_p s'
            end
  end.
Proof. destruct s; reflexivity. Qed.

(** What a match captures. *)
Lemma match_sound (s d : string) :
  Js.match_digits_p s = Some d ->
  all_digits d = true /\ d <> EmptyString
  /\ exists pre post, s = (pre ++ d ++ "p" ++ post)%string.
Proof.
  induction s as [|h s IH]; rewrite match_digits_p_eq.
  - discriminate.
  - destruct (run_decompose (String h s)) as [r [t [E [Hr Ht]]]].
    rewrite E at 1 2. rewrite (match_front r t Hr Ht).
    destruct r as [|h' r].
    + intros H. destruct (IH H) as [Hd [Hne [pre [post Es]]]].
      repeat split; auto. exists (String h pre), post. simpl. now rewrite Es.
    + destruct t as [|c t].
      * intros H. destruct (IH H) as [Hd [Hne [pre [post Es]]]].
        repeat split; auto. exists (String h pre), post. simpl. now rewrite Es.
      * destruct (Ascii.eqb_spec c "p"%char) as [->|Hc].
        -- intros H. injection H as <-. repeat split; auto; [discriminate|].
           exists EmptyString, t. exact E.
        -- intros H. destruct (IH H) as [Hd [Hne [pre [post Es]]]].
           repeat split; auto. exists (String h pre), post. simpl. now rewrite Es.
Qed.

Lemma no_pattern_no_match (s : string) :
  ~ has_pattern s -> Js.match_digits_p s = None.
Proof.
  intros H. destruct (Js.match_digits_p s) as [d|] eqn:E; [|reflexivity].
  exfalso. apply H. destruct (match_sound s d E) as [Hd [Hne [pre [post Es]]]].
  exists pre, d, post. auto.
Qed.

Lemma all_digits_app (a b : string) :
  all_digits (a ++ b) = all_digits a && all_digits b.
Proof.
  induction a as [|h a IH]; simpl.
  - reflexivity.
  - now rewrite IH, andb_assoc.
Qed.

Lemma last_char (s : string) :
  s <> EmptyString -> exists a c, s = (a ++ String c EmptyString)%string.
Proof.
  induction s as [|h s IH]; intros H.
  - congruence.
  - destruct s as [|h' s].
    + exists EmptyString, h. reflexivity.
    + destruct IH as [a [c E]]; [discriminate|].
      exists (String h a), c. simpl. now rewrite E.
Qed.

(** A non-empty prefix of a string of digits ends with a digit. *)
Lemma digits_prefix_ends (pre y : string) :
  pre <> EmptyString -> all_digits (pre ++ y) = true -> ends_with_digit pre.
Proof.
  intros Hne H. destruct (last_char pre Hne) as [a [c E]].
  exists a, c. split; [exact E|].
  rewrite E, all_digits_app in H. apply andb_true_iff in H as [H _].
  rewrite all_digits_app in H. apply andb_true_iff in H as [_ H].
  simpl in H. now apply andb_true_iff in H as [H _].
Qed.

(** The leftmost match wins: after a prefix that has no match and that
    does not end with a digit, the digits [N] before the [p] are what is
    captured. *)
Lemma match_first (pre N rest : string) :
  ~ has_pattern pre -> ~ ends_with_digit pre ->
  all_digits N = true -> N <> EmptyString ->
  Js.match_digits_p (pre ++ N ++ "p" ++ rest) = Some N.
Proof.
  intros Hpat Hend HN Hne.
  induction pre as [|h pre IH].
  - rewrite match_digits_p_eq. cbn [append].
    change (N ++ String "p" rest)%string with (N ++ (String "p" rest))%string.
    rewrite (match_front N (String "p" rest) HN eq_refl).
    destruct N; [congruence | reflexivity].
  - rewrite match_digits_p_eq.
    set (s := (String h pre ++ N ++ "p" ++ rest)%string).
    destruct (run_decompose s) as [r [t [E [Hr Ht]]]].
    assert (Hnone : Js.match_here (Js.digit_run s) s = None).
    { rewrite E, (match_front r t Hr Ht).
      destruct r as [|h' r]; [reflexivity|].
      destruct t as [|c t]; [reflexivity|].
      destruct (Ascii.eqb_spec c "p"%char) as [->|Hc]; [|reflexivity].
      exfalso. unfold s in E.
      destruct (sapp_eq_app _ _ _ _ E) as [x [[E1 E2] | [E1 E2]]].
      - (* the prefix goes beyond the run of digits and its p *)
        destruct x as [|c x].
        + rewrite sapp_nil_r in E1. apply Hend.
          apply (digits_prefix_ends _ EmptyString); [discriminate|].
          now rewrite sapp_nil_r, E1.
        + simpl in E2. injection E2 as <- E2.
          apply Hpat. exists EmptyString, (String h' r), x.
          split; [|split; [exact Hr|discriminate]].
          rewrite E1. reflexivity.
      - (* the prefix is inside the run of digits *)
        apply Hend. apply (digits_prefix_ends _ x); [discriminate|].
        now rewrite <- E1. }
    rewrite Hnone. unfold s. cbn [append]. apply IH.
    + intros [a [d [b [E' [Hd Hd']]]]]. apply Hpat.
      exists (String h a), d, b. simpl. rewrite E'. auto.
    + intros [a [c [E' Hc]]]. apply Hend.
      exists (String h a), c. simpl. rewrite E'. auto.
Qed.

Lemma parse_digits_some (s : string) (a : Z) :
  all_digits s = true ->
  Js.parse_digits 10 s (Some a) = Some (decimal_from a s).
Proof.
  revert a; induction s as [|c s IH]; intros a H; simpl.
  - reflexivity.
  - simpl in H. apply andb_true_iff in H as [Hc Hs].
    destruct (digit_facts c Hc) as [_ [-> [-> _]]]. now apply IH.
Qed.

(** [parseInt] of a non-empty string of digits is the number value of
    what the digits write. *)
Lemma parseInt_digits (s : string) :
  all_digits s = true -> s <> EmptyString -> Js.parseInt s = Js.toNumber (decimal s).
Proof.
  intros H Hne. destruct s as [|c s]; [congruence|].
  simpl in H. apply andb_true_iff in H as [Hc Hs].
  destruct (digit_facts c Hc) as [_ [Hv [Hlt [_ Hstr]]]].
  destruct (Hstr s) as [Hws [Hm [Hp Hx]]]. destruct (Hx Hs) as [Hx1 Hx2].
  unfold Js.parseInt, Js.trimStart. cbn [String.length Js.strip_fuel].
  rewrite Hws. cbv zeta. rewrite Hm, Hp. cbn [orb]. rewrite Hx1, Hx2. cbn [orb].
  cbn [Js.parse_digits]. rewrite Hv, Hlt, (parse_digits_some s _ Hs).
  unfold decimal. cbn [decimal_from]. now rewrite Z.mul_1_l.
Qed.

(** *** Doubles *)

Lemma two53_lt_two1024 : (0 < Js.two53 < Js.two1024)%Z.
Proof.
  change Js.two53 with (2 ^ 53)%Z. unfold Js.two1024. split.
  - now apply Z.pow_pos_nonneg.
  - apply Z.pow_lt_mono_r; lia.
Qed.

Lemma nearest_nonneg (z : Z) : (0 <= z)%Z -> (0 <= Js.nearest z)%Z.
Proof.
  intros Hz. unfold Js.nearest.
  destruct (Z.ltb_spec z Js.two53) as [_|Hge]; [exact Hz|].
  set (e := (Z.log2 z - 52)%Z). cbv zeta.
  assert (Hq : (0 <= z / 2 ^ e)%Z) by (apply Z.div_pos; [lia | apply Z.pow_pos_nonneg; lia || (unfold e; pose proof two53_lt_two1024; assert (53 <= Z.log2 z)%Z by (apply Z.log2_le_pow2; [lia | exact Hge]); lia)]).
  assert (Hp : (0 <= 2 ^ e)%Z) by (apply Z.pow_nonneg; lia).
  destruct (_ || _); nia.
Qed.

Lemma nearest_pos (z : Z) : (0 < z)%Z -> (0 < Js.nearest z)%Z.
Proof.
  intros Hz. unfold Js.nearest.
  destruct (Z.ltb_spec z Js.two53) as [_|Hge]; [exact Hz|].
  set (e := (Z.log2 z - 52)%Z). cbv zeta.
  assert (He : (0 <= e <= Z.log2 z)%Z).
  { assert (53 <= Z.log2 z)%Z by (apply Z.log2_le_pow2; [lia | exact Hge]).
    unfold e. lia. }
  assert (Hp : (0 < 2 ^ e)%Z) by (apply Z.pow_pos_nonneg; lia).
  assert (Hle : (2 ^ e <= z)%Z).
  { transitivity (2 ^ Z.log2 z)%Z; [apply Z.pow_le_mono_r; lia|].
    now apply Z.log2_spec. }
  assert (Hq : (0 < z / 2 ^ e)%Z) by (apply Z.div_str_pos; lia).
  destruct (_ || _); nia.
Qed.

(** From 2^53 on, [nearest z] has 53 significant bits, and it is within
    half a unit of the last of them from [z]. *)
Lemma nearest_spec (z : Z) :
  (Js.two53 <= z)%Z ->
  (exists m, Js.nearest z = m * 2 ^ (Z.log2 z - 52) /\ 2 ^ 52 <= m <= 2 ^ 53)%Z
  /\ (2 * Z.abs (Js.nearest z - z) <= 2 ^ (Z.log2 z - 52))%Z.
Proof.
  intros Hz. unfold Js.nearest.
  destruct (Z.ltb_spec z Js.two53) as [H|_]; [lia|].
  assert (Hpos : (0 < z)%Z) by (unfold Js.two53 in Hz; lia).
  assert (Hl : (53 <= Z.log2 z)%Z).
  { change 53%Z with (Z.log2 Js.two53). now apply Z.log2_le_mono. }
  destruct (Z.log2_spec z Hpos) as [Hlo Hhi].
  set (e := (Z.log2 z - 52)%Z) in *.
  assert (He : (1 <= e)%Z) by (unfold e; lia).
  assert (E2 : (2 ^ e = 2 * 2 ^ (e - 1))%Z).
  { replace e with (Z.succ (e - 1)) at 1 by lia. apply Z.pow_succ_r. lia. }
  assert (Hp : (0 < 2 ^ (e - 1))%Z) by (apply Z.pow_pos_nonneg; lia).
  assert (El : (2 ^ Z.log2 z = 2 ^ 52 * 2 ^ e)%Z).
  { rewrite <- Z.pow_add_r by lia. f_equal. unfold e. lia. }
  assert (Es : (2 ^ Z.succ (Z.log2 z) = 2 ^ 53 * 2 ^ e)%Z).
  { rewrite <- Z.pow_add_r by lia. f_equal. unfold e. lia. }
  pose proof (Z.div_mod z (2 ^ e) ltac:(lia)) as Hdm.
  pose proof (Z.mod_pos_bound z (2 ^ e) ltac:(lia)) as Hr.
  set (q := (z / 2 ^ e)%Z) in *. set (r := (z mod 2 ^ e)%Z) in *.
  assert (Hq : (2 ^ 52 <= q < 2 ^ 53)%Z).
  { split.
    - apply Z.div_le_lower_bound; lia.
    - apply Z.div_lt_upper_bound; lia. }
  cbv zeta.
  destruct ((2 ^ (e - 1) <? r)%Z || ((r =? 2 ^ (e - 1))%Z && Z.odd q)) eqn:Eb.
  - assert (Hge : (2 ^ (e - 1) <= r)%Z).
    { apply orb_true_iff in Eb as [Eb|Eb].
      - apply Z.ltb_lt in Eb. lia.
      - apply andb_true_iff in Eb as [Eb _]. apply Z.eqb_eq in Eb. lia. }
    split; [exists (q + 1)%Z; split; [reflexivity | lia]|].
    rewrite Hdm. nia.
  - assert (Hle : (r <= 2 ^ (e - 1))%Z).
    { apply orb_false_iff in Eb as [Eb _]. apply Z.ltb_ge in Eb. exact Eb. }
    split; [exists q; split; [reflexivity | lia]|].
    rewrite Hdm. nia.
Qed.

(** Below 2^53 the number value of an integer is the integer. *)
Lemma toNumber_exact (z : Z) :
  (Z.abs z < Js.two53)%Z -> Js.toNumber z = Js.Num z.
Proof.
  intros Hz. unfold Js.toNumber.
  destruct (Z.ltb_spec (Z.abs z) Js.two53) as [_|Hge]; [reflexivity | lia].
Qed.

Lemma toNumber_nonneg (z : Z) :
  (0 <= z)%Z ->
  (exists v, Js.toNumber z = Js.Num v /\ (0 <= v < Js.two1024)%Z)
  \/ Js.toNumber z = Js.Infinity.
Proof.
  intros Hz. unfold Js.toNumber. pose proof two53_lt_two1024 as Ht.
  pose proof (nearest_nonneg (Z.abs z) (Z.abs_nonneg z)) as Hn.
  destruct (Z.ltb_spec (Z.abs z) Js.two53) as [Hs|_].
  { left. exists z. split; [reflexivity | lia]. }
  destruct (Z.leb_spec Js.two1024 (Js.nearest (Z.abs z))) as [Hbig|Hsmall].
  - right. destruct (Z.ltb_spec z 0); [lia | reflexivity].
  - left. eexists. split; [reflexivity|].
    destruct (Z.sgn_spec z) as [[H1 ->] | [[H1 ->] | [H1 ->]]]; lia.
Qed.

Lemma toNumber_positive (z : Z) : Js.positive (Js.toNumber z) = (0 <? z)%Z.
Proof.
  unfold Js.toNumber. pose proof two53_lt_two1024 as Ht.
  destruct (Z.ltb_spec (Z.abs z) Js.two53) as [Hs|Hl]; [reflexivity|].
  destruct (Z.leb_spec Js.two1024 (Js.nearest (Z.abs z))) as [Hbig|Hsmall].
  - destruct (Z.ltb_spec z 0) as [Hneg|Hpos]; simpl.
    + symmetry. apply Z.ltb_ge. lia.
    + symmetry. apply Z.ltb_lt. lia.
  - cbn [Js.positive].
    destruct (Z.ltb_spec 0 z) as [Hpos|Hle].
    + apply Z.ltb_lt. pose proof (nearest_pos (Z.abs z)).
      rewrite Z.sgn_pos by lia. lia.
    + apply Z.ltb_ge.
      pose proof (nearest_nonneg (Z.abs z) (Z.abs_nonneg z)).
      destruct (Z.eq_dec z 0) as [->|Hne]; [simpl; lia|].
      rewrite Z.sgn_neg by lia. lia.
Qed.

Lemma positive_SortCompare {A} (comparefn : A -> A -> Js.Number) (x y : A) :
  Js.positive (Js.SortCompare comparefn x y) = Js.positive (comparefn x y).
Proof. unfold Js.SortCompare. now destruct (comparefn x y). Qed.

Lemma decimal_from_nonneg (s : string) (a : Z) :
  all_digits s = true -> (0 <= a)%Z -> (0 <= decimal_from a s)%Z.
Proof.
  revert a; induction s as [|c s IH]; intros a H Ha; simpl.
  - exact Ha.
  - simpl in H. apply andb_true_iff in H as [Hc Hs].
    destruct (digit_facts c Hc) as [_ [_ [_ [Hd _]]]]. apply IH; [exact Hs | lia].
Qed.

(* ================================================================== *)
(** ** The classifier *)
(* ================================================================== *)

(** The quality number is a double that is not negative, or the
    infinity. *)
Lemma getQualityNum_cases (q : string) :
  (exists z, Part000.getQualityNum q = Js.Num z /\ (0 <= z < Js.two1024)%Z)
  \/ Part000.getQualityNum q = Js.Infinity.
Proof.
  unfold Part000.getQualityNum.
  destruct (Js.match_digits_p q) as [d|] eqn:E.
  - destruct (match_sound q d E) as [Hd [Hne _]].
    rewrite (parseInt_digits d Hd Hne). apply toNumber_nonneg.
    now apply decimal_from_nonneg.
  - left. exists 0%Z. split; [reflexivity|]. pose proof two53_lt_two1024. lia.
Qed.

(** The comparator puts [a] after [b] exactly when the quality number
    of [b] is the greater. *)
Lemma comparefn_qualityNum (a b : Part000.Entry.t) :
  Js.positive (Js.SortCompare Part000.comparefn a b) = (qualityNum a <? qualityNum b)%Z.
Proof.
  rewrite positive_SortCompare. unfold Part000.comparefn, qualityNum.
  destruct (getQualityNum_cases (Part000.Entry.quality a)) as [[x [-> Hx]] | ->];
    destruct (getQualityNum_cases (Part000.Entry.quality b)) as [[y [-> Hy]] | ->];
    cbn [Js.sub rank Js.positive].
  - rewrite toNumber_positive. destruct (Z.ltb_spec 0 (y - x)), (Z.ltb_spec x y); lia.
  - symmetry. apply Z.ltb_lt. lia.
  - symmetry. apply Z.ltb_ge. lia.
  - symmetry. apply Z.ltb_irrefl.
Qed.

Lemma videoFormats_perm (formats : list Format.t) :
  Permutation (Part000.videoFormats formats)
              (map Part000.videoEntry (filter Format.hasVideo formats)).
Proof.
  unfold Part000.videoFormats.
  apply sort_perm.
Qed.

Lemma filter_split_perm {A} (p q r : A -> bool) (l : list A) :
  (forall x, r x = p x || q x) -> (forall x, p x && q x = false) ->
  Permutation (filter p l ++ filter q l) (filter r l).
Proof.
  intros Hr Hpq. induction l as [|x l IH]; simpl.
  - constructor.
  - rewrite Hr. specialize (Hpq x).
    destruct (p x), (q x); simpl in *; try discriminate.
    + now constructor.
    + rewrite <- IH. symmetry. apply Permutation_middle.
    + exact IH.
Qed.

Lemma videoList_perm (formats : list Format.t) :
  Permutation (Index.videoList formats)
              (map Index.videoEntry (filter Format.hasVideo formats)).
Proof.
  unfold Index.videoList, Index.videoFormats, Index.combinedFormats.
  rewrite <- map_app. apply Permutation_map, filter_split_perm.
  - intros x. unfold Index.isVideoOnly, Index.isCombined.
    now destruct (Format.hasVideo x), (Format.hasAudio x).
  - intros x. unfold Index.isVideoOnly, Index.isCombined.
    now destruct (Format.hasVideo x), (Format.hasAudio x).
Qed.

Lemma capability_count (formats : list Format.t) :
  List.length (filter Format.hasVideo formats)
  + List.length (filter audioOnly formats)
  + List.length (filter noCapability formats)
  = List.length formats.
Proof.
  induction formats as [|f l IH]; simpl.
  - reflexivity.
  - unfold audioOnly, noCapability.
    destruct (Format.hasVideo f), (Format.hasAudio f); simpl;
      fold audioOnly noCapability; lia.
Qed.

Lemma filterM_In {A} (p : A -> Js.completion bool) (l r : list A) :
  Index.filterM p l = Js.Normal r ->
  forall e, In e r <-> In e l /\ p e = Js.Normal true.
Proof.
  revert r; induction l as [|x l IH]; intros r H e; simpl in H.
  - injection H as <-. simpl. tauto.
  - destruct (p x) as [keep|] eqn:Hx; simpl in H; [|discriminate].
    destruct (Index.filterM p l) as [rest|]; simpl in H; [|discriminate].
    injection H as <-. specialize (IH rest eq_refl e).
    destruct keep; simpl; rewrite IH.
    + split.
      * intros [<- | [H1 H2]]; auto.
      * intros [[<- | H1] H2]; auto.
    + split.
      * intros [H1 H2]; auto.
      * intros [[<- | H1] H2]; [congruence | auto].
Qed.

(** What a normal completion of the classifier holds. *)
Lemma Part000_formatVideoData_Normal vi formats d :
  Part000.formatVideoData vi formats = Js.Normal d ->
  exists thumbs,
    VideoDetails.thumbnails (VideoInfo.videoDetails vi) = Some thumbs
    /\ Classified.video_mp4 d = filter (Part000.inGroup "mp4") (Part000.videoFormats formats)
    /\ Classified.video_webm d = filter (Part000.inGroup "webm") (Part000.videoFormats formats)
    /\ Classified.audio_mp3 d = filter (Part000.inGroup "mp4") (Part000.audioFormats formats)
    /\ Classified.audio_webm d = filter (Part000.inGroup "webm") (Part000.audioFormats formats)
    /\ Classified.expiresInSeconds d = Some "21540".
Proof.
  unfold Part000.formatVideoData, last_thumbnail.
  destruct (VideoDetails.thumbnails (VideoInfo.videoDetails vi)) as [thumbs|];
    simpl; [|discriminate].
  intros H. injection H as <-. exists thumbs. simpl. auto 10.
Qed.

Lemma Index_formatVideoData_Normal vi formats d :
  Index.formatVideoData vi formats = Js.Normal d ->
  Index.filterM Index.isMp3 (Index.audioFormats formats)
    = Js.Normal (Classified.audio_mp3 d)
  /\ Classified.video_mp4 d = filter (Index.hasContainer "mp4") (Index.videoList formats)
  /\ Classified.video_webm d = filter (Index.hasContainer "webm") (Index.videoList formats)
  /\ Classified.audio_webm d = filter (Index.hasContainer "webm") (Index.audioFormats formats)
  /\ Classified.expiresInSeconds d = None.
Proof.
  unfold Index.formatVideoData.
  destruct (last_thumbnail _) as [[t|]|]; simpl; try discriminate.
  destruct (VideoDetails.author _); simpl; [|discriminate].
  destruct (Index.filterM _ _) as [mp3|]; simpl; [|discriminate].
  intros H. injection H as <-. simpl. auto.
Qed.

Lemma inGroup_spec (token : string) (e : Part000.Entry.t) :
  Part000.inGroup token e = true <->
  Part000.Entry.container e = Some token
  \/ exists m, Part000.Entry.mimeType e = Some m /\ contains m token.
Proof.
  unfold Part000.inGroup.
  now rewrite orb_true_iff, strict_eq_spec, opt_includes_spec.
Qed.

Lemma isMp3_spec (e : Index.Entry.t) :
  Index.isMp3 e = Js.Normal true <->
  Index.Entry.container e = Some "mp4"
  \/ exists m, Index.Entry.mimeType e = Some m /\ contains m "audio/mp4".
Proof.
  unfold Index.isMp3.
  destruct (Js.strict_eq (Index.Entry.container e) "mp4") eqn:Hc.
  - apply strict_eq_spec in Hc. tauto.
  - assert (Hn : Index.Entry.container e <> Some "mp4").
    { intros H. apply strict_eq_spec in H. congruence. }
    destruct (Index.Entry.mimeType e) as [m|].
    + split.
      * intros H. injection H as H. apply includes_contains in H. eauto.
      * intros [H | [m' [E H]]]; [contradiction|].
        injection E as <-. apply includes_contains in H. now rewrite H.
    + split; [discriminate|]. intros [H | [m' [E H]]]; [contradiction | discriminate].
Qed.

(* ================================================================== *)
(** ** The claims about the classifier *)
(* ================================================================== *)

(** C1, as amended. In both snapshots the video list is made of the
    formats with [hasVideo] (the combined formats are among them) and the
    audio list of the formats with [hasAudio] and without [hasVideo]; the
    formats with neither capability are in neither list, and the three
    kinds together are all the formats. *)
Theorem classification_by_capability (formats : list Format.t) :
  Permutation (Part000.videoFormats formats)
              (map Part000.videoEntry (filter Format.hasVideo formats))
  /\ Part000.audioFormats formats = map Part000.audioEntry (filter audioOnly formats)
  /\ Permutation (Index.videoList formats)
                 (map Index.videoEntry (filter Format.hasVideo formats))
  /\ Index.audioFormats formats = map Index.audioEntry (filter audioOnly formats)
  /\ List.length (Part000.videoFormats formats)
     + List.length (Part000.audioFormats formats)
     + List.length (filter noCapability formats) = List.length formats
  /\ List.length (Index.videoList formats)
     + List.length (Index.audioFormats formats)
     + List.length (filter noCapability formats) = List.length formats.
Proof.
  assert (Ha : forall f, Part000.isAudio f = audioOnly f).
  { intros f. unfold Part000.isAudio, audioOnly. apply andb_comm. }
  assert (E1 : Part000.audioFormats formats
               = map Part000.audioEntry (filter audioOnly formats)).
  { unfold Part000.audioFormats. f_equal. apply filter_ext, Ha. }
  assert (E2 : Index.audioFormats formats
               = map Index.audioEntry (filter audioOnly formats)) by reflexivity.
  pose proof (videoFormats_perm formats) as P1.
  pose proof (videoList_perm formats) as P2.
  pose proof (capability_count formats) as Hc.
  repeat split; auto.
  - rewrite (Permutation_length P1), E1, !length_map. exact Hc.
  - rewrite (Permutation_length P2), E2, !length_map. exact Hc.
Qed.

(** C1 as it is stated fails: a format with neither capability is left
    out of both lists, in both snapshots. *)
Lemma no_capability_left_out :
  In Sample.noStream [Sample.noStream]
  /\ Part000.videoFormats [Sample.noStream] = []
  /\ Part000.audioFormats [Sample.noStream] = []
  /\ Index.videoList [Sample.noStream] = []
  /\ Index.audioFormats [Sample.noStream] = [].
Proof. repeat split. now left. Qed.

(** C2, as amended. In the 2.0.0 snapshot an entry of the video list is in
    the mp4 group exactly when its container is [mp4] or its mime type
    contains [mp4], and likewise for webm; in [index.js] the container
    alone decides. An entry that matches neither token is in no group. *)
Theorem video_groups_by_container :
  (forall vi formats d,
      Part000.formatVideoData vi formats = Js.Normal d ->
      forall e,
        (In e (Classified.video_mp4 d) <->
         In e (Part000.videoFormats formats)
         /\ (Part000.Entry.container e = Some "mp4"
             \/ exists m, Part000.Entry.mimeType e = Some m /\ contains m "mp4"))
        /\ (In e (Classified.video_webm d) <->
            In e (Part000.videoFormats formats)
            /\ (Part000.Entry.container e = Some "webm"
                \/ exists m, Part000.Entry.mimeType e = Some m /\ contains m "webm")))
  /\ (forall vi formats d,
         Index.formatVideoData vi formats = Js.Normal d ->
         forall e,
           (In e (Classified.video_mp4 d) <->
            In e (Index.videoList formats) /\ Index.Entry.container e = Some "mp4")
           /\ (In e (Classified.video_webm d) <->
               In e (Index.videoList formats) /\ Index.Entry.container e = Some "webm")).
Proof.
  split; intros vi formats d H e.
  - destruct (Part000_formatVideoData_Normal _ _ _ H) as [thumbs [_ [-> [-> _]]]].
    now rewrite !filter_In, !inGroup_spec.
  - destruct (Index_formatVideoData_Normal _ _ _ H) as [_ [-> [-> _]]].
    unfold Index.hasContainer. now rewrite !filter_In, !strict_eq_spec.
Qed.

Lemma video_groups_by_container_witness :
  (exists d, Part000.formatVideoData Sample.info Sample.formats = Js.Normal d
             /\ In (Part000.videoEntry Sample.v720webm) (Classified.video_webm d))
  /\ (exists d, Index.formatVideoData Sample.info Sample.formats = Js.Normal d
                /\ In (Index.videoEntry Sample.v720webm) (Classified.video_webm d)).
Proof.
  split; eexists; (split; [reflexivity|]).
  - apply (proj1 video_groups_by_container Sample.info Sample.formats _ eq_refl).
    split; [vm_compute; tauto | left; reflexivity].
  - apply (proj2 video_groups_by_container Sample.info Sample.formats _ eq_refl).
    split; [vm_compute; tauto | reflexivity].
Defined.

(** C2 as it is stated fails on [index.js]: a video format whose mime
    type contains [mp4] and whose container is not [mp4] is in no group. *)
Lemma index_video_ignores_mime_type :
  exists d,
    Index.formatVideoData Sample.info [Sample.videoMimeOnly] = Js.Normal d
    /\ In (Index.videoEntry Sample.videoMimeOnly) (Index.videoList [Sample.videoMimeOnly])
    /\ (exists m, Index.Entry.mimeType (Index.videoEntry Sample.videoMimeOnly) = Some m
                  /\ contains m "mp4")
    /\ Classified.video_mp4 d = []
    /\ Classified.video_webm d = [].
Proof.
  eexists. split; [reflexivity|]. repeat split.
  - now left.
  - eexists. split; [reflexivity|]. now apply includes_contains.
Qed.

(** C3, as amended. In the 2.0.0 snapshot the audio entries are grouped
    as the video entries are: the group [mp3] holds the audio entries
    whose container is [mp4] or whose mime type contains [mp4], the group
    [webm] those with [webm]. In [index.js] the group [mp3] holds the
    audio entries whose container is [mp4] or whose mime type contains
    [audio/mp4], and the group [webm] those whose container is [webm]. *)
Theorem audio_groups_by_container :
  (forall vi formats d,
      Part000.formatVideoData vi formats = Js.Normal d ->
      forall e,
        (In e (Classified.audio_mp3 d) <->
         In e (Part000.audioFormats formats)
         /\ (Part000.Entry.container e = Some "mp4"
             \/ exists m, Part000.Entry.mimeType e = Some m /\ contains m "mp4"))
        /\ (In e (Classified.audio_webm d) <->
            In e (Part000.audioFormats formats)
            /\ (Part000.Entry.container e = Some "webm"
                \/ exists m, Part000.Entry.mimeType e = Some m /\ contains m "webm")))
  /\ (forall vi formats d,
         Index.formatVideoData vi formats = Js.Normal d ->
         forall e,
           (In e (Classified.audio_mp3 d) <->
            In e (Index.audioFormats formats)
            /\ (Index.Entry.container e = Some "mp4"
                \/ exists m, Index.Entry.mimeType e = Some m /\ contains m "audio/mp4"))
           /\ (In e (Classified.audio_webm d) <->
               In e (Index.audioFormats formats) /\ Index.Entry.container e = Some "webm")).
Proof.
  split; intros vi formats d H e.
  - destruct (Part000_formatVideoData_Normal _ _ _ H) as [thumbs [_ [_ [_ [-> [-> _]]]]]].
    now rewrite !filter_In, !inGroup_spec.
  - destruct (Index_formatVideoData_Normal _ _ _ H) as [Hmp3 [_ [_ [-> _]]]].
    rewrite (filterM_In _ _ _ Hmp3), isMp3_spec.
    unfold Index.hasContainer. now rewrite filter_In, strict_eq_spec.
Qed.

Lemma audio_groups_by_container_witness :
  (exists d, Part000.formatVideoData Sample.info Sample.formats = Js.Normal d
             /\ In (Part000.audioEntry Sample.audioMp4) (Classified.audio_mp3 d))
  /\ (exists d, Index.formatVideoData Sample.info Sample.formats = Js.Normal d
                /\ In (Index.audioEntry Sample.audioMp4) (Classified.audio_mp3 d)).
Proof.
  split; eexists; (split; [reflexivity|]).
  - apply (proj1 audio_groups_by_container Sample.info Sample.formats _ eq_refl).
    split; [vm_compute; tauto | left; reflexivity].
  - apply (proj2 audio_groups_by_container Sample.info Sample.formats _ eq_refl).
    split; [vm_compute; tauto | left; reflexivity].
Defined.

(** C3 as it is stated fails on [index.js]: an audio format whose mime
    type contains [mp4], but not [audio/mp4], is not in the group [mp3]. *)
Lemma index_mp3_wants_audio_mp4 :
  exists d,
    Index.formatVideoData Sample.info [Sample.audioMimeOnly] = Js.Normal d
    /\ In (Index.audioEntry Sample.audioMimeOnly) (Index.audioFormats [Sample.audioMimeOnly])
    /\ (exists m, Index.Entry.mimeType (Index.audioEntry Sample.audioMimeOnly) = Some m
                  /\ contains m "mp4")
    /\ Classified.audio_mp3 d = [].
Proof.
  eexists. split; [reflexivity|]. repeat split.
  - now left.
  - eexists. split; [reflexivity|]. now apply includes_contains.
Qed.

Lemma quality_of_label (format : Format.t) (label : string) :
  label <> EmptyString ->
  Format.qualityLabel format = Some label ->
  Part000.Entry.quality (Part000.videoEntry format) = label.
Proof.
  intros Hne E. unfold Part000.videoEntry, Js.or_else. cbn [Part000.Entry.quality].
  rewrite E. destruct label; [congruence | reflexivity].
Qed.

Lemma pattern_not_empty (pre N rest : string) :
  N <> EmptyString -> (pre ++ N ++ "p" ++ rest)%string <> EmptyString.
Proof.
  intros Hne H. destruct pre; [|discriminate]. destruct N; [congruence | discriminate].
Qed.

(** C4, as amended. The number is extracted from the entry's [quality]:
    the quality label or, when the label is missing or empty, the
    format's [quality], or else the word [unknown]. For a label whose
    leftmost [<N>p] has the digits [N] the number is the number value of
    [N]: [N] itself when [N] is below 2^53, and otherwise the double
    nearest to [N] (the infinity from 2^1024 on); when the entry's
    [quality] has no [<N>p] the number is 0, and so it is when both the
    label and [quality] are missing. *)
Theorem quality_number_extracted :
  (forall format pre N rest,
      all_digits N = true -> N <> EmptyString ->
      ~ has_pattern pre -> ~ ends_with_digit pre ->
      Format.qualityLabel format = Some (pre ++ N ++ "p" ++ rest)%string ->
      Part000.getQualityNum (Part000.Entry.quality (Part000.videoEntry format))
      = Js.toNumber (decimal N)
      /\ ((decimal N < 2 ^ 53)%Z ->
          Part000.getQualityNum (Part000.Entry.quality (Part000.videoEntry format))
          = Js.Num (decimal N)))
  /\ (forall format,
         ~ has_pattern (Part000.Entry.quality (Part000.videoEntry format)) ->
         Part000.getQualityNum (Part000.Entry.quality (Part000.videoEntry format))
         = Js.Num 0)
  /\ (forall format,
         Part000.Entry.quality (Part000.videoEntry format) =
         match Format.qualityLabel format with
         | Some (String c s) => String c s
         | _ => match Format.quality format with
                | Some (String c s) => String c s
                | _ => "unknown"
                end
         end)
  /\ (forall format,
         Js.truthy (Format.qualityLabel format) = false ->
         Js.truthy (Format.quality format) = false ->
         Part000.getQualityNum (Part000.Entry.quality (Part000.videoEntry format))
         = Js.Num 0).
Proof.
  assert (Hq : forall format,
             Part000.Entry.quality (Part000.videoEntry format) =
             match Format.qualityLabel format with
             | Some (String c s) => String c s
             | _ => match Format.quality format with
                    | Some (String c s) => String c s
                    | _ => "unknown"
                    end
             end).
  { intros format. unfold Part000.videoEntry, Js.or_else. cbn [Part000.Entry.quality].
    destruct (Format.qualityLabel format) as [[|c s]|]; reflexivity. }
  split; [|split; [|split]].
  - intros format pre N rest HN Hne Hpat Hend E.
    rewrite (quality_of_label format _ (pattern_not_empty pre N rest Hne) E).
    unfold Part000.getQualityNum. rewrite (match_first pre N rest Hpat Hend HN Hne).
    rewrite (parseInt_digits N HN Hne). split; [reflexivity|].
    intros Hsmall. apply toNumber_exact.
    pose proof (decimal_from_nonneg N 0 HN (Z.le_refl 0)) as Hpos.
    fold (decimal N) in Hpos. change Js.two53 with (2 ^ 53)%Z. lia.
  - intros format H. unfold Part000.getQualityNum.
    now rewrite (no_pattern_no_match _ H).
  - exact Hq.
  - intros format Hl Hq'. rewrite Hq.
    destruct (Format.qualityLabel format) as [[|c s]|];
      destruct (Format.quality format) as [[|c' s']|]; try discriminate; reflexivity.
Qed.

Lemma empty_no_pattern : ~ has_pattern EmptyString.
Proof.
  intros [pre [N [post [E [_ Hne]]]]].
  destruct pre; [|discriminate]. destruct N; [congruence | discriminate].
Qed.

Lemma empty_no_digit : ~ ends_with_digit EmptyString.
Proof. intros [a [c [E _]]]. destruct a; discriminate. Qed.

(** The expression finds a match wherever there is one. *)
Lemma pattern_match (s : string) :
  has_pattern s -> exists d, Js.match_digits_p s = Some d.
Proof.
  intros [pre [N [post [-> [HN Hne]]]]]. induction pre as [|h pre IH].
  - exists N. now apply (match_first EmptyString N post empty_no_pattern empty_no_digit).
  - rewrite match_digits_p_eq. destruct (Js.match_here _ _) as [d|].
    + now exists d.
    + exact IH.
Qed.

Lemma no_match_no_pattern (s : string) :
  Js.match_digits_p s = None -> ~ has_pattern s.
Proof. intros H Hp. destruct (pattern_match s Hp) as [d E]. congruence. Qed.

Lemma quality_number_extracted_witness :
  Part000.getQualityNum (Part000.Entry.quality (Part000.videoEntry Sample.v1080))
  = Js.Num 1080
  /\ Part000.getQualityNum
       (Part000.Entry.quality
          (Part000.videoEntry (Sample.format (Some "high") None None None true false)))
     = Js.Num 0
  /\ Part000.getQualityNum
       (Part000.Entry.quality
          (Part000.videoEntry (Sample.format None None None None true false)))
     = Js.Num 0.
Proof.
  split; [|split].
  - assert (Hne : "1080" <> EmptyString) by discriminate.
    apply (proj2 (proj1 quality_number_extracted Sample.v1080 EmptyString "1080" "60"
                    eq_refl Hne empty_no_pattern empty_no_digit eq_refl)).
    reflexivity.
  - apply (proj1 (proj2 quality_number_extracted)).
    apply no_match_no_pattern. reflexivity.
  - apply (proj2 (proj2 (proj2 quality_number_extracted))); reflexivity.
Defined.

(** C4 as it is stated fails: without a quality label the number is
    taken from the format's [quality], and is not 0 when that has the
    pattern. *)
Lemma missing_label_falls_back_to_quality :
  Format.qualityLabel Sample.noLabel = None
  /\ Part000.getQualityNum (Part000.Entry.quality (Part000.videoEntry Sample.noLabel))
     = Js.Num 720.
Proof. split; reflexivity. Qed.

(** C5, as amended. In the 2.0.0 snapshot the video list is sorted by
    the quality number, highest first, entries of equal number next to
    each other in the order of the input (the sort is stable; it is not
    strict). The quality number of an entry is the number that
    [getQualityNum] gives for its [quality], a double: two labels that
    round to the same double have equal numbers, and the infinity is
    above every other. [index.js] does not sort: its video list is the
    video-only entries and then the combined ones, each in the order of
    the input. *)
Theorem video_list_sorted (formats : list Format.t) :
  StronglySorted (descending qualityNum) (Part000.videoFormats formats)
  /\ (forall k,
         withKey qualityNum k (Part000.videoFormats formats)
         = withKey qualityNum k (map Part000.videoEntry (filter Format.hasVideo formats)))
  /\ Permutation (Part000.videoFormats formats)
                 (map Part000.videoEntry (filter Format.hasVideo formats))
  /\ (forall e,
         (Part000.getQualityNum (Part000.Entry.quality e) = Js.Num (qualityNum e)
          /\ (0 <= qualityNum e < 2 ^ 1024)%Z)
         \/ (Part000.getQualityNum (Part000.Entry.quality e) = Js.Infinity
             /\ qualityNum e = (2 ^ 1024)%Z))
  /\ (forall a b,
         (qualityNum a < qualityNum b)%Z
         <-> Js.positive (Js.SortCompare Part000.comparefn a b) = true)
  /\ Index.videoList formats
     = map Index.videoEntry (filter Index.isVideoOnly formats)
       ++ map Index.videoEntry (filter Index.isCombined formats).
Proof.
  split; [|split; [|split; [|split; [|split]]]].
  - apply sort_sorted, comparefn_qualityNum.
  - intros k. apply sort_withKey, comparefn_qualityNum.
  - apply videoFormats_perm.
  - intros e. unfold qualityNum. change (2 ^ 1024)%Z with Js.two1024.
    destruct (getQualityNum_cases (Part000.Entry.quality e)) as [[z [-> Hz]] | ->].
    + left. split; [reflexivity | exact Hz].
    + right. split; reflexivity.
  - intros a b. rewrite comparefn_qualityNum. symmetry. apply Z.ltb_lt.
  - reflexivity.
Qed.

(** C5 as it is stated fails: two formats of the same quality are next
    to each other in the video list, and neither number is greater. *)
Lemma equal_quality_is_not_strict :
  Part000.videoFormats [Sample.v720mp4; Sample.v720webm]
  = [Part000.videoEntry Sample.v720mp4; Part000.videoEntry Sample.v720webm]
  /\ qualityNum (Part000.videoEntry Sample.v720mp4) = 720%Z
  /\ qualityNum (Part000.videoEntry Sample.v720webm) = 720%Z
  /\ ~ Sorted (fun a b => (qualityNum a > qualityNum b)%Z)
        (Part000.videoFormats [Sample.v720mp4; Sample.v720webm]).
Proof.
  assert (E : Part000.videoFormats [Sample.v720mp4; Sample.v720webm]
              = [Part000.videoEntry Sample.v720mp4; Part000.videoEntry Sample.v720webm])
    by reflexivity.
  assert (E1 : qualityNum (Part000.videoEntry Sample.v720mp4) = 720%Z) by reflexivity.
  assert (E2 : qualityNum (Part000.videoEntry Sample.v720webm) = 720%Z) by reflexivity.
  repeat split; try assumption.
  intros H. rewrite E in H. inversion H as [|a l Hl Hd]; subst.
  inversion Hd as [|b l' Hgt]; subst. rewrite E1, E2 in Hgt. lia.
Qed.

(** What the 2.0.0 classifier does for missing metadata: with a list of
    thumbnails, even an empty one, it completes; the image of an empty
    list is left out, a missing author is [Unknown], and a missing
    description is left out. *)
Lemma Part000_defaults vi formats thumbs :
  VideoDetails.thumbnails (VideoInfo.videoDetails vi) = Some thumbs ->
  exists d,
    Part000.formatVideoData vi formats = Js.Normal d
    /\ (thumbs = [] -> Classified.image d = None)
    /\ (VideoDetails.author (VideoInfo.videoDetails vi) = None ->
        Classified.author d = Some "Unknown")
    /\ Classified.description d = VideoDetails.description (VideoInfo.videoDetails vi).
Proof.
  intros E. unfold Part000.formatVideoData, last_thumbnail. rewrite E. simpl.
  eexists. split; [reflexivity|]. simpl. repeat split.
  - intros ->. reflexivity.
  - intros ->. reflexivity.
Qed.

(** C6: the classifier raises. In the 2.0.0 snapshot it reads the
    [length] of the list of thumbnails before the guarded [?.url], and
    raises when the list is missing; [index.js] has no guard, and raises
    for an empty list of thumbnails and for a missing author. *)
Theorem classifier_raises_on_missing_metadata :
  Part000.formatVideoData (VideoInfo.mk Sample.noThumbnailList Sample.formats) Sample.formats
  = Js.Throw "Cannot read properties of undefined (reading 'length')"
  /\ Index.formatVideoData (VideoInfo.mk Sample.noThumbnails Sample.formats) Sample.formats
     = Js.Throw "Cannot read properties of undefined (reading 'url')"
  /\ Index.formatVideoData (VideoInfo.mk Sample.noAuthor Sample.formats) Sample.formats
     = Js.Throw "Cannot read properties of undefined (reading 'name')".
Proof. repeat split. Qed.

(* ================================================================== *)
(** ** The request handlers *)
(* ================================================================== *)

Section Extract.

Variable W : Type.
Variable ytdl : Ytdl.t W.

(** C7, as amended. In both snapshots a missing (or empty) [url] and a
    [url] that the validator refuses give 400, with no call of the
    resolver. In the 2.0.0 snapshot a rejection whose message contains
    [Video unavailable] gives 404; otherwise one whose message contains
    [Sign in to confirm] gives 403; any other gives 500 with the message;
    an empty list of formats gives 500. In [index.js] a message with
    [Video unavailable] gives 404 and any other 500 with the message;
    there is no 403 and an empty list of formats is classified like any
    other. *)
Theorem extract_status :
  (forall url w, Js.truthy url = false ->
      statusOf (Part000.extract W ytdl url w) = 400%Z
      /\ snd (Part000.extract W ytdl url w) = w)
  /\ (forall c s w, Ytdl.validateURL ytdl (String c s) = false ->
         statusOf (Part000.extract W ytdl (Some (String c s)) w) = 400%Z
         /\ snd (Part000.extract W ytdl (Some (String c s)) w) = w)
  /\ (forall c s w message w',
         Ytdl.validateURL ytdl (String c s) = true ->
         Ytdl.getInfo ytdl (String c s) Part000.userAgent w = (Js.Throw message, w') ->
         let r := Part000.extract W ytdl (Some (String c s)) w in
         (contains message "Video unavailable" -> statusOf r = 404%Z)
         /\ (~ contains message "Video unavailable" ->
             contains message "Sign in to confirm" -> statusOf r = 403%Z)
         /\ (~ contains message "Video unavailable" ->
             ~ contains message "Sign in to confirm" ->
             statusOf r = 500%Z
             /\ exists properties,
                 bodyOf r = Failure (properties ++ [("technical", JStr message)])))
  /\ (forall c s w info w',
         Ytdl.validateURL ytdl (String c s) = true ->
         Ytdl.getInfo ytdl (String c s) Part000.userAgent w = (Js.Normal info, w') ->
         VideoInfo.formats info = [] ->
         statusOf (Part000.extract W ytdl (Some (String c s)) w) = 500%Z)
  /\ (forall url w, Js.truthy url = false ->
         statusOf (Index.extract W ytdl url w) = 400%Z
         /\ snd (Index.extract W ytdl url w) = w)
  /\ (forall c s w, Ytdl.validateURL ytdl (String c s) = false ->
         statusOf (Index.extract W ytdl (Some (String c s)) w) = 400%Z
         /\ snd (Index.extract W ytdl (Some (String c s)) w) = w)
  /\ (forall c s w message w',
         Ytdl.validateURL ytdl (String c s) = true ->
         Ytdl.getInfo ytdl (String c s) [] w = (Js.Throw message, w') ->
         let r := Index.extract W ytdl (Some (String c s)) w in
         (contains message "Video unavailable" -> statusOf r = 404%Z)
         /\ (~ contains message "Video unavailable" ->
             statusOf r = 500%Z
             /\ exists properties,
                 bodyOf r = Failure (properties ++ [("details", JStr message)])))
  /\ (forall c s w info w' d,
         Ytdl.validateURL ytdl (String c s) = true ->
         Ytdl.getInfo ytdl (String c s) [] w = (Js.Normal info, w') ->
         Index.formatVideoData info (VideoInfo.formats info) = Js.Normal d ->
         Index.extract W ytdl (Some (String c s)) w = (json (Extracted d), w')).
Proof.
  repeat apply conj.
  - intros [[|c s]|] w H; try discriminate H; split; reflexivity.
  - intros c s w H. unfold Part000.extract. rewrite H. split; reflexivity.
  - intros c s w message w' Hv Hg r. subst r.
    unfold Part000.extract. rewrite Hv, Hg. cbn [negb].
    destruct (Js.includes message "Video unavailable") eqn:E1;
      [|destruct (Js.includes message "Sign in to confirm") eqn:E2];
      repeat apply conj; intros; try reflexivity;
        repeat match goal with
               | H : contains _ _ |- _ => apply includes_contains in H
               | H : ~ contains _ _ |- _ => rewrite <- includes_contains in H
               end; try congruence.
    split; [reflexivity|]. eexists [_; _]. reflexivity.
  - intros c s w info w' Hv Hg Hf.
    unfold Part000.extract. rewrite Hv, Hg, Hf. reflexivity.
  - intros [[|c s]|] w H; try discriminate H; split; reflexivity.
  - intros c s w H. unfold Index.extract. rewrite H. split; reflexivity.
  - intros c s w message w' Hv Hg r. subst r.
    unfold Index.extract, Index.extract_catch. rewrite Hv, Hg. cbn [negb].
    destruct (Js.includes message "Video unavailable") eqn:E1;
      repeat apply conj; intros; try reflexivity;
        repeat match goal with
               | H : contains _ _ |- _ => apply includes_contains in H
               | H : ~ contains _ _ |- _ => rewrite <- includes_contains in H
               end; try congruence.
    split; [reflexivity|]. eexists [_]. reflexivity.
  - intros c s w info w' d Hv Hg Hd.
    unfold Index.extract. rewrite Hv, Hg, Hd. reflexivity.
Qed.

End Extract.

Lemma extract_status_witness :
  statusOf (Part000.extract _ (Stub.rejecting "Video unavailable") None []) = 400%Z
  /\ statusOf (Part000.extract _ Stub.platform (Some "not-a-url") []) = 400%Z
  /\ statusOf (Part000.extract _ (Stub.rejecting "Video unavailable") (Some "u") []) = 404%Z
  /\ statusOf (Part000.extract _ (Stub.rejecting "Sign in to confirm your age") (Some "u") [])
     = 403%Z
  /\ statusOf (Part000.extract _ (Stub.rejecting "Status code: 410") (Some "u") []) = 500%Z
  /\ statusOf (Part000.extract _ (Stub.resolving (VideoInfo.mk Sample.details [])) (Some "u") [])
     = 500%Z
  /\ statusOf (Index.extract _ (Stub.rejecting "Video unavailable") None []) = 400%Z
  /\ statusOf (Index.extract _ Stub.platform (Some "not-a-url") []) = 400%Z
  /\ statusOf (Index.extract _ (Stub.rejecting "Video unavailable") (Some "u") []) = 404%Z
  /\ statusOf (Index.extract _ (Stub.rejecting "Status code: 410") (Some "u") []) = 500%Z
  /\ statusOf (Index.extract _ (Stub.resolving Sample.info) (Some "u") []) = 200%Z.
Proof.
  assert (No : forall m sub, Js.includes m sub = false -> ~ contains m sub).
  { intros m sub H C. apply includes_contains in C. congruence. }
  repeat apply conj.
  - apply (proj1 (extract_status _ (Stub.rejecting "Video unavailable"))). reflexivity.
  - apply (proj1 (proj2 (extract_status _ Stub.platform))). reflexivity.
  - eapply (proj1 (proj2 (proj2 (extract_status _ (Stub.rejecting "Video unavailable"))))).
    + reflexivity.
    + reflexivity.
    + now apply includes_contains.
  - eapply (proj1 (proj2 (proj2
              (extract_status _ (Stub.rejecting "Sign in to confirm your age"))))).
    + reflexivity.
    + reflexivity.
    + now apply No.
    + now apply includes_contains.
  - eapply (proj1 (proj2 (proj2 (extract_status _ (Stub.rejecting "Status code: 410"))))).
    + reflexivity.
    + reflexivity.
    + now apply No.
    + now apply No.
  - eapply (proj1 (proj2 (proj2 (proj2
              (extract_status _ (Stub.resolving (VideoInfo.mk Sample.details []))))))).
    + reflexivity.
    + reflexivity.
    + reflexivity.
  - apply (proj1 (proj2 (proj2 (proj2 (proj2
             (extract_status _ (Stub.rejecting "Video unavailable"))))))). reflexivity.
  - apply (proj1 (proj2 (proj2 (proj2 (proj2 (proj2
             (extract_status _ Stub.platform))))))). reflexivity.
  - eapply (proj1 (proj2 (proj2 (proj2 (proj2 (proj2 (proj2
              (extract_status _ (Stub.rejecting "Video unavailable"))))))))).
    + reflexivity.
    + reflexivity.
    + now apply includes_contains.
  - eapply (proj1 (proj2 (proj2 (proj2 (proj2 (proj2 (proj2
              (extract_status _ (Stub.rejecting "Status code: 410"))))))))).
    + reflexivity.
    + reflexivity.
    + now apply No.
  - erewrite (proj2 (proj2 (proj2 (proj2 (proj2 (proj2 (proj2
                (extract_status _ (Stub.resolving Sample.info))))))))).
    + reflexivity.
    + reflexivity.
    + reflexivity.
    + reflexivity.
Defined.

(** C7 as it is stated fails. In the 2.0.0 snapshot a message with both
    [Video unavailable] and [Sign in to confirm] gives 404, not 403. In
    [index.js] a message with [Sign in to confirm] gives 500, and an
    empty list of formats gives 200. *)
Lemma extract_status_differs :
  (contains "Video unavailable. Sign in to confirm your age" "Sign in to confirm"
   /\ statusOf (Part000.extract _
                  (Stub.rejecting "Video unavailable. Sign in to confirm your age")
                  (Some "https://youtu.be/x") []) = 404%Z)
  /\ (contains "Sign in to confirm your age" "Sign in to confirm"
      /\ statusOf (Index.extract _ (Stub.rejecting "Sign in to confirm your age")
                     (Some "https://youtu.be/x") []) = 500%Z)
  /\ (VideoInfo.formats (VideoInfo.mk Sample.details []) = []
      /\ statusOf (Index.extract _ (Stub.resolving (VideoInfo.mk Sample.details []))
                     (Some "https://youtu.be/x") []) = 200%Z).
Proof.
  repeat split; now apply includes_contains.
Qed.

Section Search.

Variable W : Type.
Variable ytSearch : YtSearch W.

(** C8, as amended. In the 2.0.0 snapshot, for a limit that [parseInt]
    reads as a number [n] that is not negative (10 when there is no
    limit), the results are made of the first [min n k] of the [k] videos
    of the search client, and [total] is that number. [index.js] has no
    limit and no [total]: the results are made of all the videos. *)
Theorem search_results_limited :
  (forall c s limit w found w' n,
      ytSearch (String c s) w = (Js.Normal found, w') ->
      Part000.parsedLimit limit = Js.Num n -> (0 <= n)%Z ->
      let videos := SearchResults.videos found in
      let m := Z.min n (JsArray.length videos) in
      let results := map searchResult (firstn (Z.to_nat m) videos) in
      Part000.search W ytSearch (Some (String c s)) limit w
      = (json (Found (String c s) results (Some m)), w')
      /\ JsArray.length results = m)
  /\ Part000.parsedLimit None = Js.Num 10
  /\ (forall c s w found w',
         ytSearch (String c s) w = (Js.Normal found, w') ->
         Index.search W ytSearch (Some (String c s)) w
         = (json (Found (String c s) (map searchResult (SearchResults.videos found)) None),
            w')).
Proof.
  repeat apply conj.
  - intros c s limit w found w' n Hs Hn Hpos videos m results.
    assert (Hlen : JsArray.length results = m).
    { unfold results, JsArray.length. rewrite length_map, length_firstn.
      unfold m, JsArray.length. lia. }
    split; [|exact Hlen].
    unfold Part000.search. rewrite Hs. unfold Js.slice0. rewrite Hn.
    destruct (Z.ltb_spec n 0) as [Hneg|_]; [lia|].
    fold videos. fold (JsArray.length videos). fold m. fold results.
    now rewrite Hlen.
  - reflexivity.
  - intros c s w found w' Hs. unfold Index.search. now rewrite Hs.
Qed.

End Search.

Lemma search_results_limited_witness :
  (exists results,
      Part000.search _ (Stub.finding Stub.five) (Some "test") (Some "2") []
      = (json (Found "test" results (Some 2%Z)), [])
      /\ results = map searchResult [Stub.video 1; Stub.video 2])
  /\ (exists results,
         Part000.search _ (Stub.finding Stub.five) (Some "test") None []
         = (json (Found "test" results (Some 5%Z)), [])
         /\ List.length results = 5)
  /\ Index.search _ (Stub.finding Stub.five) (Some "test") []
     = (json (Found "test" (map searchResult Stub.five) None), []).
Proof.
  split; [|split].
  - eexists. split.
    + apply (proj1 (search_results_limited _ (Stub.finding Stub.five))
               "t"%char "est" (Some "2") [] (SearchResults.mk Stub.five) [] 2%Z);
        [reflexivity | reflexivity | lia].
    + reflexivity.
  - eexists. split.
    + apply (proj1 (search_results_limited _ (Stub.finding Stub.five))
               "t"%char "est" None [] (SearchResults.mk Stub.five) [] 10%Z);
        [reflexivity | reflexivity | lia].
    + reflexivity.
  - apply (proj2 (proj2 (search_results_limited _ (Stub.finding Stub.five)))
             "t"%char "est" [] (SearchResults.mk Stub.five) []).
    reflexivity.
Defined.

(** C8 as it is stated fails. In the 2.0.0 snapshot a negative limit
    counts from the back: with the limit -1 and 5 videos there are 4
    results. In [index.js] the limit is not read and there is no
    [total]: 5 videos give 5 results. *)
Lemma search_limit_differs :
  (Part000.parsedLimit (Some "-1") = Js.Num (-1)
   /\ exists results,
       Part000.search _ (Stub.finding Stub.five) (Some "test") (Some "-1") []
       = (json (Found "test" results (Some 4%Z)), [])
       /\ List.length results = 4
       /\ Z.of_nat (List.length results) <> Z.min (-1) 5)
  /\ (exists results,
         Index.search _ (Stub.finding Stub.five) (Some "test") []
         = (json (Found "test" results None), [])
         /\ List.length results = 5
         /\ Z.of_nat (List.length results) <> Z.min 2 5).
Proof.
  split; [split; [reflexivity|]|]; eexists; (split; [reflexivity|]);
    split; [reflexivity | discriminate | reflexivity | discriminate].
Qed.

(* ================================================================== *)
(** ** [split] and [trim]: the URLs of [/bulk-extract] *)
(* ================================================================== *)

Lemma drop_app (a b : string) : Js.drop (String.length a) (a ++ b) = b.
Proof.
  unfold Js.drop. induction a as [|h a IH]; simpl.
  - rewrite Nat.sub_0_r. induction b as [|h b IHb]; simpl; [reflexivity|].
    now rewrite IHb.
  - exact IH.
Qed.

Lemma sapp_length (a b : string) :
  String.length (a ++ b) = String.length a + String.length b.
Proof. induction a as [|h a IH]; simpl; congruence. Qed.

Lemma strip_one_some (ws : list string) (s s' : string) :
  Js.strip_one ws s = Some s' -> exists w, In w ws /\ s = (w ++ s')%string.
Proof.
  induction ws as [|w ws IH]; simpl; [discriminate|].
  destruct (prefix w s) eqn:Hp.
  - intros H. injection H as <-. apply prefix_append in Hp as [post ->].
    exists w. split; [now left|]. now rewrite drop_app.
  - intros H. destruct (IH H) as [w' [Hin E]]. exists w'. split; [now right | exact E].
Qed.

Lemma strip_one_none (ws : list string) (s : string) :
  Js.strip_one ws s = None -> forall w rest, In w ws -> s <> (w ++ rest)%string.
Proof.
  induction ws as [|w ws IH]; simpl; [intros _ w rest []|].
  destruct (prefix w s) eqn:Hp; [discriminate|].
  intros H w' rest [<- | Hin] E.
  - assert (prefix w s = true) by (apply prefix_append; eauto). congruence.
  - exact (IH H w' rest Hin E).
Qed.

Lemma run_of_app (ws : list string) (a b : string) :
  run_of ws a -> run_of ws b -> run_of ws (a ++ b)%string.
Proof.
  intros Ha Hb. induction Ha as [|w rest Hin _ IH]; [exact Hb|].
  rewrite sapp_assoc. now constructor.
Qed.

Lemma run_of_one (ws : list string) (w : string) : In w ws -> run_of ws w.
Proof.
  intros Hin. rewrite <- (sapp_nil_r w). constructor; [exact Hin | constructor].
Qed.

(** With fuel for every character, the stripping ends where there is no
    white space left at the front; what is left is the end of the
    string, and what is stripped is white space only. *)
Lemma strip_fuel_enough (ws : list string) :
  Forall (fun w => w <> EmptyString) ws ->
  forall n s, String.length s <= n ->
              Js.strip_one ws (Js.strip_fuel ws n s) = None
              /\ exists pre, run_of ws pre /\ s = (pre ++ Js.strip_fuel ws n s)%string.
Proof.
  intros Hws. induction n as [|n IH]; intros s Hn; simpl.
  - destruct s; [|simpl in Hn; lia].
    split; [|exists EmptyString; split; [constructor | reflexivity]].
    clear Hn. induction Hws as [|w ws Hw _ IHw]; simpl; [reflexivity|].
    destruct w; [congruence | exact IHw].
  - destruct (Js.strip_one ws s) as [s'|] eqn:E.
    + destruct (strip_one_some _ _ _ E) as [w [Hin ->]].
      assert (Hw : w <> EmptyString) by (exact (proj1 (Forall_forall _ _) Hws w Hin)).
      destruct (IH s') as [H1 [pre [Hr H2]]].
      * rewrite sapp_length in Hn. destruct w; [congruence | simpl in Hn; lia].
      * split; [exact H1|]. exists (w ++ pre)%string. split; [now constructor|].
        now rewrite sapp_assoc, <- H2.
    + split; [exact E | exists EmptyString; split; [constructor | reflexivity]].
Qed.

Lemma white_space_nonempty : Forall (fun w => w <> EmptyString) Js.white_space.
Proof. repeat constructor; discriminate. Qed.

Lemma string_rev_app (a b : string) :
  Js.string_rev (a ++ b) = (Js.string_rev b ++ Js.string_rev a)%string.
Proof.
  unfold Js.string_rev.
  assert (H : forall x y, list_ascii_of_string (x ++ y)
                          = list_ascii_of_string x ++ list_ascii_of_string y).
  { induction x as [|h x IH]; intros y; simpl; [reflexivity | now rewrite IH]. }
  assert (H' : forall x y, string_of_list_ascii (x ++ y)
                           = (string_of_list_ascii x ++ string_of_list_ascii y)%string).
  { induction x as [|h x IH]; intros y; simpl; [reflexivity | now rewrite IH]. }
  now rewrite H, rev_app_distr, H'.
Qed.

Lemma string_rev_involutive (s : string) : Js.string_rev (Js.string_rev s) = s.
Proof.
  unfold Js.string_rev.
  now rewrite list_ascii_of_string_of_list_ascii, rev_involutive,
    string_of_list_ascii_of_string.
Qed.

Lemma string_rev_length (s : string) : String.length (Js.string_rev s) = String.length s.
Proof.
  assert (H : forall l, String.length (string_of_list_ascii l) = List.length l).
  { induction l as [|h l IH]; simpl; congruence. }
  assert (H' : forall x, List.length (list_ascii_of_string x) = String.length x).
  { induction x as [|h x IH]; simpl; congruence. }
  unfold Js.string_rev. now rewrite H, length_rev, H'.
Qed.

Lemma reversed_nonempty :
  Forall (fun w => w <> EmptyString) (map Js.string_rev Js.white_space).
Proof. repeat constructor; discriminate. Qed.

Lemma run_of_rev (ws : list string) (s : string) :
  run_of (map Js.string_rev ws) s -> run_of ws (Js.string_rev s).
Proof.
  intros H. induction H as [|w rest Hin _ IH]; [constructor|].
  rewrite string_rev_app. apply run_of_app; [exact IH|].
  apply in_map_iff in Hin as [v [<- Hv]]. rewrite string_rev_involutive.
  now apply run_of_one.
Qed.

Lemma trimStart_spec (s : string) :
  ~ starts_with_space (Js.trimStart s)
  /\ exists pre, spaces pre /\ s = (pre ++ Js.trimStart s)%string.
Proof.
  destruct (strip_fuel_enough _ white_space_nonempty (String.length s) s (le_n _))
    as [H1 H2].
  split; [|exact H2].
  intros [w [rest [Hin E]]]. exact (strip_one_none _ _ H1 w rest Hin E).
Qed.

Lemma trimEnd_spec (s : string) :
  ~ ends_with_space (Js.trimEnd s)
  /\ exists post, spaces post /\ s = (Js.trimEnd s ++ post)%string.
Proof.
  unfold Js.trimEnd.
  destruct (strip_fuel_enough _ reversed_nonempty (String.length s) (Js.string_rev s))
    as [H1 [pre [Hr H2]]].
  { now rewrite string_rev_length. }
  set (r := Js.strip_fuel (map Js.string_rev Js.white_space) (String.length s)
                          (Js.string_rev s)) in *.
  split.
  - intros [w [rest [Hin E]]].
    apply (strip_one_none _ _ H1 (Js.string_rev w) (Js.string_rev rest)).
    + now apply in_map.
    + rewrite <- string_rev_app, <- E. now rewrite string_rev_involutive.
  - exists (Js.string_rev pre). split; [now apply run_of_rev|].
    rewrite <- string_rev_app, <- H2. now rewrite string_rev_involutive.
Qed.

Lemma trim_spec (s : string) : trimmed_of s (Js.trim s).
Proof.
  unfold trimmed_of, Js.trim.
  destruct (trimStart_spec s) as [H1 [pre [Hs Hp]]].
  destruct (trimEnd_spec (Js.trimStart s)) as [H2 [post [Ht Hq]]].
  split; [|split].
  - intros [w [rest [Hin E]]]. apply H1. exists w, (rest ++ post)%string.
    split; [exact Hin|]. rewrite Hq at 1. now rewrite E, sapp_assoc.
  - exact H2.
  - exists pre, post. split; [now rewrite <- Hq | split; assumption].
Qed.



Section BulkExtract.

Variable W : Type.
Variable ytdl : Ytdl.t W.

Lemma bulk_entry_spec (url : string) (w : W) :
  BulkEntry.url (fst (Part000.bulk_entry W ytdl url w)) = url
  /\ (succeeded (fst (Part000.bulk_entry W ytdl url w))
      \/ failed (fst (Part000.bulk_entry W ytdl url w))).
Proof.
  unfold Part000.bulk_entry, succeeded, failed.
  destruct (Ytdl.validateURL ytdl url).
  - destruct (Ytdl.getInfo ytdl url [] w) as [[info|message] w'].
    + destruct (Part000.formatVideoData info (VideoInfo.formats info)) as [d|message];
        simpl; eauto 10.
    + simpl; eauto 10.
  - simpl; eauto 10.
Qed.

Lemma bulk_loop_spec (urlArray : list string) :
  forall results w results' w',
    Part000.bulk_loop W ytdl urlArray results w = (results', w') ->
    Forall (fun r => succeeded r \/ failed r) results ->
    map BulkEntry.url results' = map BulkEntry.url results ++ urlArray
    /\ Forall (fun r => succeeded r \/ failed r) results'.
Proof.
  induction urlArray as [|url rest IH]; intros results w results' w' H HF; simpl in H.
  - injection H as <- <-. now rewrite app_nil_r.
  - destruct (bulk_entry_spec url w) as [Hu Hs].
    destruct (Part000.bulk_entry W ytdl url w) as [entry w1]. simpl in Hu, Hs.
    destruct (IH _ _ _ _ H) as [Hm HF'].
    + apply Forall_app. split; [exact HF | now constructor].
    + split; [|exact HF'].
      rewrite Hm, map_app. simpl. rewrite Hu, <- app_assoc. reflexivity.
Qed.





End BulkExtract.

(** The example of the spec: a valid URL and an invalid one. *)
Example bulk_extract_valid_invalid :
  exists data,
    Part000.bulk_extract _ Stub.platform (Some "https://youtu.be/valid1, invalid2") []
    = (json (Bulk 2 1 1
               [BulkEntry.mk "https://youtu.be/valid1" "success" (Some data) None;
                BulkEntry.mk "invalid2" "error" None (Some "Invalid YouTube URL")]),
       ["https://youtu.be/valid1"]).
Proof. eexists. reflexivity. Qed.

(** A failure of the resolver on the first URL: the second one is still
    asked for. *)
Example bulk_extract_goes_on :
  exists data,
    Part000.bulk_extract _ Stub.platform
      (Some "https://youtu.be/gone,https://youtu.be/valid1") []
    = (json (Bulk 2 1 1
               [BulkEntry.mk "https://youtu.be/gone" "error" None (Some "Video unavailable");
                BulkEntry.mk "https://youtu.be/valid1" "success" (Some data) None]),
       ["https://youtu.be/gone"; "https://youtu.be/valid1"]).
Proof. eexists. reflexivity. Qed.

Section Expires.

Variable W : Type.
Variable ytdl : Ytdl.t W.

(** C10, as amended. In the 2.0.0 snapshot every answer of [/extract]
    with the status 200 is a classified response whose [expiresInSeconds]
    is ["21540"], whatever the URL, the metadata and the formats; the
    responses of [index.js] have no [expiresInSeconds]. *)
Theorem expiresInSeconds_constant :
  (forall vi formats d,
      Part000.formatVideoData vi formats = Js.Normal d ->
      Classified.expiresInSeconds d = Some "21540")
  /\ (forall url w,
         statusOf (Part000.extract W ytdl url w) = 200%Z ->
         exists d, bodyOf (Part000.extract W ytdl url w) = Extracted d
                   /\ Classified.expiresInSeconds d = Some "21540")
  /\ (forall url w,
         statusOf (Index.extract W ytdl url w) = 200%Z ->
         exists d, bodyOf (Index.extract W ytdl url w) = Extracted d
                   /\ Classified.expiresInSeconds d = None).
Proof.
  assert (H1 : forall vi formats d,
             Part000.formatVideoData vi formats = Js.Normal d ->
             Classified.expiresInSeconds d = Some "21540").
  { intros vi formats d H.
    now destruct (Part000_formatVideoData_Normal _ _ _ H) as [t [_ [_ [_ [_ [_ E]]]]]]. }
  repeat apply conj.
  - exact H1.
  - intros url w. unfold Part000.extract.
    destruct url as [[|c s]|]; try discriminate.
    destruct (Ytdl.validateURL ytdl (String c s)); [|discriminate]. cbn [negb].
    destruct (Ytdl.getInfo ytdl (String c s) Part000.userAgent w) as [[info|message] w'].
    + destruct (JsArray.length (VideoInfo.formats info) =? 0)%Z; [discriminate|].
      destruct (Part000.formatVideoData info (VideoInfo.formats info)) as [d|message] eqn:E;
        [|discriminate].
      intros _. exists d. split; [reflexivity | exact (H1 _ _ _ E)].
    + destruct (Js.includes message "Video unavailable"); [discriminate|].
      destruct (Js.includes message "Sign in to confirm"); discriminate.
  - intros url w. unfold Index.extract, Index.extract_catch.
    destruct url as [[|c s]|]; try discriminate.
    destruct (Ytdl.validateURL ytdl (String c s)); [|discriminate]. cbn [negb].
    destruct (Ytdl.getInfo ytdl (String c s) [] w) as [[info|message] w'].
    + destruct (Index.formatVideoData info (VideoInfo.formats info)) as [d|message] eqn:E.
      * intros _. exists d. split; [reflexivity|].
        now destruct (Index_formatVideoData_Normal _ _ _ E) as [_ [_ [_ [_ E']]]].
      * destruct (Js.includes message "Video unavailable"); discriminate.
    + destruct (Js.includes message "Video unavailable"); discriminate.
Qed.

End Expires.

Lemma expiresInSeconds_constant_witness :
  (exists d, Part000.formatVideoData Sample.info Sample.formats = Js.Normal d
             /\ Classified.expiresInSeconds d = Some "21540")
  /\ (exists d, bodyOf (Part000.extract _ (Stub.resolving Sample.info) (Some "u") [])
                = Extracted d
                /\ Classified.expiresInSeconds d = Some "21540")
  /\ (exists d, bodyOf (Index.extract _ (Stub.resolving Sample.info) (Some "u") [])
                = Extracted d
                /\ Classified.expiresInSeconds d = None).
Proof.
  split; [|split].
  - eexists. split; [reflexivity|].
    apply (proj1 (expiresInSeconds_constant _ (Stub.resolving Sample.info))
             Sample.info Sample.formats). reflexivity.
  - apply (proj1 (proj2 (expiresInSeconds_constant _ (Stub.resolving Sample.info)))).
    reflexivity.
  - apply (proj2 (proj2 (expiresInSeconds_constant _ (Stub.resolving Sample.info)))).
    reflexivity.
Defined.

(** C10 as it is stated fails on [index.js]: a successful answer of
    [/extract] has no [expiresInSeconds]. *)
Lemma index_has_no_expiresInSeconds :
  exists d,
    Index.extract _ (Stub.resolving Sample.info) (Some "https://youtu.be/x") []
    = (Response.mk 200 (Extracted d), ["https://youtu.be/x"])
    /\ Classified.expiresInSeconds d = None.
Proof. eexists. split; reflexivity. Qed.

(* ================================================================== *)
(** ** More about the classifier *)
(* ================================================================== *)

Lemma index_last {A} (l : list A) (x : A) :
  JsArray.index (l ++ [x]) (JsArray.length (l ++ [x]) - 1) = Some x.
Proof.
  unfold JsArray.index, JsArray.length. rewrite length_app. simpl.
  destruct (Z.ltb_spec (Z.of_nat (List.length l + 1) - 1) 0) as [H|H]; [lia|].
  replace (Z.to_nat (Z.of_nat (List.length l + 1) - 1)) with (List.length l) by lia.
  rewrite nth_error_app2 by lia. now rewrite Nat.sub_diag.
Qed.

Lemma index_empty {A} : JsArray.index (@nil A) (JsArray.length (@nil A) - 1) = None.
Proof. reflexivity. Qed.

Lemma nonempty_last {A} (l : list A) :
  l <> [] -> exists l' x, l = l' ++ [x].
Proof.
  intros H. destruct (exists_last H) as [l' [x E]]. eauto.
Qed.

Lemma completes_iff_thumbnails (vi : VideoInfo.t) (formats : list Format.t) :
  ((exists d, Part000.formatVideoData vi formats = Js.Normal d)
   <-> exists thumbs, VideoDetails.thumbnails (VideoInfo.videoDetails vi) = Some thumbs)
  /\ (Part000.formatVideoData vi formats
      = Js.Throw "Cannot read properties of undefined (reading 'length')"
      <-> VideoDetails.thumbnails (VideoInfo.videoDetails vi) = None).
Proof.
  unfold Part000.formatVideoData, last_thumbnail.
  destruct (VideoDetails.thumbnails (VideoInfo.videoDetails vi)) as [thumbs|]; simpl.
  - split.
    + split; eauto.
    + split; discriminate.
  - split.
    + split; [intros [d H] | intros [t H]]; discriminate.
    + split; reflexivity.
Qed.

(** X1. The 2.0.0 classifier completes exactly when the metadata has a
    list of thumbnails (an empty one will do), and raises the TypeError
    of [length] exactly when it has none: the formats, the author and
    the description never make it raise. *)
Theorem Part000_classifier_completes (vi : VideoInfo.t) (formats : list Format.t) :
  ((exists d, Part000.formatVideoData vi formats = Js.Normal d)
   <-> exists thumbs, VideoDetails.thumbnails (VideoInfo.videoDetails vi) = Some thumbs)
  /\ (Part000.formatVideoData vi formats
      = Js.Throw "Cannot read properties of undefined (reading 'length')"
      <-> VideoDetails.thumbnails (VideoInfo.videoDetails vi) = None).
Proof. exact (completes_iff_thumbnails vi formats). Qed.

Lemma filterM_completes {A} (p : A -> Js.completion bool) (l : list A) :
  (exists r, Index.filterM p l = Js.Normal r)
  <-> forall x, In x l -> exists b, p x = Js.Normal b.
Proof.
  induction l as [|x l IH]; simpl.
  - split; [intros _ x [] | eauto].
  - split.
    + intros [r H] y [<- | Hy].
      * destruct (p x); [eauto | discriminate].
      * destruct (p x); simpl in H; [|discriminate].
        destruct (Index.filterM p l) eqn:E; [|discriminate].
        apply IH; eauto.
    + intros H. destruct (H x (or_introl eq_refl)) as [b ->]. simpl.
      destruct (proj2 IH (fun y Hy => H y (or_intror Hy))) as [r ->]. simpl. eauto.
Qed.

Lemma isMp3_completes (e : Index.Entry.t) :
  (exists b, Index.isMp3 e = Js.Normal b)
  <-> Index.Entry.container e = Some "mp4" \/ Index.Entry.mimeType e <> None.
Proof.
  unfold Index.isMp3.
  destruct (Js.strict_eq (Index.Entry.container e) "mp4") eqn:Hc.
  - apply strict_eq_spec in Hc. split; eauto.
  - assert (Hn : Index.Entry.container e <> Some "mp4").
    { intros H. apply strict_eq_spec in H. congruence. }
    destruct (Index.Entry.mimeType e) as [m|].
    + split; [right; discriminate | eauto].
    + split; [intros [b H]; discriminate | intros [H | H]; congruence].
Qed.

(** X2. The classifier of [index.js] completes exactly when the list of
    thumbnails is there and not empty, the author is there, and every
    audio-only format has the container [mp4] or has a mime type. *)
Theorem Index_classifier_completes (vi : VideoInfo.t) (formats : list Format.t) :
  (exists d, Index.formatVideoData vi formats = Js.Normal d)
  <-> (exists thumbs t,
          VideoDetails.thumbnails (VideoInfo.videoDetails vi) = Some (thumbs ++ [t]))
      /\ VideoDetails.author (VideoInfo.videoDetails vi) <> None
      /\ forall f, In f formats -> audioOnly f = true ->
                   Format.container f = Some "mp4" \/ Format.mimeType f <> None.
Proof.
  assert (Hm : (exists r, Index.filterM Index.isMp3 (Index.audioFormats formats) = Js.Normal r)
               <-> forall f, In f formats -> audioOnly f = true ->
                             Format.container f = Some "mp4" \/ Format.mimeType f <> None).
  { rewrite filterM_completes. unfold Index.audioFormats. split.
    - intros H f Hf Ha. apply (isMp3_completes (Index.audioEntry f)), H.
      apply in_map, filter_In. auto.
    - intros H e He. apply in_map_iff in He as [f [<- Hf]].
      apply filter_In in Hf as [Hf Ha]. apply isMp3_completes. simpl. auto. }
  unfold Index.formatVideoData, last_thumbnail.
  destruct (VideoDetails.thumbnails (VideoInfo.videoDetails vi)) as [thumbs|]; simpl.
  - destruct thumbs as [|t0 thumbs'] eqn:Et.
    + simpl. split.
      * intros [d H]. discriminate.
      * intros [[l [t E]] _]. injection E as E. now destruct l.
    + destruct (nonempty_last (t0 :: thumbs')) as [l [t E]]; [discriminate|].
      rewrite E, index_last. simpl.
      destruct (VideoDetails.author (VideoInfo.videoDetails vi)) as [a|]; simpl.
      * rewrite <- Hm. split.
        -- intros [d H].
           destruct (Index.filterM _ _) as [r|]; [|discriminate].
           repeat split; eauto. discriminate.
        -- intros [_ [_ [r ->]]]. simpl. eauto.
      * split; [intros [d H]; discriminate | intros [_ [H _]]; congruence].
  - split; [intros [d H]; discriminate | intros [[l [t E]] _]; discriminate].
Qed.

(** X3. The image of a classified response is the URL of the last
    thumbnail, in both snapshots; in the 2.0.0 snapshot an empty list of
    thumbnails gives a response without image. *)
Theorem image_is_last_thumbnail (vi : VideoInfo.t) (formats : list Format.t) :
  (forall thumbs t d,
      VideoDetails.thumbnails (VideoInfo.videoDetails vi) = Some (thumbs ++ [t]) ->
      Part000.formatVideoData vi formats = Js.Normal d ->
      Classified.image d = Thumbnail.url t)
  /\ (forall d,
         VideoDetails.thumbnails (VideoInfo.videoDetails vi) = Some [] ->
         Part000.formatVideoData vi formats = Js.Normal d ->
         Classified.image d = None)
  /\ (forall thumbs t d,
         VideoDetails.thumbnails (VideoInfo.videoDetails vi) = Some (thumbs ++ [t]) ->
         Index.formatVideoData vi formats = Js.Normal d ->
         Classified.image d = Thumbnail.url t).
Proof.
  repeat apply conj.
  - intros thumbs t d E. unfold Part000.formatVideoData, last_thumbnail.
    rewrite E, index_last. simpl. intros H. now injection H as <-.
  - intros d E. unfold Part000.formatVideoData, last_thumbnail.
    rewrite E. simpl. intros H. now injection H as <-.
  - intros thumbs t d E. unfold Index.formatVideoData, last_thumbnail.
    rewrite E, index_last. simpl.
    destruct (VideoDetails.author _); simpl; [|discriminate].
    destruct (Index.filterM _ _); simpl; [|discriminate].
    intros H. now injection H as <-.
Qed.

Lemma image_is_last_thumbnail_witness :
  (exists d, Part000.formatVideoData Sample.info Sample.formats = Js.Normal d
             /\ Classified.image d = Some "https://i.ytimg.com/vi/x/maxresdefault.jpg")
  /\ (exists d, Part000.formatVideoData
                  (VideoInfo.mk Sample.noThumbnails Sample.formats) Sample.formats
                = Js.Normal d
                /\ Classified.image d = None)
  /\ (exists d, Index.formatVideoData Sample.info Sample.formats = Js.Normal d
                /\ Classified.image d = Some "https://i.ytimg.com/vi/x/maxresdefault.jpg").
Proof.
  split; [|split]; eexists; (split; [reflexivity|]).
  - apply (proj1 (image_is_last_thumbnail Sample.info Sample.formats)
             [Thumbnail.mk (Some "https://i.ytimg.com/vi/x/default.jpg")]
             (Thumbnail.mk (Some "https://i.ytimg.com/vi/x/maxresdefault.jpg")));
      reflexivity.
  - apply (proj1 (proj2 (image_is_last_thumbnail
                           (VideoInfo.mk Sample.noThumbnails Sample.formats)
                           Sample.formats))); reflexivity.
  - apply (proj2 (proj2 (image_is_last_thumbnail Sample.info Sample.formats))
             [Thumbnail.mk (Some "https://i.ytimg.com/vi/x/default.jpg")]
             (Thumbnail.mk (Some "https://i.ytimg.com/vi/x/maxresdefault.jpg")));
      reflexivity.
Defined.

(** X4. In the 2.0.0 snapshot the author of a classified response is
    never missing and never empty: it is the name of the author when
    that is a non-empty string, and [Unknown] in every other case (no
    author, no name, an empty name). *)
Theorem Part000_author_default (vi : VideoInfo.t) (formats : list Format.t)
        (d : Classified.t Part000.Entry.t) :
  Part000.formatVideoData vi formats = Js.Normal d ->
  exists a,
    Classified.author d = Some a /\ a <> EmptyString
    /\ ((exists au, VideoDetails.author (VideoInfo.videoDetails vi) = Some au
                    /\ Author.name au = Some a)
        \/ (a = "Unknown"
            /\ forall au, VideoDetails.author (VideoInfo.videoDetails vi) = Some au ->
                          Js.truthy (Author.name au) = false)).
Proof.
  unfold Part000.formatVideoData, last_thumbnail.
  destruct (VideoDetails.thumbnails (VideoInfo.videoDetails vi)); simpl; [|discriminate].
  intros H. injection H as <-. simpl.
  destruct (VideoDetails.author (VideoInfo.videoDetails vi)) as [au|].
  - destruct (Author.name au) as [[|c s]|] eqn:En; simpl.
    + exists "Unknown". repeat split; [discriminate|]. right. split; [reflexivity|].
      intros au' E. injection E as <-. now rewrite En.
    + exists (String c s). repeat split; [discriminate|]. left. eauto.
    + exists "Unknown". repeat split; [discriminate|]. right. split; [reflexivity|].
      intros au' E. injection E as <-. now rewrite En.
  - exists "Unknown". repeat split; [discriminate|]. right. split; [reflexivity|].
    intros au' E. discriminate.
Qed.

Lemma Part000_author_default_witness :
  exists d a,
    Part000.formatVideoData (VideoInfo.mk Sample.noAuthor Sample.formats) Sample.formats
    = Js.Normal d
    /\ Classified.author d = Some a /\ a <> EmptyString.
Proof.
  eexists.
  destruct (Part000_author_default (VideoInfo.mk Sample.noAuthor Sample.formats)
              Sample.formats _ eq_refl) as [a [H1 [H2 _]]].
  exists a. split; [reflexivity|]. split; assumption.
Defined.

Lemma filter_sorted {A} (R : A -> A -> Prop) (p : A -> bool) (l : list A) :
  StronglySorted R l -> StronglySorted R (filter p l).
Proof.
  induction 1 as [|x l Hl IH Hx]; simpl.
  - constructor.
  - destruct (p x); [|exact IH].
    constructor; [exact IH|].
    apply Forall_forall. intros y Hy. apply filter_In in Hy as [Hy _].
    revert y Hy. now apply Forall_forall.
Qed.

Lemma filter_comm {A} (p q : A -> bool) (l : list A) :
  filter p (filter q l) = filter q (filter p l).
Proof.
  induction l as [|x l IH]; simpl.
  - reflexivity.
  - destruct (p x) eqn:Hp, (q x) eqn:Hq; simpl; rewrite ?Hp, ?Hq, IH; reflexivity.
Qed.

(** X5. In the 2.0.0 snapshot each group of video entries is itself in
    the order of the quality numbers, highest first, and entries of one
    quality number are in the order of the input. The quality number is
    the double that [getQualityNum] gives, as the comparator of the sort
    sees it: one number is below another exactly when the comparator is
    positive, so labels that round to the same double are of one quality
    number. *)
Theorem video_groups_sorted (vi : VideoInfo.t) (formats : list Format.t)
        (d : Classified.t Part000.Entry.t) :
  Part000.formatVideoData vi formats = Js.Normal d ->
  StronglySorted (descending qualityNum) (Classified.video_mp4 d)
  /\ StronglySorted (descending qualityNum) (Classified.video_webm d)
  /\ (forall k,
         withKey qualityNum k (Classified.video_mp4 d)
         = withKey qualityNum k
             (filter (Part000.inGroup "mp4")
                     (map Part000.videoEntry (filter Format.hasVideo formats)))
         /\ withKey qualityNum k (Classified.video_webm d)
            = withKey qualityNum k
                (filter (Part000.inGroup "webm")
                        (map Part000.videoEntry (filter Format.hasVideo formats))))
  /\ (forall a b,
         (qualityNum a < qualityNum b)%Z
         <-> Js.positive (Js.SortCompare Part000.comparefn a b) = true)
  /\ (forall a b,
         qualityNum a = qualityNum b
         <-> Part000.getQualityNum (Part000.Entry.quality a)
             = Part000.getQualityNum (Part000.Entry.quality b)).
Proof.
  intros H.
  destruct (Part000_formatVideoData_Normal _ _ _ H) as [thumbs [_ [-> [-> _]]]].
  pose proof (sort_sorted _ qualityNum _ comparefn_qualityNum
                (map Part000.videoEntry (filter Part000.isVideo formats))) as Hs.
  fold (Part000.videoFormats formats) in Hs.
  split; [|split; [|split; [|split]]].
  - now apply filter_sorted.
  - now apply filter_sorted.
  - intros k. split.
    + unfold withKey. rewrite filter_comm, (filter_comm _ (Part000.inGroup "mp4")).
      f_equal. apply (sort_withKey _ qualityNum _ comparefn_qualityNum).
    + unfold withKey. rewrite filter_comm, (filter_comm _ (Part000.inGroup "webm")).
      f_equal. apply (sort_withKey _ qualityNum _ comparefn_qualityNum).
  - intros a b. rewrite comparefn_qualityNum. symmetry. apply Z.ltb_lt.
  - intros a b. unfold qualityNum.
    destruct (getQualityNum_cases (Part000.Entry.quality a)) as [[x [-> Hx]] | ->];
      destruct (getQualityNum_cases (Part000.Entry.quality b)) as [[y [-> Hy]] | ->];
      cbn [rank]; split; intros E; try reflexivity; try discriminate E;
      try (injection E as E); try (f_equal; assumption); try assumption;
      pose proof two53_lt_two1024; unfold Js.two1024 in *; lia.
Qed.

Lemma video_groups_sorted_witness :
  exists d,
    Part000.formatVideoData Sample.info Sample.formats = Js.Normal d
    /\ StronglySorted (descending qualityNum) (Classified.video_mp4 d)
    /\ map qualityNum (Classified.video_mp4 d) = [1080; 720; 360]%Z.
Proof.
  eexists. split; [reflexivity|]. split.
  - apply (video_groups_sorted Sample.info Sample.formats _ eq_refl).
  - reflexivity.
Defined.

Lemma videoFormats_In (formats : list Format.t) (e : Part000.Entry.t) :
  In e (Part000.videoFormats formats)
  <-> made_of Part000.videoEntry Format.hasVideo formats e.
Proof.
  pose proof (videoFormats_perm formats) as P. unfold made_of. split.
  - intros H. apply (Permutation_in _ P), in_map_iff in H as [f [E Hf]].
    apply filter_In in Hf as [Hf Hv]. eauto.
  - intros [f [Hf [Hv E]]]. apply (Permutation_in _ (Permutation_sym P)), in_map_iff.
    exists f. split; [auto|]. apply filter_In. auto.
Qed.

Lemma mapped_filter_In {A B} (f : A -> B) (p : A -> bool) (l : list A) (e : B) :
  In e (map f (filter p l)) <-> made_of f p l e.
Proof.
  unfold made_of. rewrite in_map_iff. split.
  - intros [x [E Hx]]. apply filter_In in Hx as [Hx Hp]. eauto.
  - intros [x [Hx [Hp E]]]. exists x. split; [auto|]. apply filter_In. auto.
Qed.

Lemma videoList_In (formats : list Format.t) (e : Index.Entry.t) :
  In e (Index.videoList formats)
  <-> made_of Index.videoEntry Format.hasVideo formats e.
Proof.
  pose proof (videoList_perm formats) as P. split.
  - intros H. now apply (Permutation_in _ P), mapped_filter_In in H.
  - intros H. now apply (Permutation_in _ (Permutation_sym P)), mapped_filter_In.
Qed.

(** X6. Nothing is made up: in both snapshots every entry of a video
    group is the entry of a format of the input that has video, and
    every entry of an audio group is the entry of a format of the input
    that has audio and no video. *)
Theorem groups_come_from_formats (vi : VideoInfo.t) (formats : list Format.t) :
  (forall d e,
      Part000.formatVideoData vi formats = Js.Normal d ->
      (In e (Classified.video_mp4 d) \/ In e (Classified.video_webm d) ->
       made_of Part000.videoEntry Format.hasVideo formats e)
      /\ (In e (Classified.audio_mp3 d) \/ In e (Classified.audio_webm d) ->
          made_of Part000.audioEntry audioOnly formats e))
  /\ (forall d e,
         Index.formatVideoData vi formats = Js.Normal d ->
         (In e (Classified.video_mp4 d) \/ In e (Classified.video_webm d) ->
          made_of Index.videoEntry Format.hasVideo formats e)
         /\ (In e (Classified.audio_mp3 d) \/ In e (Classified.audio_webm d) ->
             made_of Index.audioEntry audioOnly formats e)).
Proof.
  split; intros d e H.
  - destruct (Part000_formatVideoData_Normal _ _ _ H)
      as [thumbs [_ [-> [-> [-> [-> _]]]]]].
    assert (Ea : Part000.audioFormats formats
                 = map Part000.audioEntry (filter audioOnly formats)).
    { unfold Part000.audioFormats. f_equal. apply filter_ext.
      intros f. unfold Part000.isAudio, audioOnly. apply andb_comm. }
    split; intros [Hi | Hi]; apply filter_In in Hi as [Hi _].
    + now apply videoFormats_In.
    + now apply videoFormats_In.
    + rewrite Ea in Hi. now apply mapped_filter_In.
    + rewrite Ea in Hi. now apply mapped_filter_In.
  - destruct (Index_formatVideoData_Normal _ _ _ H) as [Hmp3 [-> [-> [-> _]]]].
    split; intros [Hi | Hi].
    + apply filter_In in Hi as [Hi _]. now apply videoList_In.
    + apply filter_In in Hi as [Hi _]. now apply videoList_In.
    + apply (filterM_In _ _ _ Hmp3) in Hi as [Hi _].
      now apply (mapped_filter_In Index.audioEntry audioOnly).
    + apply filter_In in Hi as [Hi _].
      now apply (mapped_filter_In Index.audioEntry audioOnly).
Qed.

Lemma groups_come_from_formats_witness :
  exists d,
    Part000.formatVideoData Sample.info Sample.formats = Js.Normal d
    /\ made_of Part000.videoEntry Format.hasVideo Sample.formats
         (Part000.videoEntry Sample.v1080).
Proof.
  eexists. split; [reflexivity|].
  apply (proj1 (groups_come_from_formats Sample.info Sample.formats) _ _ eq_refl).
  left. vm_compute. tauto.
Defined.

Lemma filter_disjoint_length {A} (p q : A -> bool) (l : list A) :
  (forall x, p x && q x = false) ->
  List.length (filter p l) + List.length (filter q l) <= List.length l.
Proof.
  intros H. induction l as [|x l IH]; simpl; [lia|].
  specialize (H x). destruct (p x), (q x); simpl in *; try discriminate; lia.
Qed.

(** X7. In [index.js] no video entry is in both groups, so that the two
    groups together are never more than the formats with video. *)
Theorem Index_video_groups_disjoint (vi : VideoInfo.t) (formats : list Format.t)
        (d : Classified.t Index.Entry.t) :
  Index.formatVideoData vi formats = Js.Normal d ->
  (forall e, ~ (In e (Classified.video_mp4 d) /\ In e (Classified.video_webm d)))
  /\ List.length (Classified.video_mp4 d) + List.length (Classified.video_webm d)
     <= List.length (filter Format.hasVideo formats).
Proof.
  intros H. destruct (Index_formatVideoData_Normal _ _ _ H) as [_ [-> [-> _]]].
  split.
  - intros e [H1 H2]. apply filter_In in H1 as [_ H1]. apply filter_In in H2 as [_ H2].
    unfold Index.hasContainer in *. apply strict_eq_spec in H1, H2. congruence.
  - rewrite <- (length_map Index.videoEntry (filter Format.hasVideo formats)).
    rewrite <- (Permutation_length (videoList_perm formats)).
    apply filter_disjoint_length. intros e. unfold Index.hasContainer.
    destruct (Js.strict_eq (Index.Entry.container e) "mp4") eqn:E1;
      destruct (Js.strict_eq (Index.Entry.container e) "webm") eqn:E2; try reflexivity.
    apply strict_eq_spec in E1, E2. congruence.
Qed.

Lemma Index_video_groups_disjoint_witness :
  exists d,
    Index.formatVideoData Sample.info Sample.formats = Js.Normal d
    /\ List.length (Classified.video_mp4 d) + List.length (Classified.video_webm d) <= 4.
Proof.
  eexists. split; [reflexivity|].
  apply (Index_video_groups_disjoint Sample.info Sample.formats _ eq_refl).
Defined.

(** X8. In the 2.0.0 snapshot no entry has an empty [quality]: a video
    entry has the label, the format's quality or [unknown], an audio
    entry the audio quality or [audio]. *)
Theorem Part000_quality_never_empty (formats : list Format.t) (e : Part000.Entry.t) :
  In e (Part000.videoFormats formats) \/ In e (Part000.audioFormats formats) ->
  Part000.Entry.quality e <> EmptyString.
Proof.
  assert (Hd : forall a d, d <> EmptyString -> Js.or_default a d <> EmptyString).
  { intros [[|c s]|] d Hd; simpl; auto; discriminate. }
  intros [H | H].
  - apply videoFormats_In in H as [f [_ [_ ->]]]. apply Hd. discriminate.
  - apply in_map_iff in H as [f [<- _]]. apply Hd. discriminate.
Qed.

Lemma Part000_quality_never_empty_witness :
  Part000.Entry.quality
    (Part000.videoEntry (Sample.format (Some EmptyString) (Some EmptyString) None None true false))
  <> EmptyString.
Proof.
  apply (Part000_quality_never_empty
           [Sample.format (Some EmptyString) (Some EmptyString) None None true false]).
  left. vm_compute. tauto.
Defined.

(** X9. The file size of an entry: without a content length, or with an
    empty one, it is [null]; with a content length made of digits that
    write a number below 2^53 it is that number (above, [parseInt] gives
    the nearest double, the infinity from 2^1024 on). *)
Theorem fileSize_of_contentLength (format : Format.t) :
  (fileSizeOf format = None <-> Js.truthy (Format.contentLength format) = false)
  /\ (forall digits,
         all_digits digits = true -> digits <> EmptyString ->
         (decimal digits < 2 ^ 53)%Z ->
         Format.contentLength format = Some digits ->
         fileSizeOf format = Some (Js.Num (decimal digits))
         /\ Part000.Entry.fileSize (Part000.videoEntry format) = Some (Js.Num (decimal digits))
         /\ Part000.Entry.fileSize (Part000.audioEntry format) = Some (Js.Num (decimal digits))
         /\ Index.Entry.fileSize (Index.videoEntry format) = Some (Js.Num (decimal digits))
         /\ Index.Entry.fileSize (Index.audioEntry format) = Some (Js.Num (decimal digits)))
  /\ (forall digits,
         all_digits digits = true -> digits <> EmptyString ->
         Format.contentLength format = Some digits ->
         fileSizeOf format = Some (Js.toNumber (decimal digits))).
Proof.
  assert (Hg : forall digits,
             all_digits digits = true -> digits <> EmptyString ->
             Format.contentLength format = Some digits ->
             fileSizeOf format = Some (Js.toNumber (decimal digits))).
  { intros digits Hd Hne E. unfold fileSizeOf. rewrite E.
    destruct digits as [|c s]; [congruence|].
    now rewrite (parseInt_digits _ Hd Hne). }
  split; [|split].
  - unfold fileSizeOf. destruct (Format.contentLength format) as [[|c s]|]; simpl;
      split; try reflexivity; discriminate.
  - intros digits Hd Hne Hsmall E.
    assert (H : fileSizeOf format = Some (Js.Num (decimal digits))).
    { rewrite (Hg digits Hd Hne E). f_equal. apply toNumber_exact.
      pose proof (decimal_from_nonneg digits 0 Hd (Z.le_refl 0)) as Hpos.
      fold (decimal digits) in Hpos. change Js.two53 with (2 ^ 53)%Z. lia. }
    repeat split; exact H.
  - exact Hg.
Qed.

Lemma fileSize_of_contentLength_witness :
  fileSizeOf Sample.v1080 = Some (Js.Num 1048576).
Proof.
  apply (proj1 (proj2 (fileSize_of_contentLength Sample.v1080)) "1048576");
    [reflexivity | discriminate | reflexivity | reflexivity].
Defined.

Lemma filter_map_swap {A B} (f : A -> B) (p : B -> bool) (l : list A) :
  filter p (map f l) = map f (filter (fun x => p (f x)) l).
Proof.
  induction l as [|x l IH]; simpl; [reflexivity|].
  destruct (p (f x)); simpl; now rewrite IH.
Qed.

Lemma perm_filter_length {A} (p : A -> bool) (l l' : list A) :
  Permutation l l' -> List.length (filter p l) = List.length (filter p l').
Proof.
  induction 1 as [|x l l' _ IH|x y l|l l' l'' _ IH1 _ IH2]; simpl.
  - reflexivity.
  - destruct (p x); simpl; now rewrite IH.
  - destruct (p x), (p y); reflexivity.
  - now rewrite IH1.
Qed.

Lemma filter_length_mono {A} (p q : A -> bool) (l : list A) :
  (forall x, In x l -> p x = true -> q x = true) ->
  List.length (filter p l) <= List.length (filter q l).
Proof.
  induction l as [|x l IH]; intros H; simpl; [lia|].
  assert (IH' := IH (fun y Hy => H y (or_intror Hy))).
  destruct (p x) eqn:Hp.
  - rewrite (H x (or_introl eq_refl) Hp). simpl. lia.
  - destruct (q x); simpl; lia.
Qed.

Lemma filterM_filter {A} (p : A -> Js.completion bool) (l r : list A) :
  Index.filterM p l = Js.Normal r ->
  r = filter (fun e => match p e with Js.Normal true => true | _ => false end) l.
Proof.
  revert r; induction l as [|x l IH]; intros r H; simpl in *.
  - now injection H as <-.
  - destruct (p x) as [keep|]; simpl in H; [|discriminate].
    destruct (Index.filterM p l) as [rest|]; simpl in H; [|discriminate].
    injection H as <-. rewrite (IH rest eq_refl). now destruct keep.
Qed.

Lemma contains_longer (m a b : string) : contains m (a ++ b) -> contains m b.
Proof.
  intros [pre [post E]]. exists (pre ++ a)%string, post.
  now rewrite E, !sapp_assoc.
Qed.

Lemma classification_sizes (formats : list Format.t) :
  List.length (Part000.videoFormats formats) = List.length (filter Format.hasVideo formats)
  /\ List.length (Part000.audioFormats formats) = List.length (filter audioOnly formats)
  /\ List.length (Index.videoList formats) = List.length (filter Format.hasVideo formats)
  /\ List.length (Index.audioFormats formats) = List.length (filter audioOnly formats).
Proof.
  repeat split.
  - now rewrite (Permutation_length (videoFormats_perm formats)), length_map.
  - unfold Part000.audioFormats. rewrite length_map. f_equal. apply filter_ext.
    intros f. unfold Part000.isAudio, audioOnly. apply andb_comm.
  - now rewrite (Permutation_length (videoList_perm formats)), length_map.
  - unfold Index.audioFormats. now rewrite length_map.
Qed.

(** X10. The groups are never larger than the kind of formats they are
    made of: in both snapshots each video group has at most as many
    entries as there are formats with video, and each audio group at most
    as many as there are formats with audio only; without formats all
    the groups are empty. *)
Theorem group_sizes (vi : VideoInfo.t) (formats : list Format.t) :
  (forall d,
      Part000.formatVideoData vi formats = Js.Normal d ->
      List.length (Classified.video_mp4 d) <= List.length (filter Format.hasVideo formats)
      /\ List.length (Classified.video_webm d) <= List.length (filter Format.hasVideo formats)
      /\ List.length (Classified.audio_mp3 d) <= List.length (filter audioOnly formats)
      /\ List.length (Classified.audio_webm d) <= List.length (filter audioOnly formats))
  /\ (forall d,
         Index.formatVideoData vi formats = Js.Normal d ->
         List.length (Classified.video_mp4 d) <= List.length (filter Format.hasVideo formats)
         /\ List.length (Classified.video_webm d) <= List.length (filter Format.hasVideo formats)
         /\ List.length (Classified.audio_mp3 d) <= List.length (filter audioOnly formats)
         /\ List.length (Classified.audio_webm d) <= List.length (filter audioOnly formats)).
Proof.
  destruct (classification_sizes formats) as [V1 [A1 [V2 A2]]].
  split; intros d H.
  - destruct (Part000_formatVideoData_Normal _ _ _ H)
      as [thumbs [_ [-> [-> [-> [-> _]]]]]].
    rewrite <- V1, <- A1. repeat split; apply filter_length_le.
  - destruct (Index_formatVideoData_Normal _ _ _ H) as [Hmp3 [-> [-> [-> _]]]].
    rewrite (filterM_filter _ _ _ Hmp3), <- V2, <- A2.
    repeat split; apply filter_length_le.
Qed.

Lemma group_sizes_witness :
  exists d,
    Part000.formatVideoData Sample.info [] = Js.Normal d
    /\ List.length (Classified.video_mp4 d) <= 0
    /\ List.length (Classified.audio_mp3 d) <= 0.
Proof.
  eexists. split; [reflexivity|].
  destruct (proj1 (group_sizes Sample.info []) _ eq_refl) as [H1 [_ [H3 _]]].
  split; assumption.
Defined.

Lemma toNumber_not_NaN (z : Z) : Js.toNumber z <> Js.NaN.
Proof.
  unfold Js.toNumber. destruct (_ <? _)%Z; [discriminate|].
  cbv zeta. destruct (_ <=? _)%Z; [destruct (_ <? _)%Z|]; discriminate.
Qed.

(** X11. The quality number is never [NaN] and never negative: it is a
    double that is not negative, or the infinity (for digits that write
    2^1024 or more). The comparator gives [NaN] exactly when both quality
    numbers are the infinity, which the sort takes for 0. In every case
    the sort puts [a] after [b] exactly when the quality number of [b] is
    the greater one, never each after the other, and neither after the
    other exactly when the two quality numbers are the same double. *)
Theorem comparator_is_consistent :
  (forall quality,
      (exists z, Part000.getQualityNum quality = Js.Num z /\ (0 <= z < 2 ^ 1024)%Z)
      \/ Part000.getQualityNum quality = Js.Infinity)
  /\ (forall a b,
         (Part000.comparefn a b = Js.NaN
          <-> Part000.getQualityNum (Part000.Entry.quality a) = Js.Infinity
              /\ Part000.getQualityNum (Part000.Entry.quality b) = Js.Infinity)
         /\ (Js.positive (Js.SortCompare Part000.comparefn a b) = true
             <-> (qualityNum a < qualityNum b)%Z)
         /\ (Js.positive (Js.SortCompare Part000.comparefn a b) = true ->
             Js.positive (Js.SortCompare Part000.comparefn b a) = false)
         /\ (Part000.getQualityNum (Part000.Entry.quality a)
             = Part000.getQualityNum (Part000.Entry.quality b)
             <-> Js.positive (Js.SortCompare Part000.comparefn a b) = false
                 /\ Js.positive (Js.SortCompare Part000.comparefn b a) = false)).
Proof.
  split.
  - exact getQualityNum_cases.
  - intros a b. rewrite !comparefn_qualityNum.
    split; [|split; [|split]].
    + unfold Part000.comparefn.
      destruct (getQualityNum_cases (Part000.Entry.quality a)) as [[x [-> Hx]] | ->];
        destruct (getQualityNum_cases (Part000.Entry.quality b)) as [[y [-> Hy]] | ->];
        cbn [Js.sub]; split; try discriminate; try tauto.
      * intros H. now apply toNumber_not_NaN in H.
      * intros [H _]. discriminate.
      * intros [H _]. discriminate.
      * intros [_ H]. discriminate.
    + apply Z.ltb_lt.
    + intros H. apply Z.ltb_lt in H. apply Z.ltb_ge. lia.
    + rewrite !Z.ltb_ge. unfold qualityNum.
      destruct (getQualityNum_cases (Part000.Entry.quality a)) as [[x [-> Hx]] | ->];
        destruct (getQualityNum_cases (Part000.Entry.quality b)) as [[y [-> Hy]] | ->];
        cbn [rank]; split; try (intros H; try discriminate H; try injection H as H; lia);
        try reflexivity.
      intros H. f_equal. lia.
Qed.

(** The quality numbers above 2^53: the number of [9007199254740993p] is
    the double 9007199254740992, that of a label of 309 digits is the
    infinity (one of 308 digits is not), and the comparator of such a
    label with itself is [NaN]. *)
Example quality_number_is_a_double :
  Part000.getQualityNum "9007199254740993p" = Js.Num 9007199254740992
  /\ Part000.getQualityNum "9007199254740992p" = Js.Num 9007199254740992
  /\ Part000.getQualityNum "9007199254740991p" = Js.Num 9007199254740991
  /\ Part000.getQualityNum (nines 308 "p") = Js.toNumber (10 ^ 308 - 1)
  /\ Part000.getQualityNum (nines 308 "p") <> Js.Infinity
  /\ Part000.getQualityNum (nines 309 "p") = Js.Infinity
  /\ Part000.comparefn (Part000.videoEntry (labelled (nines 309 "p")))
                       (Part000.videoEntry (labelled (nines 309 "p"))) = Js.NaN
  /\ Part000.comparefn (Part000.videoEntry (labelled "9007199254740992p"))
                       (Part000.videoEntry (labelled "9007199254740993p")) = Js.Num 0.
Proof. vm_compute. repeat split. discriminate. Qed.

(** Two labels of the same double keep the order of the input, the
    greater integer first or last; a label of 309 digits comes before
    them. *)
Example equal_doubles_keep_input_order :
  Part000.videoFormats [labelled "9007199254740992p"; labelled "9007199254740993p"]
  = map Part000.videoEntry [labelled "9007199254740992p"; labelled "9007199254740993p"]
  /\ Part000.videoFormats [labelled "9007199254740993p"; labelled "9007199254740992p"]
     = map Part000.videoEntry [labelled "9007199254740993p"; labelled "9007199254740992p"]
  /\ Part000.videoFormats [labelled "9007199254740993p"; labelled (nines 309 "p");
                           labelled "1080p"; labelled (nines 310 "p")]
     = map Part000.videoEntry [labelled (nines 309 "p"); labelled (nines 310 "p");
                               labelled "9007199254740993p"; labelled "1080p"].
Proof. vm_compute. repeat split. Qed.

Lemma video_group_count (token : string) (formats : list Format.t) :
  List.length (filter (Part000.inGroup token) (Part000.videoFormats formats))
  = List.length (filter (fun f => Part000.inGroup token (Part000.videoEntry f))
                        (filter Format.hasVideo formats))
  /\ List.length (filter (Index.hasContainer token) (Index.videoList formats))
     = List.length (filter (fun f => Index.hasContainer token (Index.videoEntry f))
                           (filter Format.hasVideo formats)).
Proof.
  split.
  - rewrite (perm_filter_length _ _ _ (videoFormats_perm formats)).
    now rewrite filter_map_swap, length_map.
  - rewrite (perm_filter_length _ _ _ (videoList_perm formats)).
    now rewrite filter_map_swap, length_map.
Qed.

(** X12. The 2.0.0 snapshot lists no fewer entries than [index.js]: for
    the same metadata and formats, when both classifiers complete, each
    of the four groups of the 2.0.0 snapshot has at least as many entries
    as the same group of [index.js]. *)
Theorem newer_snapshot_lists_no_fewer (vi : VideoInfo.t) (formats : list Format.t)
        (d1 : Classified.t Part000.Entry.t) (d2 : Classified.t Index.Entry.t) :
  Part000.formatVideoData vi formats = Js.Normal d1 ->
  Index.formatVideoData vi formats = Js.Normal d2 ->
  List.length (Classified.video_mp4 d2) <= List.length (Classified.video_mp4 d1)
  /\ List.length (Classified.video_webm d2) <= List.length (Classified.video_webm d1)
  /\ List.length (Classified.audio_mp3 d2) <= List.length (Classified.audio_mp3 d1)
  /\ List.length (Classified.audio_webm d2) <= List.length (Classified.audio_webm d1).
Proof.
  intros H1 H2.
  destruct (Part000_formatVideoData_Normal _ _ _ H1)
    as [thumbs [_ [-> [-> [-> [-> _]]]]]].
  destruct (Index_formatVideoData_Normal _ _ _ H2) as [Hmp3 [-> [-> [-> _]]]].
  rewrite (filterM_filter _ _ _ Hmp3).
  assert (Ea : Part000.audioFormats formats
               = map Part000.audioEntry (filter audioOnly formats)).
  { unfold Part000.audioFormats. f_equal. apply filter_ext.
    intros f. unfold Part000.isAudio, audioOnly. apply andb_comm. }
  assert (Eb : Index.audioFormats formats
               = map Index.audioEntry (filter audioOnly formats)) by reflexivity.
  assert (Hc : forall token f,
             Index.hasContainer token (Index.videoEntry f) = true ->
             Part000.inGroup token (Part000.videoEntry f) = true).
  { intros token f. unfold Index.hasContainer, Part000.inGroup. simpl.
    intros ->. reflexivity. }
  repeat split.
  - rewrite (proj1 (video_group_count "mp4" formats)),
      (proj2 (video_group_count "mp4" formats)).
    apply filter_length_mono. intros f _. apply Hc.
  - rewrite (proj1 (video_group_count "webm" formats)),
      (proj2 (video_group_count "webm" formats)).
    apply filter_length_mono. intros f _. apply Hc.
  - rewrite Ea, Eb, !filter_map_swap, !length_map.
    apply filter_length_mono. intros f _ H.
    destruct (Index.isMp3 (Index.audioEntry f)) as [[|]|] eqn:E; try discriminate.
    apply isMp3_spec in E. apply inGroup_spec. simpl in *.
    destruct E as [E | [m [E C]]]; [now left|].
    right. exists m. split; [exact E|]. now apply (contains_longer m "audio/").
  - rewrite Ea, Eb, !filter_map_swap, !length_map.
    apply filter_length_mono. intros f _.
    unfold Index.hasContainer, Part000.inGroup. simpl. intros ->. reflexivity.
Qed.

Lemma newer_snapshot_lists_no_fewer_witness :
  exists d1 d2,
    Part000.formatVideoData Sample.info [Sample.videoMimeOnly; Sample.v720mp4] = Js.Normal d1
    /\ Index.formatVideoData Sample.info [Sample.videoMimeOnly; Sample.v720mp4] = Js.Normal d2
    /\ List.length (Classified.video_mp4 d2) <= List.length (Classified.video_mp4 d1).
Proof.
  eexists. eexists. split; [reflexivity|]. split; [reflexivity|].
  apply (newer_snapshot_lists_no_fewer Sample.info
           [Sample.videoMimeOnly; Sample.v720mp4] _ _ eq_refl eq_refl).
Defined.

(* ================================================================== *)
(** ** More about the request handlers *)
(* ================================================================== *)

Section MoreExtract.

Variable W : Type.
Variable ytdl : Ytdl.t W.

(** X13. The answers of [/extract] have one of five statuses in the
    2.0.0 snapshot (200, 400, 403, 404, 500) and one of four in
    [index.js] (200, 400, 404, 500), whatever the request and whatever
    the resolver does. *)
Theorem extract_statuses (url : option string) (w : W) :
  In (statusOf (Part000.extract W ytdl url w)) Part000_statuses
  /\ In (statusOf (Index.extract W ytdl url w)) Index_statuses.
Proof.
  unfold Part000_statuses, Index_statuses. split.
  - unfold Part000.extract.
    destruct url as [[|c s]|]; [simpl; tauto| |simpl; tauto].
    destruct (Ytdl.validateURL ytdl (String c s)); [|simpl; tauto]. cbn [negb].
    destruct (Ytdl.getInfo ytdl (String c s) Part000.userAgent w) as [[info|message] w'].
    + destruct (JsArray.length (VideoInfo.formats info) =? 0)%Z; [simpl; tauto|].
      destruct (Part000.formatVideoData info (VideoInfo.formats info)); simpl; tauto.
    + destruct (Js.includes message "Video unavailable"); [simpl; tauto|].
      destruct (Js.includes message "Sign in to confirm"); simpl; tauto.
  - unfold Index.extract, Index.extract_catch.
    destruct url as [[|c s]|]; [simpl; tauto| |simpl; tauto].
    destruct (Ytdl.validateURL ytdl (String c s)); [|simpl; tauto]. cbn [negb].
    destruct (Ytdl.getInfo ytdl (String c s) [] w) as [[info|message] w'].
    + destruct (Index.formatVideoData info (VideoInfo.formats info)) as [d|message];
        [simpl; tauto|].
      destruct (Js.includes message "Video unavailable"); simpl; tauto.
    + destruct (Js.includes message "Video unavailable"); simpl; tauto.
Qed.

(** X14. When [/extract] succeeds. In the 2.0.0 snapshot the status is
    200 exactly when the URL is there and valid, the resolver resolves
    it, the list of formats is not empty and the metadata has a list of
    thumbnails. In [index.js] it is 200 exactly when the URL is there
    and valid, the resolver resolves it and the classifier completes. *)
Theorem extract_succeeds (url : option string) (w : W) :
  (statusOf (Part000.extract W ytdl url w) = 200%Z
   <-> exists c s info w',
       url = Some (String c s)
       /\ Ytdl.validateURL ytdl (String c s) = true
       /\ Ytdl.getInfo ytdl (String c s) Part000.userAgent w = (Js.Normal info, w')
       /\ VideoInfo.formats info <> []
       /\ VideoDetails.thumbnails (VideoInfo.videoDetails info) <> None)
  /\ (statusOf (Index.extract W ytdl url w) = 200%Z
      <-> exists c s info w' d,
          url = Some (String c s)
          /\ Ytdl.validateURL ytdl (String c s) = true
          /\ Ytdl.getInfo ytdl (String c s) [] w = (Js.Normal info, w')
          /\ Index.formatVideoData info (VideoInfo.formats info) = Js.Normal d).
Proof.
  split; split.
  - unfold Part000.extract.
    destruct url as [[|c s]|]; try discriminate.
    destruct (Ytdl.validateURL ytdl (String c s)) eqn:Hv; [|discriminate]. cbn [negb].
    destruct (Ytdl.getInfo ytdl (String c s) Part000.userAgent w)
      as [[info|message] w'] eqn:Hg.
    + destruct (VideoInfo.formats info) as [|f fs] eqn:Hf; [discriminate|].
      replace (JsArray.length (f :: fs) =? 0)%Z with false
        by (symmetry; apply Z.eqb_neq; unfold JsArray.length; simpl; lia).
      destruct (Part000.formatVideoData info (f :: fs)) as [d|message] eqn:E;
        [|discriminate].
      intros _. exists c, s, info, w'. repeat split; auto.
      * rewrite Hf. discriminate.
      * destruct (proj1 (proj1 (completes_iff_thumbnails info (f :: fs)))
                    (ex_intro _ d E)) as [t ->]. discriminate.
    + destruct (Js.includes message "Video unavailable"); [discriminate|].
      destruct (Js.includes message "Sign in to confirm"); discriminate.
  - intros [c [s [info [w' [-> [Hv [Hg [Hf Ht]]]]]]]].
    unfold Part000.extract. rewrite Hv, Hg. cbn [negb].
    destruct (VideoInfo.formats info) as [|f fs] eqn:Ef; [congruence|].
    replace (JsArray.length (f :: fs) =? 0)%Z with false
      by (symmetry; apply Z.eqb_neq; unfold JsArray.length; simpl; lia).
    destruct (VideoDetails.thumbnails (VideoInfo.videoDetails info)) as [t|] eqn:Et;
      [|congruence].
    destruct (proj2 (proj1 (completes_iff_thumbnails info (f :: fs)))
                (ex_intro _ t Et)) as [d ->].
    reflexivity.
  - unfold Index.extract, Index.extract_catch.
    destruct url as [[|c s]|]; try discriminate.
    destruct (Ytdl.validateURL ytdl (String c s)) eqn:Hv; [|discriminate]. cbn [negb].
    destruct (Ytdl.getInfo ytdl (String c s) [] w) as [[info|message] w'] eqn:Hg.
    + destruct (Index.formatVideoData info (VideoInfo.formats info)) as [d|message] eqn:E.
      * intros _. exists c, s, info, w', d. auto.
      * destruct (Js.includes message "Video unavailable"); discriminate.
    + destruct (Js.includes message "Video unavailable"); discriminate.
  - intros [c [s [info [w' [d [-> [Hv [Hg Hd]]]]]]]].
    unfold Index.extract. rewrite Hv, Hg, Hd. reflexivity.
Qed.

(** X15. [/extract] asks the resolver for the URL of the request, once,
    when that URL is there and valid, and does not ask it anything
    otherwise; this is so in both snapshots and whatever the resolver
    answers. *)
Theorem extract_asks_once (url : option string) (w : W) (log : list string) :
  let asked :=
    match url with
    | Some (String c s) =>
        if Ytdl.validateURL ytdl (String c s) then [String c s] else []
    | _ => []
    end in
  snd (snd (Part000.extract _ (logged ytdl) url (w, log))) = log ++ asked
  /\ snd (snd (Index.extract _ (logged ytdl) url (w, log))) = log ++ asked.
Proof.
  intros asked. subst asked. split.
  - unfold Part000.extract.
    destruct url as [[|c s]|]; try (simpl; now rewrite app_nil_r).
    cbn [logged Ytdl.validateURL Ytdl.getInfo fst snd].
    destruct (Ytdl.validateURL ytdl (String c s)); [|simpl; now rewrite app_nil_r].
    cbn [negb].
    destruct (Ytdl.getInfo ytdl (String c s) Part000.userAgent w) as [[info|message] w'].
    + destruct (JsArray.length (VideoInfo.formats info) =? 0)%Z; [reflexivity|].
      destruct (Part000.formatVideoData info (VideoInfo.formats info)); reflexivity.
    + destruct (Js.includes message "Video unavailable"); [reflexivity|].
      destruct (Js.includes message "Sign in to confirm"); reflexivity.
  - unfold Index.extract.
    destruct url as [[|c s]|]; try (simpl; now rewrite app_nil_r).
    cbn [logged Ytdl.validateURL Ytdl.getInfo fst snd].
    destruct (Ytdl.validateURL ytdl (String c s)); [|simpl; now rewrite app_nil_r].
    cbn [negb].
    destruct (Ytdl.getInfo ytdl (String c s) [] w) as [[info|message] w'].
    + destruct (Index.formatVideoData info (VideoInfo.formats info)); reflexivity.
    + reflexivity.
Qed.

End MoreExtract.

Lemma split_comma_length (s : string) :
  List.length (Js.split_comma s) = S (commas s).
Proof.
  induction s as [|c s IH]; simpl.
  - reflexivity.
  - destruct (Ascii.eqb c ","%char); simpl.
    + now rewrite IH.
    + destruct (Js.split_comma s) as [|piece rest]; simpl in *; [discriminate | exact IH].
Qed.

Section MoreBulk.

Variable W : Type.
Variable ytdl : Ytdl.t W.

Lemma bulk_entry_log (url : string) (w : W) (log : list string) :
  snd (snd (Part000.bulk_entry _ (logged ytdl) url (w, log)))
  = log ++ (if Ytdl.validateURL ytdl url then [url] else []).
Proof.
  unfold Part000.bulk_entry. cbn [logged Ytdl.validateURL Ytdl.getInfo fst snd].
  destruct (Ytdl.validateURL ytdl url); [|simpl; now rewrite app_nil_r].
  destruct (Ytdl.getInfo ytdl url [] w) as [[info|message] w'].
  - destruct (Part000.formatVideoData info (VideoInfo.formats info)); reflexivity.
  - reflexivity.
Qed.

Lemma bulk_loop_log (urlArray : list string) :
  forall results w log,
    snd (snd (Part000.bulk_loop _ (logged ytdl) urlArray results (w, log)))
    = log ++ filter (Ytdl.validateURL ytdl) urlArray.
Proof.
  induction urlArray as [|url rest IH]; intros results w log; simpl.
  - now rewrite app_nil_r.
  - pose proof (bulk_entry_log url w log) as H.
    destruct (Part000.bulk_entry _ (logged ytdl) url (w, log)) as [entry [w1 log1]].
    simpl in H. rewrite IH, H.
    destruct (Ytdl.validateURL ytdl url); simpl.
    + now rewrite <- app_assoc.
    + now rewrite app_nil_r.
Qed.

(** X16. [/bulk-extract] asks the resolver for the valid pieces of
    [urls], each one once and in the order of the request, whatever the
    resolver answers to the earlier ones; for the pieces that are not
    valid, and without [urls], it asks nothing. *)
Theorem bulk_asks_valid_urls (urls : option string) (w : W) (log : list string) :
  snd (snd (Part000.bulk_extract _ (logged ytdl) urls (w, log)))
  = log ++ match urls with
           | Some (String c s) =>
               filter (Ytdl.validateURL ytdl) (map Js.trim (Js.split_comma (String c s)))
           | _ => []
           end.
Proof.
  unfold Part000.bulk_extract.
  destruct urls as [[|c s]|]; try (simpl; now rewrite app_nil_r).
  pose proof (bulk_loop_log (map Js.trim (Js.split_comma (String c s))) [] w log) as H.
  destruct (Part000.bulk_loop _ (logged ytdl) _ [] (w, log)) as [results wl].
  exact H.
Qed.

(** X17. The [total] of [/bulk-extract] is the number of commas of
    [urls] plus one, and so is the number of results: an empty piece, as
    after a comma at the end, has an entry of its own. *)
Theorem bulk_total_counts_commas (c : ascii) (s : string) (w : W) :
  exists successful failed results w',
    Part000.bulk_extract W ytdl (Some (String c s)) w
    = (json (Bulk (Z.of_nat (S (commas (String c s)))) successful failed results), w')
    /\ List.length results = S (commas (String c s)).
Proof.
  unfold Part000.bulk_extract.
  destruct (Part000.bulk_loop W ytdl (map Js.trim (Js.split_comma (String c s))) [] w)
    as [results w'] eqn:Hl.
  destruct (bulk_loop_spec W ytdl _ _ _ _ _ Hl (Forall_nil _)) as [Hm _].
  change (map BulkEntry.url results = map Js.trim (Js.split_comma (String c s))) in Hm.
  assert (E : JsArray.length (map Js.trim (Js.split_comma (String c s)))
              = Z.of_nat (S (commas (String c s)))).
  { unfold JsArray.length. now rewrite length_map, split_comma_length. }
  rewrite E. do 4 eexists. split; [reflexivity|].
  now rewrite <- (length_map BulkEntry.url), Hm, length_map, split_comma_length.
Qed.

Lemma bulk_entry_of (url : string) (w : W) :
  entry_of ytdl url (fst (Part000.bulk_entry W ytdl url w)).
Proof.
  unfold entry_of, Part000.bulk_entry.
  destruct (Ytdl.validateURL ytdl url).
  - destruct (Ytdl.getInfo ytdl url [] w) as [[info|message] w'].
    + destruct (Part000.formatVideoData info (VideoInfo.formats info));
        simpl; repeat split; auto; discriminate.
    + simpl; repeat split; auto; discriminate.
  - simpl; repeat split; auto; discriminate.
Qed.

Lemma bulk_loop_entries (urlArray : list string) :
  forall results w results' w',
    Part000.bulk_loop W ytdl urlArray results w = (results', w') ->
    exists new, results' = results ++ new /\ Forall2 (entry_of ytdl) urlArray new.
Proof.
  induction urlArray as [|url rest IH]; intros results w results' w' H; simpl in H.
  - injection H as <- <-. exists []. split; [now rewrite app_nil_r | constructor].
  - pose proof (bulk_entry_of url w) as He.
    destruct (Part000.bulk_entry W ytdl url w) as [entry w1]. simpl in He.
    destruct (IH _ _ _ _ H) as [new [-> HF]].
    exists (entry :: new). split; [now rewrite <- app_assoc | now constructor].
Qed.

Lemma entries_counts (urlArray : list string) (results : list (BulkEntry.t Part000.Entry.t)) :
  Forall2 (entry_of ytdl) urlArray results ->
  List.length (filter (Part000.hasStatus "success") results)
  <= List.length (filter (Ytdl.validateURL ytdl) urlArray)
  /\ List.length (filter (fun url => negb (Ytdl.validateURL ytdl url)) urlArray)
     <= List.length (filter (Part000.hasStatus "error") results).
Proof.
  induction 1 as [|url r urls rs [_ [Hi Hs]] _ [IH1 IH2]]; cbn [filter]; [simpl; lia|].
  destruct (Ytdl.validateURL ytdl url) eqn:Hv; cbn [negb].
  - destruct (Part000.hasStatus "success" r), (Part000.hasStatus "error" r);
      cbn [List.length]; lia.
  - destruct (Hi eq_refl) as [E _].
    assert (E1 : Part000.hasStatus "success" r = false)
      by (unfold Part000.hasStatus; now rewrite E).
    assert (E2 : Part000.hasStatus "error" r = true)
      by (unfold Part000.hasStatus; now rewrite E).
    rewrite E1, E2. cbn [List.length]. lia.
Qed.

(** X18. The results of [/bulk-extract] follow the pieces of [urls] one
    by one: a piece that is not a valid URL always has an error entry
    that says [Invalid YouTube URL], without data, and only a valid piece
    can have a success; so [successful] is at most the number of valid
    pieces and [failed] at least the number of the others. *)
Theorem bulk_invalid_urls_fail (c : ascii) (s : string) (w : W) :
  let urlArray := map Js.trim (Js.split_comma (String c s)) in
  exists total successful failed results w',
    Part000.bulk_extract W ytdl (Some (String c s)) w
    = (json (Bulk total successful failed results), w')
    /\ Forall2 (entry_of ytdl) urlArray results
    /\ (successful <= JsArray.length (filter (Ytdl.validateURL ytdl) urlArray))%Z
    /\ (JsArray.length (filter (fun url => negb (Ytdl.validateURL ytdl url)) urlArray)
        <= failed)%Z.
Proof.
  intros urlArray. unfold Part000.bulk_extract. fold urlArray.
  destruct (Part000.bulk_loop W ytdl urlArray [] w) as [results w'] eqn:Hl.
  destruct (bulk_loop_entries _ _ _ _ _ Hl) as [new [-> HF]]. simpl.
  destruct (entries_counts _ _ HF) as [H1 H2].
  do 5 eexists. split; [reflexivity|]. split; [exact HF|].
  unfold JsArray.length. split; lia.
Qed.

(** X19. An empty list of formats is a failure for [/extract] and a
    success for [/bulk-extract]: for a valid URL that the resolver
    resolves to metadata with thumbnails and no formats, [/extract]
    answers 500 and the entry of [/bulk-extract] is a success whose four
    groups are empty. *)
Theorem empty_formats_extract_and_bulk (c : ascii) (s : string) (w : W)
        (info : VideoInfo.t) (w1 w2 : W) (thumbs : list Thumbnail.t) :
  Ytdl.validateURL ytdl (String c s) = true ->
  Ytdl.getInfo ytdl (String c s) Part000.userAgent w = (Js.Normal info, w1) ->
  Ytdl.getInfo ytdl (String c s) [] w = (Js.Normal info, w2) ->
  VideoInfo.formats info = [] ->
  VideoDetails.thumbnails (VideoInfo.videoDetails info) = Some thumbs ->
  statusOf (Part000.extract W ytdl (Some (String c s)) w) = 500%Z
  /\ exists d,
      fst (Part000.bulk_entry W ytdl (String c s) w)
      = BulkEntry.mk (String c s) "success" (Some d) None
      /\ Classified.video_mp4 d = [] /\ Classified.video_webm d = []
      /\ Classified.audio_mp3 d = [] /\ Classified.audio_webm d = [].
Proof.
  intros Hv H1 H2 Hf Ht. split.
  - unfold Part000.extract. rewrite Hv, H1, Hf. reflexivity.
  - unfold Part000.bulk_entry. rewrite Hv, H2, Hf.
    unfold Part000.formatVideoData, last_thumbnail. rewrite Ht. simpl.
    eexists. split; [reflexivity|]. simpl. auto.
Qed.

End MoreBulk.

Lemma bulk_invalid_urls_fail_witness :
  exists total successful failed results w',
    Part000.bulk_extract _ Stub.platform (Some "https://youtu.be/valid1, invalid2") []
    = (json (Bulk total successful failed results), w')
    /\ (successful <= 1)%Z /\ (1 <= failed)%Z.
Proof.
  destruct (bulk_invalid_urls_fail _ Stub.platform "h"%char "ttps://youtu.be/valid1, invalid2" [])
    as [total [successful [failed [results [w' [H [_ [H1 H2]]]]]]]].
  exists total, successful, failed, results, w'. split; [exact H|].
  split; [exact H1 | exact H2].
Defined.

Lemma empty_formats_extract_and_bulk_witness :
  statusOf (Part000.extract _ (Stub.resolving (VideoInfo.mk Sample.details []))
              (Some "https://youtu.be/x") []) = 500%Z
  /\ exists d,
      fst (Part000.bulk_entry _ (Stub.resolving (VideoInfo.mk Sample.details []))
             "https://youtu.be/x" [])
      = BulkEntry.mk "https://youtu.be/x" "success" (Some d) None
      /\ Classified.video_mp4 d = [] /\ Classified.video_webm d = []
      /\ Classified.audio_mp3 d = [] /\ Classified.audio_webm d = [].
Proof.
  eapply (empty_formats_extract_and_bulk _ (Stub.resolving (VideoInfo.mk Sample.details []))
            "h"%char "ttps://youtu.be/x" []); reflexivity.
Defined.

Section MoreSearch.

Variable W : Type.
Variable ytSearch : YtSearch W.

(** X20. The limit of [/search] at its edges, in the 2.0.0 snapshot. A
    limit that [parseInt] does not read as a number (an empty one, a
    word) gives no results and the total 0, with the status 200; a
    negative limit [n] leaves out the last [-n] videos, and gives no
    results when there are not that many. *)
Theorem search_limit_edges (c : ascii) (s : string) (limit : option string) (w : W)
        (found : SearchResults.t) (w' : W) :
  ytSearch (String c s) w = (Js.Normal found, w') ->
  let videos := SearchResults.videos found in
  (Part000.parsedLimit limit = Js.NaN ->
   Part000.search W ytSearch (Some (String c s)) limit w
   = (json (Found (String c s) [] (Some 0%Z)), w'))
  /\ (forall n,
         Part000.parsedLimit limit = Js.Num n -> (n < 0)%Z ->
         let m := Z.max (JsArray.length videos + n) 0 in
         Part000.search W ytSearch (Some (String c s)) limit w
         = (json (Found (String c s) (map searchResult (firstn (Z.to_nat m) videos))
                        (Some m)), w')).
Proof.
  intros Hs videos. split.
  - intros Hn. unfold Part000.search. rewrite Hs. unfold Js.slice0. rewrite Hn.
    cbn [Z.ltb Z.compare]. rewrite Z.min_l by (unfold JsArray.length; lia).
    reflexivity.
  - intros n Hn Hneg m. unfold Part000.search. rewrite Hs. unfold Js.slice0. rewrite Hn.
    destruct (Z.ltb_spec n 0) as [_|H]; [|lia].
    fold videos. fold (JsArray.length videos). fold m.
    assert (Hlen : JsArray.length (map searchResult (firstn (Z.to_nat m) videos)) = m).
    { unfold JsArray.length. rewrite length_map, length_firstn.
      unfold m, JsArray.length. lia. }
    now rewrite Hlen.
Qed.

(** X21. Whatever the limit, the results of [/search] in the 2.0.0
    snapshot are made of the first videos of the search client, in its
    order, never more than it found, and [total] is their number. *)
Theorem search_results_are_a_prefix (c : ascii) (s : string) (limit : option string)
        (w : W) (found : SearchResults.t) (w' : W) :
  ytSearch (String c s) w = (Js.Normal found, w') ->
  exists j,
    j <= List.length (SearchResults.videos found)
    /\ Part000.search W ytSearch (Some (String c s)) limit w
       = (json (Found (String c s)
                      (map searchResult (firstn j (SearchResults.videos found)))
                      (Some (Z.of_nat j))), w').
Proof.
  intros Hs. unfold Part000.search. rewrite Hs. unfold Js.slice0.
  set (videos := SearchResults.videos found).
  set (final := match Part000.parsedLimit limit with
                | Js.Infinity => Z.of_nat (List.length videos)
                | Js.NegInfinity => 0%Z
                | Js.NaN => Z.min 0 (Z.of_nat (List.length videos))
                | Js.Num rel => if (rel <? 0)%Z
                                then Z.max (Z.of_nat (List.length videos) + rel) 0
                                else Z.min rel (Z.of_nat (List.length videos))
                end).
  assert (Hf : (0 <= final <= Z.of_nat (List.length videos))%Z).
  { unfold final. destruct (Part000.parsedLimit limit) as [|rel| |]; try lia.
    destruct (Z.ltb_spec rel 0); lia. }
  exists (Z.to_nat final). split; [lia|].
  unfold JsArray.length. rewrite length_map, length_firstn.
  repeat f_equal. lia.
Qed.

(** X22. When [/search] succeeds, in both snapshots: the status is 200
    exactly when [q] is there and the search client resolves, 400
    exactly when [q] is missing or empty, and then the client is not
    called, and 500 exactly when the client fails; the limit has no part
    in it. *)
Theorem search_statuses (q limit : option string) (w : W) :
  let r1 := Part000.search W ytSearch q limit w in
  let r2 := Index.search W ytSearch q w in
  (statusOf r1 = 200%Z
   <-> exists c s found w', q = Some (String c s)
                            /\ ytSearch (String c s) w = (Js.Normal found, w'))
  /\ (statusOf r1 = 500%Z
      <-> exists c s message w', q = Some (String c s)
                                 /\ ytSearch (String c s) w = (Js.Throw message, w'))
  /\ (statusOf r1 = 400%Z <-> Js.truthy q = false)
  /\ (Js.truthy q = false -> snd r1 = w /\ snd r2 = w)
  /\ statusOf r2 = statusOf r1.
Proof.
  intros r1 r2. subst r1 r2. unfold Part000.search, Index.search.
  destruct q as [[|c s]|].
  - repeat split; try discriminate; intros [c [s [x [w' [H _]]]]]; discriminate.
  - destruct (ytSearch (String c s) w) as [[found|message] w'] eqn:E.
    + repeat split; try discriminate.
      * intros _. exists c, s, found, w'. auto.
      * intros [c' [s' [m [w'' [H1 H2]]]]]. injection H1 as <- <-. congruence.
    + repeat split; try discriminate.
      * intros [c' [s' [f [w'' [H1 H2]]]]]. injection H1 as <- <-. congruence.
      * intros _. exists c, s, message, w'. auto.
  - repeat split; try discriminate; intros [c [s [x [w' [H _]]]]]; discriminate.
Qed.

End MoreSearch.

Lemma search_limit_edges_witness :
  Part000.search _ (Stub.finding Stub.five) (Some "test") (Some "ten") []
  = (json (Found "test" [] (Some 0%Z)), [])
  /\ Part000.search _ (Stub.finding Stub.five) (Some "test") (Some "-2") []
     = (json (Found "test" (map searchResult [Stub.video 1; Stub.video 2; Stub.video 3])
                    (Some 3%Z)), [])
  /\ Part000.search _ (Stub.finding Stub.five) (Some "test") (Some "-7") []
     = (json (Found "test" [] (Some 0%Z)), []).
Proof.
  split; [|split].
  - apply (proj1 (search_limit_edges _ (Stub.finding Stub.five) "t"%char "est"
                    (Some "ten") [] (SearchResults.mk Stub.five) [] eq_refl)).
    reflexivity.
  - apply (proj2 (search_limit_edges _ (Stub.finding Stub.five) "t"%char "est"
                    (Some "-2") [] (SearchResults.mk Stub.five) [] eq_refl) (-2)%Z).
    + reflexivity.
    + reflexivity.
  - apply (proj2 (search_limit_edges _ (Stub.finding Stub.five) "t"%char "est"
                    (Some "-7") [] (SearchResults.mk Stub.five) [] eq_refl) (-7)%Z).
    + reflexivity.
    + reflexivity.
Defined.

Lemma search_results_are_a_prefix_witness :
  exists j,
    j <= 5
    /\ Part000.search _ (Stub.finding Stub.five) (Some "test") (Some "3.7") []
       = (json (Found "test" (map searchResult (firstn j Stub.five)) (Some (Z.of_nat j))), []).
Proof.
  apply (search_results_are_a_prefix _ (Stub.finding Stub.five) "t"%char "est"
           (Some "3.7") [] (SearchResults.mk Stub.five) []).
  reflexivity.
Defined.

Lemma search_statuses_witness :
  statusOf (Part000.search _ (Stub.finding Stub.five) (Some EmptyString) (Some "2") [])
  = 400%Z
  /\ snd (Part000.search _ (Stub.finding Stub.five) (Some EmptyString) (Some "2") []) = []
  /\ snd (Index.search _ (Stub.finding Stub.five) (Some EmptyString) []) = [].
Proof.
  destruct (search_statuses _ (Stub.finding Stub.five) (Some EmptyString) (Some "2") [])
    as [_ [_ [H3 [H4 _]]]].
  split; [apply H3; reflexivity | apply H4; reflexivity].
Defined.

Lemma videoDetails_completes (full : FullInfo.t) :
  let d := VideoInfo.videoDetails (FullInfo.info full) in
  ((exists r, Part000Details.videoDetails full = Js.Normal r)
   <-> VideoDetails.author d <> None
       /\ exists thumbs t, VideoDetails.thumbnails d = Some (thumbs ++ [t]))
  /\ (forall r, Part000Details.videoDetails full = Js.Normal r ->
                (forall thumbs t, VideoDetails.thumbnails d = Some (thumbs ++ [t]) ->
                                  DetailsResponse.thumbnail r = Thumbnail.url t)
                /\ (forall a, VideoDetails.author d = Some a ->
                              DetailsResponse.author r = Author.name a))
  /\ (VideoDetails.author d = None ->
      Part000Details.videoDetails full
      = Js.Throw "Cannot read properties of undefined (reading 'name')")
  /\ (VideoDetails.author d <> None -> VideoDetails.thumbnails d = Some [] ->
      Part000Details.videoDetails full
      = Js.Throw "Cannot read properties of undefined (reading 'url')")
  /\ (VideoDetails.author d <> None -> VideoDetails.thumbnails d = None ->
      Part000Details.videoDetails full
      = Js.Throw "Cannot read properties of undefined (reading 'length')").
Proof.
  intros d. unfold Part000Details.videoDetails, author_name, last_thumbnail_url,
              last_thumbnail. fold d.
  destruct (VideoDetails.author d) as [a|]; cbn [Js.bind].
  - destruct (VideoDetails.thumbnails d) as [thumbs|]; cbn [Js.bind].
    + assert (Hl : thumbs = [] \/ exists l t, thumbs = l ++ [t]).
      { destruct thumbs as [|t0 thumbs']; [now left | right].
        apply nonempty_last. discriminate. }
      destruct Hl as [-> | [l [t ->]]].
      * rewrite index_empty. cbn [Js.bind].
        split; [|split; [|split; [|split]]].
        -- split; [intros [r H]; discriminate|].
           intros [_ [l [t E]]]. injection E as E. now destruct l.
        -- intros r H. discriminate.
        -- discriminate.
        -- reflexivity.
        -- discriminate.
      * rewrite index_last. cbn [Js.bind].
        split; [|split; [|split; [|split]]].
        -- split; [|eauto]. intros _. split; [discriminate | eauto].
        -- intros r H. injection H as <-. simpl. split.
           ++ intros l' t' E'. injection E' as E'.
              apply app_inj_tail in E' as [_ <-]. reflexivity.
           ++ intros a' E'. now injection E' as <-.
        -- discriminate.
        -- intros _ E'. injection E' as E'. now destruct l.
        -- discriminate.
    + split; [|split; [|split; [|split]]].
      * split; [intros [r H]; discriminate|]. intros [_ [l [t E]]]. discriminate.
      * intros r H. discriminate.
      * discriminate.
      * discriminate.
      * reflexivity.
  - split; [|split; [|split; [|split]]].
    + split; [intros [r H]; discriminate|]. intros [H _]. congruence.
    + intros r H. discriminate.
    + reflexivity.
    + congruence.
    + congruence.
Qed.

Lemma Index_videoDetails (full : FullInfo.t) :
  IndexDetails.videoDetails full
  = match Part000Details.videoDetails full with
    | Js.Normal d => Js.Normal (without_added d)
    | Js.Throw message => Js.Throw message
    end.
Proof.
  unfold IndexDetails.videoDetails, Part000Details.videoDetails.
  destruct (author_name _); simpl; [|reflexivity].
  destruct (last_thumbnail_url _); reflexivity.
Qed.

Section MoreDetails.

Variable W : Type.
Variable ytdl : Resolver.t W.

(** X23. [/details] in the 2.0.0 snapshot: the status is 200, 400 or
    500, and it is 200 exactly when the URL is there and valid, the
    resolver resolves it, and the metadata has an author and a list of
    thumbnails that is not empty. Under these conditions the answer is a
    description of the video with the URL of the last thumbnail and the
    name of the author, and the world is the one the resolver left. *)
Theorem details_succeeds (url : option string) (w : W) :
  let r := Part000Details.details W ytdl url w in
  In (DetailsAnswer.status (fst r)) [200; 400; 500]%Z
  /\ (DetailsAnswer.status (fst r) = 200%Z
      <-> exists c s full w' thumbs t a,
          url = Some (String c s)
          /\ Resolver.validateURL ytdl (String c s) = true
          /\ Resolver.getInfo ytdl (String c s) [] w = (Js.Normal full, w')
          /\ VideoDetails.author (VideoInfo.videoDetails (FullInfo.info full)) = Some a
          /\ VideoDetails.thumbnails (VideoInfo.videoDetails (FullInfo.info full))
             = Some (thumbs ++ [t]))
  /\ (forall c s full w' thumbs t a,
         url = Some (String c s) ->
         Resolver.validateURL ytdl (String c s) = true ->
         Resolver.getInfo ytdl (String c s) [] w = (Js.Normal full, w') ->
         VideoDetails.author (VideoInfo.videoDetails (FullInfo.info full)) = Some a ->
         VideoDetails.thumbnails (VideoInfo.videoDetails (FullInfo.info full))
         = Some (thumbs ++ [t]) ->
         DetailsAnswer.status (fst r) = 200%Z
         /\ snd r = w'
         /\ exists d, DetailsAnswer.body (fst r) = Details d
                      /\ DetailsResponse.thumbnail d = Thumbnail.url t
                      /\ DetailsResponse.author d = Author.name a).
Proof.
  intros r. subst r.
  assert (Hgood : forall c s full w' thumbs t a,
             url = Some (String c s) ->
             Resolver.validateURL ytdl (String c s) = true ->
             Resolver.getInfo ytdl (String c s) [] w = (Js.Normal full, w') ->
             VideoDetails.author (VideoInfo.videoDetails (FullInfo.info full)) = Some a ->
             VideoDetails.thumbnails (VideoInfo.videoDetails (FullInfo.info full))
             = Some (thumbs ++ [t]) ->
             DetailsAnswer.status (fst (Part000Details.details W ytdl url w)) = 200%Z
             /\ snd (Part000Details.details W ytdl url w) = w'
             /\ exists d,
                 DetailsAnswer.body (fst (Part000Details.details W ytdl url w)) = Details d
                 /\ DetailsResponse.thumbnail d = Thumbnail.url t
                 /\ DetailsResponse.author d = Author.name a).
  { intros c s full w' thumbs t a -> Hv Hg Ha Ht.
    unfold Part000Details.details, Part000Details.details_catch.
    rewrite Hv, Hg. cbn [negb].
    destruct (videoDetails_completes full) as [Hc [Hr _]].
    destruct (proj2 Hc) as [d Hd].
    { split; [congruence | eauto]. }
    rewrite Hd. cbn [fst snd DetailsAnswer.status DetailsAnswer.body].
    split; [reflexivity|]. split; [reflexivity|].
    exists d. destruct (Hr d Hd) as [H1 H2].
    split; [reflexivity|]. split; [now apply (H1 thumbs t) | now apply H2]. }
  split; [|split; [split|exact Hgood]].
  - unfold Part000Details.details, Part000Details.details_catch.
    destruct url as [[|c s]|]; [simpl; tauto| |simpl; tauto].
    destruct (Resolver.validateURL ytdl (String c s)); cbn [negb]; [|simpl; tauto].
    destruct (Resolver.getInfo ytdl (String c s) [] w) as [[full|message] w'];
      [|simpl; tauto].
    destruct (Part000Details.videoDetails full); simpl; tauto.
  - unfold Part000Details.details, Part000Details.details_catch.
    destruct url as [[|c s]|]; [discriminate| |discriminate].
    destruct (Resolver.validateURL ytdl (String c s)) eqn:Hv; cbn [negb]; [|discriminate].
    destruct (Resolver.getInfo ytdl (String c s) [] w) as [[full|message] w'] eqn:Hg;
      [|discriminate].
    destruct (videoDetails_completes full) as [Hc _].
    destruct (Part000Details.videoDetails full) as [d|message] eqn:Hd; [|discriminate].
    intros _. destruct (proj1 Hc (ex_intro _ d eq_refl)) as [Ha [th [t Ht]]].
    destruct (VideoDetails.author _) as [a|] eqn:Ea; [|congruence].
    exists c, s, full, w', th, t, a. repeat split; auto.
  - intros [c [s [full [w' [th [t [a [E [Hv [Hg [Ha Ht]]]]]]]]]]].
    exact (proj1 (Hgood c s full w' th t a E Hv Hg Ha Ht)).
Qed.

(** X24. [/details] has no status of its own for a video that is not
    available: for the same rejection of the resolver, with a message
    that contains [Video unavailable], [/extract] answers 404 and
    [/details] answers 500, with the message, in both snapshots. *)
Theorem details_has_no_404 (c : ascii) (s : string) (w w1 w2 : W) (message : string) :
  Resolver.validateURL ytdl (String c s) = true ->
  Resolver.getInfo ytdl (String c s) Part000.userAgent w = (Js.Throw message, w1) ->
  Resolver.getInfo ytdl (String c s) [] w = (Js.Throw message, w2) ->
  contains message "Video unavailable" ->
  statusOf (Part000.extract W (Resolver.ytdl ytdl) (Some (String c s)) w) = 404%Z
  /\ statusOf (Index.extract W (Resolver.ytdl ytdl) (Some (String c s)) w) = 404%Z
  /\ fst (Part000Details.details W ytdl (Some (String c s)) w)
     = DetailsAnswer.mk 500
         (DetailsFailure [("error", JStr "Failed to get video details");
                          ("details", JStr message)])
  /\ fst (IndexDetails.details W ytdl (Some (String c s)) w)
     = DetailsAnswer.mk 500
         (DetailsFailure [("error", JStr "Failed to get video details");
                          ("details", JStr message)]).
Proof.
  intros Hv H1 H2 Hc. apply includes_contains in Hc. repeat split.
  - unfold Part000.extract. cbn [Resolver.ytdl Ytdl.validateURL Ytdl.getInfo].
    rewrite Hv, H1. cbn [negb]. now rewrite Hc.
  - unfold Index.extract, Index.extract_catch.
    cbn [Resolver.ytdl Ytdl.validateURL Ytdl.getInfo].
    rewrite Hv, H2. cbn [negb]. now rewrite Hc.
  - unfold Part000Details.details. now rewrite Hv, H2.
  - unfold IndexDetails.details. now rewrite Hv, H2.
Qed.

(** X25. Metadata that [/extract] of the 2.0.0 snapshot accepts and
    [/details] does not: for a video without author, or with an empty
    list of thumbnails, and with formats, [/extract] answers 200 and
    [/details] answers 500 with the message of the TypeError. *)
Theorem details_rejects_what_extract_accepts (c : ascii) (s : string) (w w1 w2 : W)
        (full : FullInfo.t) :
  let info := FullInfo.info full in
  Resolver.validateURL ytdl (String c s) = true ->
  Resolver.getInfo ytdl (String c s) Part000.userAgent w = (Js.Normal full, w1) ->
  Resolver.getInfo ytdl (String c s) [] w = (Js.Normal full, w2) ->
  VideoInfo.formats info <> [] ->
  (VideoDetails.author (VideoInfo.videoDetails info) = None
   /\ VideoDetails.thumbnails (VideoInfo.videoDetails info) <> None)
  \/ (VideoDetails.author (VideoInfo.videoDetails info) <> None
      /\ VideoDetails.thumbnails (VideoInfo.videoDetails info) = Some []) ->
  statusOf (Part000.extract W (Resolver.ytdl ytdl) (Some (String c s)) w) = 200%Z
  /\ DetailsAnswer.status (fst (Part000Details.details W ytdl (Some (String c s)) w))
     = 500%Z
  /\ exists property,
      DetailsAnswer.body (fst (Part000Details.details W ytdl (Some (String c s)) w))
      = DetailsFailure [("error", JStr "Failed to get video details");
                        ("details", JStr (TypeError_undefined property))].
Proof.
  intros info Hv H1 H2 Hf Hm.
  assert (Ht : exists thumbs,
             VideoDetails.thumbnails (VideoInfo.videoDetails info) = Some thumbs).
  { destruct Hm as [[_ H] | [_ H]]; [|eauto].
    destruct (VideoDetails.thumbnails _); [eauto | congruence]. }
  destruct (proj2 (proj1 (completes_iff_thumbnails info (VideoInfo.formats info))) Ht)
    as [d Hd].
  split; [|].
  - unfold Part000.extract. cbn [Resolver.ytdl Ytdl.validateURL Ytdl.getInfo].
    rewrite Hv, H1. cbn [negb]. fold info.
    destruct (VideoInfo.formats info) as [|f fs] eqn:Ef; [congruence|].
    replace (JsArray.length (f :: fs) =? 0)%Z with false
      by (symmetry; apply Z.eqb_neq; unfold JsArray.length; simpl; lia).
    now rewrite Hd.
  - unfold Part000Details.details, Part000Details.details_catch. rewrite Hv, H2.
    cbn [negb].
    destruct (videoDetails_completes full) as [_ [_ [Ha [Hu _]]]].
    destruct Hm as [[Hna _] | [Hna Hnt]].
    + rewrite (Ha Hna). split; [reflexivity|]. exists "name". reflexivity.
    + rewrite (Hu Hna Hnt). split; [reflexivity|]. exists "url". reflexivity.
Qed.

(** X26. The two snapshots of [/details] differ by two properties only:
    what [index.js] answers is what the 2.0.0 snapshot answers without
    [isAgeRestricted] and [videoId], with the same status, the same
    errors and the same use of the resolver. *)
Theorem details_snapshots_agree (url : option string) (w : W) :
  IndexDetails.details W ytdl url w
  = (answer_without_added (fst (Part000Details.details W ytdl url w)),
     snd (Part000Details.details W ytdl url w)).
Proof.
  unfold IndexDetails.details, Part000Details.details.
  destruct url as [[|c s]|]; try reflexivity.
  destruct (Resolver.validateURL ytdl (String c s)); [|reflexivity]. cbn [negb].
  destruct (Resolver.getInfo ytdl (String c s) [] w) as [[full|message] w'];
    [|reflexivity].
  rewrite Index_videoDetails.
  destruct (Part000Details.videoDetails full); reflexivity.
Qed.

End MoreDetails.

Lemma details_succeeds_witness :
  DetailsAnswer.status
    (fst (Part000Details.details _ (fullResolving (FullInfo.mk Sample.info sampleMore))
            (Some "https://youtu.be/x") [])) = 200%Z
  /\ snd (Part000Details.details _ (fullResolving (FullInfo.mk Sample.info sampleMore))
            (Some "https://youtu.be/x") []) = ["https://youtu.be/x"]
  /\ exists d,
      DetailsAnswer.body
        (fst (Part000Details.details _ (fullResolving (FullInfo.mk Sample.info sampleMore))
                (Some "https://youtu.be/x") [])) = Details d
      /\ DetailsResponse.thumbnail d = Some "https://i.ytimg.com/vi/x/maxresdefault.jpg"
      /\ DetailsResponse.author d = Some "A channel".
Proof.
  apply (proj2 (proj2 (details_succeeds _ (fullResolving (FullInfo.mk Sample.info sampleMore))
                         (Some "https://youtu.be/x") []))
           "h"%char "ttps://youtu.be/x" (FullInfo.mk Sample.info sampleMore)
           ["https://youtu.be/x"]
           [Thumbnail.mk (Some "https://i.ytimg.com/vi/x/default.jpg")]
           (Thumbnail.mk (Some "https://i.ytimg.com/vi/x/maxresdefault.jpg"))
           (Author.mk (Some "A channel")));
    reflexivity.
Defined.

Lemma details_has_no_404_witness :
  statusOf (Part000.extract _ (Resolver.ytdl (fullRejecting "Video unavailable"))
              (Some "https://youtu.be/x") []) = 404%Z
  /\ fst (Part000Details.details _ (fullRejecting "Video unavailable")
            (Some "https://youtu.be/x") [])
     = DetailsAnswer.mk 500
         (DetailsFailure [("error", JStr "Failed to get video details");
                          ("details", JStr "Video unavailable")]).
Proof.
  destruct (details_has_no_404 _ (fullRejecting "Video unavailable")
              "h"%char "ttps://youtu.be/x" [] _ _ "Video unavailable"
              eq_refl eq_refl eq_refl) as [H1 [_ [H3 _]]].
  - now apply includes_contains.
  - split; [exact H1 | exact H3].
Defined.

Lemma details_rejects_what_extract_accepts_witness :
  statusOf (Part000.extract _
              (Resolver.ytdl
                 (fullResolving
                    (FullInfo.mk (VideoInfo.mk Sample.noAuthor Sample.formats) sampleMore)))
              (Some "https://youtu.be/x") []) = 200%Z
  /\ DetailsAnswer.status
       (fst (Part000Details.details _
               (fullResolving
                  (FullInfo.mk (VideoInfo.mk Sample.noAuthor Sample.formats) sampleMore))
               (Some "https://youtu.be/x") [])) = 500%Z.
Proof.
  destruct (details_rejects_what_extract_accepts _
              (fullResolving
                 (FullInfo.mk (VideoInfo.mk Sample.noAuthor Sample.formats) sampleMore))
              "h"%char "ttps://youtu.be/x" [] _ _ _ eq_refl eq_refl eq_refl)
    as [H1 [H2 _]].
  - discriminate.
  - left. split; [reflexivity | discriminate].
  - split; [exact H1 | exact H2].
Defined.

(* ================================================================== *)
(** ** More about [/bulk-extract] *)
(* ================================================================== *)

Section Trimmed.

Variable W : Type.
Variable ytdl : Ytdl.t W.

(** X27. The URLs of the results of [/bulk-extract] are the pieces of
    [urls] without the white space around them: the URL of an entry has
    no white space character at its front or at its end, and its piece
    is the URL with white space characters only before it and after
    it. *)
Theorem bulk_urls_are_trimmed (c : ascii) (s : string) (w : W) :
  exists total successful failed results w',
    Part000.bulk_extract W ytdl (Some (String c s)) w
    = (json (Bulk total successful failed results), w')
    /\ Forall2 (fun piece r =>
                  ~ starts_with_space (BulkEntry.url r)
                  /\ ~ ends_with_space (BulkEntry.url r)
                  /\ exists pre post,
                      piece = (pre ++ BulkEntry.url r ++ post)%string
                      /\ spaces pre /\ spaces post)
               (Js.split_comma (String c s)) results.
Proof.
  unfold Part000.bulk_extract.
  destruct (Part000.bulk_loop W ytdl (map Js.trim (Js.split_comma (String c s))) [] w)
    as [results w'] eqn:Hl.
  destruct (bulk_loop_spec W ytdl _ _ _ _ _ Hl (Forall_nil _)) as [Hm _].
  change (map BulkEntry.url results = map Js.trim (Js.split_comma (String c s))) in Hm.
  do 5 eexists. split; [reflexivity|].
  revert Hm. generalize (Js.split_comma (String c s)). clear Hl.
  induction results as [|r results IH]; intros [|piece pieces] Hm;
    try discriminate; constructor.
  - injection Hm as Hu _. rewrite Hu. apply trim_spec.
  - injection Hm as _ Hm. now apply IH.
Qed.

End Trimmed.
